(** * BranchCompare: the file and directory comparison engine

    A shallow embedding of [MainApplication/filecmpModified.py]: the cached
    file comparator ([cmp], [_sig], [_do_cmp], [clear_cache]), the batch
    comparator ([cmpfiles], [_cmp]) and the phased directory classifier
    ([dircmp.phase0] .. [dircmp.phase3], [_filter]).

    The file system is an explicit, read-only argument; the process-wide
    comparison cache and a log of the I/O calls issued are threaded through
    a small state-and-exception monad. *)

From Stdlib.Strings Require Import Byte.
From Stdlib.Structures Require OrderedTypeEx.
From stdpp Require Import base decidable option list sorting strings gmap.
From Equations Require Import Equations.

Set Warnings "-clear-no-such-hyp,-abstract-large-number".
Local Open Scope Z_scope.

(* ===================================================================== *)
(** ** The platform: [stat], [os] and [os.path]                           *)
(* ===================================================================== *)

(** [os.stat_result], restricted to the three fields the module reads.
    [st_mtime] is only ever compared with [==] and hashed as part of a cache
    key, so a time stamp is modelled by an integer. *)
Record stat_result := mk_stat {
  st_mode  : Z;
  st_size  : Z;
  st_mtime : Z
}.

(** The constants and predicates of Python's [stat] module. *)
Definition S_IFMT (mode : Z) : Z := Z.land mode 0xF000.  (* 0o170000 *)
Definition S_IFDIR : Z := 0x4000.         (* 0o040000 *)
Definition S_IFREG : Z := 0x8000.         (* 0o100000 *)
Definition S_IFIFO : Z := 0x1000.         (* 0o010000 *)
Definition S_ISDIR (mode : Z) : bool := bool_decide (S_IFMT mode = S_IFDIR).
Definition S_ISREG (mode : Z) : bool := bool_decide (S_IFMT mode = S_IFREG).

#[global] Instance byte_eq_dec : EqDecision byte.
Proof.
  intros x y. destruct (decide (Byte.to_N x = Byte.to_N y)) as [E|E].
  - left. apply (f_equal Byte.of_N) in E.
    rewrite !Byte.of_to_N in E. by injection E.
  - right. by intros ->.
Defined.

(** What the comparison engine can observe of the file system.  [None] is
    the call raising [OSError]. *)
Record FileSystem := mk_fs {
  fs_stat    : string → option stat_result;   (* os.stat(path)            *)
  fs_listdir : string → option (list string); (* os.listdir(path)         *)
  fs_open    : string → option (list byte)    (* open(path, 'rb'): bytes  *)
}.

(** The two [os.path] functions the module calls; they depend on the
    platform ([posixpath] or [ntpath]). *)
Record OsPath := mk_ospath {
  path_join : string → string → string;  (* os.path.join(a, b)  *)
  normcase  : string → string            (* os.path.normcase(s) *)
}.

(* ===================================================================== *)
(** ** Exceptions, state and the monad                                    *)
(* ===================================================================== *)

Inductive exn := OSError | KeyError | IndexError.

Inductive result (A : Type) :=
| Ok (a : A)
| Raise (e : exn).
Arguments Ok {A} a.
Arguments Raise {A} e.

Inductive io_event :=
| IoStat (path : string)
| IoListdir (path : string)
| IoOpen (path : string).

#[global] Instance io_event_eq_dec : EqDecision io_event.
Proof. solve_decision. Defined.
#[global] Instance exn_eq_dec : EqDecision exn.
Proof. solve_decision. Defined.
#[global] Instance result_eq_dec `{EqDecision A} : EqDecision (result A).
Proof. solve_decision. Defined.

(** A signature is the tuple [(S_IFMT(st_mode), st_size, st_mtime)]. *)
Abbreviation signature := (Z * Z * Z)%type.

(** Keys of [_cache]: [(f1, f2, s1, s2)]. *)
Abbreviation cache_key := (string * string * signature * signature)%type.

(** The module-level mutable state: the dictionary [_cache], and the trace
    of file-system calls made so far (oldest first). *)
Record world := mk_world {
  _cache : gmap cache_key bool;
  io_log : list io_event
}.

Definition M (A : Type) : Type := world → result A * world.

Definition ret {A} (a : A) : M A := λ w, (Ok a, w).
Definition raise {A} (e : exn) : M A := λ w, (Raise e, w).
Definition bind {A B} (c : M A) (k : A → M B) : M B :=
  λ w, match c w with
       | (Ok a, w') => k a w'
       | (Raise e, w') => (Raise e, w')
       end.

Notation "x <- c ;; k" := (bind c (λ x, k))
  (at level 100, c at next level, right associativity).
Notation "c ;;; k" := (bind c (λ _, k))
  (at level 100, right associativity).

(** [try: c except OSError: return d] *)
Definition try_except_OSError {A} (c : M A) (d : A) : M A :=
  λ w, match c w with
       | (Raise OSError, w') => (Ok d, w')
       | r => r
       end.

Definition emit (e : io_event) : M unit :=
  λ w, (Ok tt, mk_world (_cache w) (io_log w ++ [e])).

(** [for x in l: s = body(x, s)] *)
Fixpoint for_each {A S} (body : A → S → M S) (l : list A) (s : S) : M S :=
  match l with
  | [] => ret s
  | x :: l' => s' <- body x s ;; for_each body l' s'
  end.

Definition lift_result {A} (r : result A) : M A := λ w, (r, w).

Definition lift_os {A} (e : io_event) (o : option A) : M A :=
  emit e ;;; match o with Some a => ret a | None => raise OSError end.

(** The attributes of a [dircmp] object that its constructor sets. *)
Module dircmp.
Record t := mk {
  left : string;
  right : string;
  hide : list string;
  ignore : list string
}.
End dircmp.

Section Engine.

Variable fs : FileSystem.
Variable os_path : OsPath.

Definition os_stat (path : string) : M stat_result :=
  lift_os (IoStat path) (fs_stat fs path).
Definition os_listdir (path : string) : M (list string) :=
  lift_os (IoListdir path) (fs_listdir fs path).
Definition open_rb (path : string) : M (list byte) :=
  lift_os (IoOpen path) (fs_open fs path).

(* ===================================================================== *)
(** ** The file comparator                                                *)
(* ===================================================================== *)

Definition BUFSIZE : nat := 8 * 1024.

(** [clear_cache()] *)
Definition clear_cache : M unit :=
  λ w, (Ok tt, mk_world ∅ (io_log w)).

Definition cache_get (k : cache_key) : M (option bool) :=
  λ w, (Ok (_cache w !! k), w).
Definition cache_len : M nat :=
  λ w, (Ok (size (_cache w)), w).
Definition cache_setitem (k : cache_key) (v : bool) : M unit :=
  λ w, (Ok tt, mk_world (<[k:=v]> (_cache w)) (io_log w)).

Definition _sig (st : stat_result) : signature :=
  (S_IFMT (st_mode st), st_size st, st_mtime st).

(** The [while True] loop of [_do_cmp].  A file object is the list of bytes
    not yet read; [fp.read(bufsize)] returns the next [bufsize] bytes (fewer
    at the end of the file) and advances past them. *)
Equations? read_loop (bufsize : nat) (fp1 fp2 : list byte) : bool
  by wf (length fp1) lt :=
  read_loop bufsize fp1 fp2
    with decide (take bufsize fp1 ≠ take bufsize fp2) => {
    | left _ := false;
    | right _ with decide (take bufsize fp1 = []) => {
      | left _ := true;
      | right Hmore := read_loop bufsize (drop bufsize fp1) (drop bufsize fp2) } }.
Proof.
  rewrite length_drop.
  destruct bufsize as [|n]; [by rewrite take_0 in Hmore|].
  destruct fp1; [done|]. simpl. lia.
Qed.

Definition _do_cmp (f1 f2 : string) : M bool :=
  fp1 <- open_rb f1 ;;
  fp2 <- open_rb f2 ;;
  ret (read_loop BUFSIZE fp1 fp2).

(** [cmp(f1, f2, shallow)] *)
Definition cmp (f1 f2 : string) (shallow : bool) : M bool :=
  st1 <- os_stat f1 ;;
  st2 <- os_stat f2 ;;
  let s1 := _sig st1 in
  let s2 := _sig st2 in
  if bool_decide (s1.1.1 ≠ S_IFREG) || bool_decide (s2.1.1 ≠ S_IFREG)
  then ret false
  else if shallow && bool_decide (s1 = s2) then ret true
  else if bool_decide (s1.1.2 ≠ s2.1.2) then ret false
  else
    outcome <- cache_get (f1, f2, s1, s2) ;;
    match outcome with
    | Some b => ret b
    | None =>
        outcome <- _do_cmp f1 f2 ;;
        n <- cache_len ;;
        (if bool_decide (100 < n)%nat then clear_cache else ret tt) ;;;
        cache_setitem (f1, f2, s1, s2) outcome ;;;
        ret outcome
    end.

(* ===================================================================== *)
(** ** The batch comparator                                               *)
(* ===================================================================== *)

(** Python's [abs] on a [bool] and [not] on an [int]; a [bool] used as a
    tuple index counts as [0] or [1]. *)
Definition py_abs (b : bool) : Z := if b then 1 else 0.
Definition py_not (n : Z) : bool := bool_decide (n = 0).
Definition index_of_bool (b : bool) : nat := if b then 1%nat else 0%nat.

(** [_cmp(a, b, sh)]: [0] equal, [1] different, [2] funny. *)
Definition _cmp (a b : string) (sh : bool) : M nat :=
  try_except_OSError
    (r <- cmp a b sh ;; ret (index_of_bool (py_not (py_abs r))))
    2%nat.

(** [res[i].append(x)] on a tuple of three lists. *)
Definition tuple3_append (i : nat) (x : string)
    (res : list string * list string * list string)
  : result (list string * list string * list string) :=
  let '(r0, r1, r2) := res in
  match i with
  | 0%nat => Ok (r0 ++ [x], r1, r2)
  | 1%nat => Ok (r0, r1 ++ [x], r2)
  | 2%nat => Ok (r0, r1, r2 ++ [x])
  | _ => Raise IndexError
  end.

(** [cmpfiles(a, b, common, shallow)] *)
Definition cmpfiles (a b : string) (common : list string) (shallow : bool)
  : M (list string * list string * list string) :=
  for_each
    (λ x res,
       let ax := path_join os_path a x in
       let bx := path_join os_path b x in
       i <- _cmp ax bx shallow ;;
       lift_result (tuple3_append i x res))
    common ([], [], []).

(* ===================================================================== *)
(** ** The directory classifier                                           *)
(* ===================================================================== *)

(** [_filter(flist, skip)] *)
Definition _filter (flist skip : list string) : list string :=
  filter (λ x, x ∉ skip) flist.

(** [list.sort()] on a list of [str]: ascending, by code points. *)
Definition str_le (s1 s2 : string) : Prop := String.leb s1 s2 = true.
#[global] Instance str_le_dec : RelDecision str_le.
Proof. intros s1 s2. unfold str_le. apply _. Defined.
Definition list_sort (l : list string) : list string := merge_sort str_le l.

(** A Python [dict] from [str] to [str]: the items in insertion order; an
    assignment to a key already present replaces its value in place. *)
Abbreviation pydict := (list (string * string)).

Fixpoint dict_setitem (k v : string) (d : pydict) : pydict :=
  match d with
  | [] => [(k, v)]
  | (k', v') :: d' =>
      if decide (k = k') then (k', v) :: d' else (k', v') :: dict_setitem k v d'
  end.

(** [dict(pairs)] *)
Definition dict_of (pairs : list (string * string)) : pydict :=
  fold_left (λ d kv, dict_setitem kv.1 kv.2 d) pairs [].

(** Iterating a dict yields its keys. *)
Definition dict_iter (d : pydict) : list string := d.*1.

(** [d.__contains__(k)] *)
Definition dict_contains (d : pydict) (k : string) : Prop := k ∈ dict_iter d.
#[global] Instance dict_contains_dec d k : Decision (dict_contains d k).
Proof. unfold dict_contains. apply _. Defined.

(** [d.__getitem__(k)] *)
Fixpoint dict_getitem (d : pydict) (k : string) : result string :=
  match d with
  | [] => Raise KeyError
  | (k', v) :: d' => if decide (k = k') then Ok v else dict_getitem d' k
  end.

(** [list(map(f, l))] for an [f] that can raise. *)
Fixpoint list_map {A B} (f : A → result B) (l : list A) : result (list B) :=
  match l with
  | [] => Ok []
  | x :: l' =>
      match f x with
      | Raise e => Raise e
      | Ok y => match list_map f l' with
                | Raise e => Raise e
                | Ok ys => Ok (y :: ys)
                end
      end
  end.


Definition DEFAULT_IGNORES : list string :=
  ["RCS"; "CVS"; "tags"; ".git"; ".hg"; ".bzr"; "_darcs"; "__pycache__"]%string.
Definition curdir : string := ".".
Definition pardir : string := "..".

(** [dircmp.__init__(a, b, ignore=None, hide=None)] *)
Definition dircmp_init (a b : string) (ignore hide : option (list string))
  : dircmp.t :=
  {| dircmp.left := a; dircmp.right := b;
     dircmp.hide := default [curdir; pardir] hide;
     dircmp.ignore := default DEFAULT_IGNORES ignore |}.

(** [phase0]: [(left_list, right_list)] *)
Definition phase0 (self : dircmp.t)
  : M (list string * list string) :=
  l <- os_listdir (dircmp.left self) ;;
  let left_list := _filter l (dircmp.hide self ++ dircmp.ignore self) in
  r <- os_listdir (dircmp.right self) ;;
  let right_list := _filter r (dircmp.hide self ++ dircmp.ignore self) in
  ret (list_sort left_list, list_sort right_list).

(** [phase1]: [(common, left_only, right_only)] *)
Definition phase1 (left_list right_list : list string)
  : M (list string * list string * list string) :=
  let a := dict_of (zip (normcase os_path <$> left_list) left_list) in
  let b := dict_of (zip (normcase os_path <$> right_list) right_list) in
  common <- lift_result
    (list_map (dict_getitem a) (filter (dict_contains b) (dict_iter a))) ;;
  left_only <- lift_result
    (list_map (dict_getitem a)
       (filter (λ k, ¬ dict_contains b k) (dict_iter a))) ;;
  right_only <- lift_result
    (list_map (dict_getitem b)
       (filter (λ k, ¬ dict_contains a k) (dict_iter b))) ;;
  ret (common, left_only, right_only).

(** [try: st = os.stat(path) / except OSError: ok = 0] *)
Definition try_stat (path : string) : M (option stat_result) :=
  try_except_OSError (st <- os_stat path ;; ret (Some st)) None.

(** One iteration of the loop of [phase2]. *)
Definition phase2_body (self : dircmp.t) (x : string)
    (acc : list string * list string * list string)
  : M (list string * list string * list string) :=
  let '(common_dirs, common_files, common_funny) := acc in
  let a_path := path_join os_path (dircmp.left self) x in
  let b_path := path_join os_path (dircmp.right self) x in
  a_stat <- try_stat a_path ;;
  b_stat <- try_stat b_path ;;
  match a_stat, b_stat with
  | Some a_stat, Some b_stat =>
      let a_type := S_IFMT (st_mode a_stat) in
      let b_type := S_IFMT (st_mode b_stat) in
      if bool_decide (a_type ≠ b_type)
      then ret (common_dirs, common_files, common_funny ++ [x])
      else if S_ISDIR a_type
      then ret (common_dirs ++ [x], common_files, common_funny)
      else if S_ISREG a_type
      then ret (common_dirs, common_files ++ [x], common_funny)
      else ret (common_dirs, common_files, common_funny ++ [x])
  | _, _ => ret (common_dirs, common_files, common_funny ++ [x])
  end.

(** [phase2]: [(common_dirs, common_files, common_funny)] *)
Definition phase2 (self : dircmp.t) (common : list string)
  : M (list string * list string * list string) :=
  for_each (phase2_body self) common ([], [], []).

(** [phase3]: [(same_files, diff_files, funny_files)] *)
Definition phase3 (self : dircmp.t) (common_files : list string)
  : M (list string * list string * list string) :=
  cmpfiles (dircmp.left self) (dircmp.right self) common_files false.

(** The attributes of a [dircmp] object that phases 0 to 3 compute. *)
Record attrs := mk_attrs {
  left_list : list string;
  right_list : list string;
  common : list string;
  left_only : list string;
  right_only : list string;
  common_dirs : list string;
  common_files : list string;
  common_funny : list string;
  same_files : list string;
  diff_files : list string;
  funny_files : list string
}.

(** Reading [same_files] on a fresh object: [__getattr__] runs [phase3],
    whose first attribute access runs [phase2], and so on down to [phase0];
    each phase runs once and stores its attributes. *)
Definition classify (self : dircmp.t) : M attrs :=
  p0 <- phase0 self ;;
  let '(ll, rl) := p0 in
  p1 <- phase1 ll rl ;;
  let '(c, lo, ro) := p1 in
  p2 <- phase2 self c ;;
  let '(cd, cf, cy) := p2 in
  p3 <- phase3 self cf ;;
  let '(sf, df, ff) := p3 in
  ret (mk_attrs ll rl c lo ro cd cf cy sf df ff).

End Engine.

(* ===================================================================== *)
(** ** Reference definitions used in the statements                       *)
(* ===================================================================== *)

(** The state [w] after the calls [es] were logged, the cache untouched. *)
Definition logged (w : world) (es : list io_event) : world :=
  mk_world (_cache w) (io_log w ++ es).

(** The successive non-empty results of [read(bufsize)] on a stream. *)
Equations? stream_chunks (bufsize : nat) (fp : list byte) : list (list byte)
  by wf (length fp) lt :=
  stream_chunks bufsize fp with decide (take bufsize fp = []) => {
    | left _ := [];
    | right Hmore := take bufsize fp :: stream_chunks bufsize (drop bufsize fp) }.
Proof.
  rewrite length_drop.
  destruct bufsize as [|n]; [by rewrite take_0 in Hmore|].
  destruct fp; [done|]. simpl. lia.
Qed.

(** The strings that [os.stat] and [open] take as a path are those without
    a NUL character: on any other string they raise [ValueError], which is
    no [OSError]; such a string names no file, and the model of the two
    calls leaves it out. *)
Fixpoint has_nul (s : string) : bool :=
  match s with
  | EmptyString => false
  | String c s' => bool_decide (c = Ascii.zero) || has_nul s'
  end.

Definition is_path (p : string) : Prop := has_nul p = false.

(** What [_do_cmp] returns or raises, as a function of the file system. *)
Definition content_equal (fs : FileSystem) (f1 f2 : string) : result bool :=
  match fs_open fs f1 with
  | None => Raise OSError
  | Some fp1 =>
      match fs_open fs f2 with
      | None => Raise OSError
      | Some fp2 => Ok (read_loop BUFSIZE fp1 fp2)
      end
  end.

(** The comparator recomputed from scratch: [cmp] without its cache. *)
Definition cmp_from_scratch (fs : FileSystem) (f1 f2 : string) (shallow : bool)
  : result bool :=
  match fs_stat fs f1, fs_stat fs f2 with
  | Some st1, Some st2 =>
      let s1 := _sig st1 in
      let s2 := _sig st2 in
      if bool_decide (s1.1.1 ≠ S_IFREG) || bool_decide (s2.1.1 ≠ S_IFREG)
      then Ok false
      else if shallow && bool_decide (s1 = s2) then Ok true
      else if bool_decide (s1.1.2 ≠ s2.1.2) then Ok false
      else content_equal fs f1 f2
  | _, _ => Raise OSError
  end.

(** A cache holds no stale entry for [fs]: every entry filed under the
    current signatures of its two paths records what comparing their
    current contents gives. *)
Definition cache_ok (fs : FileSystem) (c : gmap cache_key bool) : Prop :=
  ∀ f1 f2 st1 st2 b,
    fs_stat fs f1 = Some st1 → fs_stat fs f2 = Some st2 →
    c !! (f1, f2, _sig st1, _sig st2) = Some b →
    content_equal fs f1 f2 = Ok b.

(** Entries recorded for a file against itself are [True]. *)
Definition cache_refl (c : gmap cache_key bool) : Prop :=
  ∀ f s1 s2 b, c !! (f, f, s1, s2) = Some b → b = true.

(** A history of comparator calls [(f1, f2, shallow)], run in order. *)
Definition run_calls (fs : FileSystem) (calls : list (string * string * bool))
    (w : world) : world :=
  fold_left (λ w c, (cmp fs c.1.1 c.1.2 c.2 w).2) calls w.

(** The process starts with an empty cache. *)
Definition initial_world : world := mk_world ∅ [].

(** The cache after a miss: reset first if it holds more than 100 entries,
    then the new entry is stored. *)
Definition cache_store (k : cache_key) (v : bool) (c : gmap cache_key bool)
  : gmap cache_key bool :=
  <[k:=v]> (if bool_decide (100 < size c)%nat then ∅ else c).

(** The words of the specification for the end of a miss: the result is
    stored, then the whole cache is dropped if it holds more than 100
    entries. *)
Definition store_then_drop_spec (k : cache_key) (v : bool)
    (c : gmap cache_key bool) : gmap cache_key bool :=
  let c' := <[k:=v]> c in
  if bool_decide (100 < size c')%nat then ∅ else c'.

(** The words of the specification for the batch comparator: each name goes
    to the list chosen by the comparator's outcome on its pair of paths
    ([true]: same, [false]: different, an error: funny), in input order. *)
Fixpoint compare_many_spec (fs : FileSystem) (os_path : OsPath)
    (a b : string) (names : list string) (shallow : bool) (w : world)
  : (list string * list string * list string) * world :=
  match names with
  | [] => (([], [], []), w)
  | x :: rest =>
      let '(r, w1) :=
        cmp fs (path_join os_path a x) (path_join os_path b x) shallow w in
      let '((same, diff, funny), w2) :=
        compare_many_spec fs os_path a b rest shallow w1 in
      match r with
      | Ok true => ((x :: same, diff, funny), w2)
      | Ok false => ((same, x :: diff, funny), w2)
      | Raise _ => ((same, diff, x :: funny), w2)
      end
  end.

(** The tuple index [_cmp] computes from an outcome of [cmp]. *)
Definition bucket_of (r : result bool) : nat :=
  match r with
  | Ok b => index_of_bool (py_not (py_abs b))
  | Raise _ => 2%nat
  end.

(** The [stat] calls of [phase2], in order. *)
Definition phase2_log (os_path : OsPath) (self : dircmp.t)
    (common : list string) : list io_event :=
  common ≫= λ x, [IoStat (path_join os_path (dircmp.left self) x);
                  IoStat (path_join os_path (dircmp.right self) x)].

(** How [phase2] files one common name. *)
Inductive entry_kind := KDir | KFile | KFunny.

#[global] Instance entry_kind_eq_dec : EqDecision entry_kind.
Proof. solve_decision. Defined.

Definition kind_of (fs : FileSystem) (os_path : OsPath) (self : dircmp.t)
    (x : string) : entry_kind :=
  match fs_stat fs (path_join os_path (dircmp.left self) x),
        fs_stat fs (path_join os_path (dircmp.right self) x) with
  | Some a_stat, Some b_stat =>
      let a_type := S_IFMT (st_mode a_stat) in
      let b_type := S_IFMT (st_mode b_stat) in
      if bool_decide (a_type ≠ b_type) then KFunny
      else if bool_decide (a_type = S_IFDIR) then KDir
      else if bool_decide (a_type = S_IFREG) then KFile
      else KFunny
  | _, _ => KFunny
  end.

(* ===================================================================== *)
(** ** Concrete platforms and file systems                                *)
(* ===================================================================== *)

Local Open Scope string_scope.

(** A finite table as a function. *)
Fixpoint assoc {A} (l : list (string * A)) (k : string) : option A :=
  match l with
  | [] => None
  | (k', v) :: l' => if decide (k = k') then Some v else assoc l' k
  end.

(** [posixpath.join] on two components, and [posixpath.normcase]. *)
Definition posix_join (a b : string) : string :=
  if String.prefix "/" b then b
  else if decide (a = "") then b
  else if String.prefix "/" (String.rev a) then a +:+ b
  else a +:+ "/" +:+ b.
Definition posix : OsPath := mk_ospath posix_join id.

Definition reg_file (size mtime : Z) : stat_result :=
  mk_stat 0x81A4 size mtime.                      (* 0o100644 *)
Definition directory : stat_result := mk_stat 0x41ED 0 0.  (* 0o040755 *)
Definition fifo : stat_result := mk_stat 0x11A4 0 0.       (* 0o010644 *)

(** [A/x.txt] holds the byte [a], [B/x.txt] the byte [b]; same size and
    modification time. *)
Definition fs_differ : FileSystem :=
  mk_fs
    (assoc [("A", directory); ("B", directory);
            ("A/x.txt", reg_file 1 5); ("B/x.txt", reg_file 1 5)])
    (assoc [("A", ["x.txt"]); ("B", ["x.txt"])])
    (assoc [("A/x.txt", [x61%byte]); ("B/x.txt", [x62%byte])]).

(** The same tree earlier, when [B/x.txt] still held the byte [a]: every
    signature is as in [fs_differ]. *)
Definition fs_before : FileSystem :=
  mk_fs
    (fs_stat fs_differ)
    (fs_listdir fs_differ)
    (assoc [("A/x.txt", [x61%byte]); ("B/x.txt", [x61%byte])]).

(** Every path is an empty regular file. *)
Definition fs_uniform : FileSystem :=
  mk_fs (λ _, Some (reg_file 0 0)) (λ _, None) (λ _, Some []).

(** 100 and 101 distinct comparisons. *)
Definition one_char_name (i : nat) : string :=
  String (Ascii.ascii_of_nat i) "".
Definition distinct_calls (n : nat) : list (string * string * bool) :=
  (λ i, (one_char_name i, one_char_name i, false)) <$> seq 0 n.

(** A directory holding a named pipe, a file and a subdirectory. *)
Definition fs_pipe : FileSystem :=
  mk_fs
    (assoc [("D", directory); ("D/pipe", fifo); ("D/f", reg_file 1 5);
            ("D/sub", directory)])
    (assoc [("D", ["sub"; "pipe"; "f"; ".git"])])
    (assoc [("D/f", [x61%byte])]).

(** The same directory without the pipe. *)
Definition fs_plain : FileSystem :=
  mk_fs
    (assoc [("D", directory); ("D/f", reg_file 1 5); ("D/sub", directory)])
    (assoc [("D", ["sub"; "f"; ".git"])])
    (assoc [("D/f", [x61%byte])]).

(** A regular file on the left, a directory of the same name on the right,
    and a name that cannot be stat'd on the right. *)
Definition fs_mixed : FileSystem :=
  mk_fs
    (assoc [("A", directory); ("B", directory);
            ("A/n", reg_file 1 5); ("B/n", directory);
            ("A/gone", reg_file 1 5);
            ("A/d", directory); ("B/d", directory);
            ("A/f", reg_file 1 5); ("B/f", reg_file 1 6)])
    (assoc [("A", ["n"; "gone"; "f"; "d"; "only_a"; "__pycache__"]);
            ("B", ["f"; "d"; "n"; "gone"; "only_b"])])
    (assoc [("A/f", [x61%byte]); ("B/f", [x61%byte])]).

(** What the classifier computes for [A] against [B] in [fs_mixed]. *)
Definition attrs_mixed : attrs :=
  {| left_list := ["d"; "f"; "gone"; "n"; "only_a"];
     right_list := ["d"; "f"; "gone"; "n"; "only_b"];
     common := ["d"; "f"; "gone"; "n"];
     left_only := ["only_a"];
     right_only := ["only_b"];
     common_dirs := ["d"];
     common_files := ["f"];
     common_funny := ["gone"; "n"];
     same_files := ["f"];
     diff_files := [];
     funny_files := [] |}.

(** A platform whose [normcase] folds ASCII letters to lower case, and two
    directories that spell one name differently, on a file system that
    resolves either spelling. *)
Definition ascii_lower (c : Ascii.ascii) : Ascii.ascii :=
  let n := Ascii.nat_of_ascii c in
  if ((65 <=? n) && (n <=? 90))%nat then Ascii.ascii_of_nat (n + 32) else c.
Fixpoint str_lower (s : string) : string :=
  match s with
  | EmptyString => EmptyString
  | String c s' => String (ascii_lower c) (str_lower s')
  end.
Definition caseless : OsPath := mk_ospath posix_join str_lower.
Definition fs_casing : FileSystem :=
  mk_fs
    (assoc [("A", directory); ("B", directory);
            ("A/Readme", reg_file 1 5); ("B/README", reg_file 1 5);
            ("B/Readme", reg_file 1 5)])
    (assoc [("A", ["Readme"]); ("B", ["README"])])
    (assoc [("A/Readme", [x61%byte]); ("B/README", [x61%byte]);
            ("B/Readme", [x61%byte])]).

Local Close Scope string_scope.

(* ===================================================================== *)
(** ** The rest of the class: sub-directories and the report              *)
(* ===================================================================== *)

Local Open Scope string_scope.

(** A Python [dict] from [str] to [str], as in the classifier. *)
Abbreviation pydict := (list (string * string)).

(** [range(n)]: empty for a negative [n]. *)
Definition py_range (n : Z) : list Z := Z.of_nat <$> seq 0 (Z.to_nat n).

(** A [str] is held as the UTF-8 encoding of its code points (a lone
    surrogate, which [os.listdir] gives for an undecodable byte, in its
    three-byte form).  A byte [10xxxxxx] continues a code point, every other
    byte starts one. *)
Definition is_continuation_byte (c : Ascii.ascii) : bool :=
  match c with
  | Ascii.Ascii _ _ _ _ _ _ b6 b7 => b7 && negb b6
  end.

(** [len(s)] of a [str]: the number of its code points. *)
Fixpoint py_len (s : string) : nat :=
  match s with
  | EmptyString => 0%nat
  | String c s' =>
      ((if is_continuation_byte c then 0 else 1) + py_len s')%nat
  end.

(** [dircmp.addSpace(keyLength)] *)
Definition addSpace (keyLength : string) : string :=
  let adjustSpace := 40 in
  let length := Z.of_nat (py_len keyLength) in
  let numSpaces := adjustSpace - length in
  fold_left (λ spaces _, spaces +:+ " ") (py_range numSpaces) "".

Definition backslash : Ascii.ascii := Eval cbv in Ascii.ascii_of_nat 92.
Definition slash : Ascii.ascii := Eval cbv in Ascii.ascii_of_nat 47.

(** [s.replace(old, new)] for two one-character strings. *)
Fixpoint str_replace_char (old new : Ascii.ascii) (s : string) : string :=
  match s with
  | EmptyString => EmptyString
  | String c s' =>
      String (if decide (c = old) then new else c) (str_replace_char old new s')
  end.

(** [dircmp.clipPath(path)]: the [pathlib.Path] it builds is not used. *)
Definition clipPath (path : string) : string :=
  str_replace_char backslash slash path.

(** The characters of a string. *)
Fixpoint str_chars (s : string) : list Ascii.ascii :=
  match s with
  | EmptyString => []
  | String c s' => c :: str_chars s'
  end.

(** [d[k] = v] on an insertion-ordered dict with values of any type. *)
Fixpoint odict_setitem {V} (k : string) (v : V) (d : list (string * V))
  : list (string * V) :=
  match d with
  | [] => [(k, v)]
  | (k', v') :: d' =>
      if decide (k = k') then (k', v) :: d'
      else (k', v') :: odict_setitem k v d'
  end.

(** [phase4]: the dict [subdirs], a fresh [dircmp] for each common
    sub-directory; the constructor is called as
    [dircmp(a_x, b_x, self.ignore, self.hide)]. *)
Definition phase4 (os_path : OsPath) (self : dircmp.t)
    (common_dirs : list string) : list (string * dircmp.t) :=
  fold_left
    (λ subdirs x,
       let a_x := path_join os_path (dircmp.left self) x in
       let b_x := path_join os_path (dircmp.right self) x in
       odict_setitem x
         (dircmp_init a_x b_x (Some (dircmp.ignore self))
            (Some (dircmp.hide self)))
         subdirs)
    common_dirs [].

(** [os.path.isdir] and [os.path.isfile]: [False] when [stat] fails. *)
Definition os_path_isdir (fs : FileSystem) (path : string) : bool :=
  match fs_stat fs path with
  | Some st => S_ISDIR (st_mode st)
  | None => false
  end.
Definition os_path_isfile (fs : FileSystem) (path : string) : bool :=
  match fs_stat fs path with
  | Some st => S_ISREG (st_mode st)
  | None => false
  end.

(** The module-level dictionaries and lists that [report] fills.  (The
    lists [addedDirs], [subbedDirs], [commonDirs] and [commonFiles] are
    never written.) *)
Record report_globals := mk_globals {
  subbedD : pydict;
  addedD : pydict;
  subbedF : pydict;
  addedF : pydict;
  subbedFiles : list string;
  addedFiles : list string
}.

Definition no_report : report_globals := mk_globals [] [] [] [] [] [].

(** The loops shared by [subContentsDiffDir] and [addContentsDiffDir]:
    [walk] is what [os.walk(path, topdown=True)] yields, triples
    [(root, directories, files)]. *)
Definition walk_into (os_path : OsPath)
    (walk : list (string * list string * list string))
    (dirs_dict files_dict : pydict) : pydict * pydict :=
  fold_left
    (λ acc step,
       let '(root, directories, files) := step in
       let dd :=
         fold_left
           (λ d name,
              dict_setitem (clipPath (path_join os_path root name)) name d)
           directories acc.1 in
       let ff :=
         fold_left
           (λ d name,
              dict_setitem (clipPath (path_join os_path root name)) name d)
           files acc.2 in
       (dd, ff))
    walk (dirs_dict, files_dict).

Section Report.

Variable fs : FileSystem.
Variable os_path : OsPath.
(** [os.walk(path, topdown=True)], which swallows the errors it meets. *)
Variable os_walk : string → list (string * list string * list string).

(** [subContentsDiffDir(path)] *)
Definition subContentsDiffDir (path : string) (g : report_globals)
  : report_globals :=
  let '(dd, ff) := walk_into os_path (os_walk path) (subbedD g) (subbedF g) in
  mk_globals dd (addedD g) ff (addedF g) (subbedFiles g) (addedFiles g).

(** [addContentsDiffDir(path)] *)
Definition addContentsDiffDir (path : string) (g : report_globals)
  : report_globals :=
  let '(dd, ff) := walk_into os_path (os_walk path) (addedD g) (addedF g) in
  mk_globals (subbedD g) dd (subbedF g) ff (subbedFiles g) (addedFiles g).

(** The body of the loop of [report] over [left_only]. *)
Definition report_left_entry (left : string) (g : report_globals)
    (name : string) : report_globals :=
  let path := left +:+ "/" +:+ name in
  if os_path_isdir fs path then
    subContentsDiffDir path
      (mk_globals (dict_setitem (clipPath path) name (subbedD g)) (addedD g)
         (subbedF g) (addedF g) (subbedFiles g) (addedFiles g))
  else if os_path_isfile fs path then
    mk_globals (subbedD g) (addedD g)
      (dict_setitem (clipPath path) name (subbedF g)) (addedF g)
      (subbedFiles g ++ [name]) (addedFiles g)
  else g.

(** The body of the loop of [report] over [right_only]. *)
Definition report_right_entry (right : string) (g : report_globals)
    (name : string) : report_globals :=
  let path := right +:+ "/" +:+ name in
  if os_path_isdir fs path then
    addContentsDiffDir path
      (mk_globals (subbedD g) (dict_setitem (clipPath path) name (addedD g))
         (subbedF g) (addedF g) (subbedFiles g) (addedFiles g))
  else if os_path_isfile fs path then
    mk_globals (subbedD g) (addedD g) (subbedF g)
      (dict_setitem (clipPath path) name (addedF g))
      (subbedFiles g) (addedFiles g ++ [name])
  else g.

(** [dircmp.report()], given the values of the attributes [left_only] and
    [right_only]: the globals afterwards, and the two attributes, which
    [report] sorts in place. *)
Definition report (self : dircmp.t) (left_only right_only : list string)
    (g : report_globals) : report_globals * (list string * list string) :=
  let '(g1, left_only') :=
    match left_only with
    | [] => (g, left_only)
    | _ =>
        let sorted := list_sort left_only in
        (fold_left (report_left_entry (dircmp.left self)) sorted g, sorted)
    end in
  let '(g2, right_only') :=
    match right_only with
    | [] => (g1, right_only)
    | _ =>
        let sorted := list_sort right_only in
        (fold_left (report_right_entry (dircmp.right self)) sorted g1, sorted)
    end in
  (g2, (left_only', right_only')).

End Report.

(** No key of the dict holds a backslash. *)
Definition keys_clipped (d : pydict) : Prop :=
  ∀ k, k ∈ dict_iter d → backslash ∉ str_chars k.

Definition globals_clipped (g : report_globals) : Prop :=
  keys_clipped (subbedD g) ∧ keys_clipped (addedD g) ∧
  keys_clipped (subbedF g) ∧ keys_clipped (addedF g).

(** One line of [outReport] for the item [(key, name)] of a dict. *)
Definition report_line (mark : string) (item : string * string) : string :=
  mark +:+ item.2 +:+ addSpace item.2 +:+ item.1.

(** [dircmp.outReport(f)]: the lines printed to [f]. *)
Definition outReport (g : report_globals) : list string :=
  ["<<<Missing Directories>>>"] ++ (report_line "- " <$> subbedD g) ++ [""]
  ++ ["<<<Added Directories>>>"] ++ (report_line "+" <$> addedD g) ++ [""]
  ++ ["<<<Missing Files>>>"] ++ (report_line "- " <$> subbedF g) ++ [""]
  ++ ["<<<Added Files>>>"] ++ (report_line "+ " <$> addedF g)
  ++ [""; ""; ""].

(** A left directory whose name holds a backslash, with a regular file and
    a sub-directory that the right directory lacks, and what [os.walk]
    yields for the sub-directory. *)
Definition fs_drive : FileSystem :=
  mk_fs
    (assoc [("C:\A", directory); ("B", directory);
            ("C:\A/x.txt", reg_file 1 5); ("C:\A/sub", directory);
            ("C:\A/sub/deep", directory); ("C:\A/sub/y.txt", reg_file 1 5)])
    (assoc [("C:\A", ["x.txt"; "sub"]); ("B", []);
            ("C:\A/sub", ["deep"; "y.txt"]); ("C:\A/sub/deep", [])])
    (assoc [("C:\A/x.txt", [x61%byte]); ("C:\A/sub/y.txt", [x61%byte])]).

Definition walk_drive (path : string)
  : list (string * list string * list string) :=
  if decide (path = "C:\A/sub")
  then [("C:\A/sub", ["deep"], ["y.txt"]); ("C:\A/sub/deep", [], [])]
  else [].

Local Close Scope string_scope.

(* ===================================================================== *)
(** ** Lazy attributes: [methodmap] and [__getattr__]                     *)
(* ===================================================================== *)

Local Open Scope string_scope.

(** The value of a computed attribute: a list of names, or the dict
    [subdirs]. *)
Inductive attr_value :=
| VList (l : list string)
| VSubdirs (d : list (string * dircmp.t)).

(** What reading an attribute can raise: an exception of a phase,
    [AttributeError] for a name that [methodmap] does not have,
    [RecursionError] when the interpreter's recursion limit is reached, and
    [TypeError] for a value of the wrong kind. *)
Inductive obj_exn :=
| PhaseError (e : exn)
| AttributeError (attr : string)
| RecursionError
| TypeError.

Inductive phase_id := Phase0 | Phase1 | Phase2 | Phase3 | Phase4.

(** [dircmp.methodmap] *)
Definition methodmap : list (string * phase_id) :=
  [("subdirs", Phase4);
   ("same_files", Phase3); ("diff_files", Phase3); ("funny_files", Phase3);
   ("common_dirs", Phase2); ("common_files", Phase2); ("common_funny", Phase2);
   ("common", Phase1); ("left_only", Phase1); ("right_only", Phase1);
   ("left_list", Phase0); ("right_list", Phase0)].

(** The state of one [dircmp] object and of the module: the computed
    attributes of the object (its [__dict__] without the four that
    [__init__] sets), and the module state. *)
Record obj_state := mk_obj_state {
  obj_world : world;
  obj_dict : gmap string attr_value
}.

Definition OM (A : Type) : Type := obj_state → (A + obj_exn) * obj_state.

Definition oret {A} (a : A) : OM A := λ s, (inl a, s).
Definition oraise {A} (e : obj_exn) : OM A := λ s, (inr e, s).
Definition obind {A B} (c : OM A) (k : A → OM B) : OM B :=
  λ s, match c s with
       | (inl a, s') => k a s'
       | (inr e, s') => (inr e, s')
       end.

Notation "x <~ c ;; k" := (obind c (λ x, k))
  (at level 100, c at next level, right associativity).

(** Running code of the module inside a method. *)
Definition lift_M {A} (c : M A) : OM A :=
  λ s, match c (obj_world s) with
       | (Ok a, w) => (inl a, mk_obj_state w (obj_dict s))
       | (Raise e, w) => (inr (PhaseError e), mk_obj_state w (obj_dict s))
       end.

(** [self.name = v] *)
Definition setattr (name : string) (v : attr_value) : OM unit :=
  λ s, (inl tt, mk_obj_state (obj_world s) (<[name := v]> (obj_dict s))).

Definition as_list (v : attr_value) : OM (list string) :=
  match v with
  | VList l => oret l
  | VSubdirs _ => oraise TypeError
  end.

Section Lazy.

Variable fs : FileSystem.
Variable os_path : OsPath.
Variable self : dircmp.t.

(** The attribute reads [self.name] inside the phases go through [rd]. *)
Variable rd : string → OM attr_value.

Definition rd_list (name : string) : OM (list string) :=
  v <~ rd name ;; as_list v.

Definition obj_phase0 : OM unit :=
  l <~ lift_M (os_listdir fs (dircmp.left self)) ;;
  _ <~ setattr "left_list"
         (VList (_filter l (dircmp.hide self ++ dircmp.ignore self))) ;;
  r <~ lift_M (os_listdir fs (dircmp.right self)) ;;
  _ <~ setattr "right_list"
         (VList (_filter r (dircmp.hide self ++ dircmp.ignore self))) ;;
  ll <~ rd_list "left_list" ;;
  _ <~ setattr "left_list" (VList (list_sort ll)) ;;
  rl <~ rd_list "right_list" ;;
  setattr "right_list" (VList (list_sort rl)).

Definition obj_phase1 : OM unit :=
  ll <~ rd_list "left_list" ;;
  rl <~ rd_list "right_list" ;;
  res <~ lift_M (phase1 os_path ll rl) ;;
  let '(common, left_only, right_only) := res in
  _ <~ setattr "common" (VList common) ;;
  _ <~ setattr "left_only" (VList left_only) ;;
  setattr "right_only" (VList right_only).

Definition obj_phase2 : OM unit :=
  _ <~ setattr "common_dirs" (VList []) ;;
  _ <~ setattr "common_files" (VList []) ;;
  _ <~ setattr "common_funny" (VList []) ;;
  common <~ rd_list "common" ;;
  res <~ lift_M (phase2 fs os_path self common) ;;
  let '(common_dirs, common_files, common_funny) := res in
  _ <~ setattr "common_dirs" (VList common_dirs) ;;
  _ <~ setattr "common_files" (VList common_files) ;;
  setattr "common_funny" (VList common_funny).

Definition obj_phase3 : OM unit :=
  common_files <~ rd_list "common_files" ;;
  xx <~ lift_M (phase3 fs os_path self common_files) ;;
  let '(same_files, diff_files, funny_files) := xx in
  _ <~ setattr "same_files" (VList same_files) ;;
  _ <~ setattr "diff_files" (VList diff_files) ;;
  setattr "funny_files" (VList funny_files).

Definition obj_phase4 : OM unit :=
  _ <~ setattr "subdirs" (VSubdirs []) ;;
  common_dirs <~ rd_list "common_dirs" ;;
  setattr "subdirs" (VSubdirs (phase4 os_path self common_dirs)).

Definition run_phase (ph : phase_id) : OM unit :=
  match ph with
  | Phase0 => obj_phase0
  | Phase1 => obj_phase1
  | Phase2 => obj_phase2
  | Phase3 => obj_phase3
  | Phase4 => obj_phase4
  end.

End Lazy.

(** Reading [self.attr]: the value in the object's dict when there is one,
    else [__getattr__(attr)], which raises [AttributeError] for a name not
    in [methodmap] and otherwise runs the phase and reads again.  [depth]
    is the recursion depth still allowed. *)
Fixpoint getattr (fs : FileSystem) (os_path : OsPath) (self : dircmp.t)
    (depth : nat) (attr : string) : OM attr_value :=
  λ s,
    match obj_dict s !! attr with
    | Some v => (inl v, s)
    | None =>
        match depth with
        | O => (inr RecursionError, s)
        | S depth' =>
            match assoc methodmap attr with
            | None => (inr (AttributeError attr), s)
            | Some ph =>
                (_ <~ run_phase fs os_path self
                        (getattr fs os_path self depth') ph ;;
                 getattr fs os_path self depth' attr) s
            end
        end
    end.

(** A new object: no attribute computed yet. *)
Definition new_object (w : world) : obj_state := mk_obj_state w ∅.

(** The dict of an object whose phases 0 to 3 have run. *)
Definition dict_of_attrs (a : attrs) : gmap string attr_value :=
  <["funny_files" := VList (funny_files a)]>
  (<["diff_files" := VList (diff_files a)]>
  (<["same_files" := VList (same_files a)]>
  (<["common_funny" := VList (common_funny a)]>
  (<["common_files" := VList (common_files a)]>
  (<["common_dirs" := VList (common_dirs a)]>
  (<["right_only" := VList (right_only a)]>
  (<["left_only" := VList (left_only a)]>
  (<["common" := VList (common a)]>
  (<["right_list" := VList (right_list a)]>
  (<["left_list" := VList (left_list a)]> ∅)))))))))).

(** The object after [phase0] raised on one of the two listings: the world
    has logged the calls made, and [left_list] holds the filtered listing of
    the left directory, not yet sorted, when that one succeeded. *)
Definition after_failed_listing (fs : FileSystem) (self : dircmp.t)
    (s : obj_state) : obj_state :=
  match fs_listdir fs (dircmp.left self) with
  | None =>
      mk_obj_state (logged (obj_world s) [IoListdir (dircmp.left self)])
        (obj_dict s)
  | Some l =>
      mk_obj_state
        (logged (obj_world s)
           [IoListdir (dircmp.left self); IoListdir (dircmp.right self)])
        (<["left_list" :=
             VList (_filter l (dircmp.hide self ++ dircmp.ignore self))]>
           (obj_dict s))
  end.

(** A directory pair whose right side cannot be listed, and one whose left
    side cannot. *)
Definition no_right_side : dircmp.t := dircmp_init "A" "Z" None None.
Definition no_left_side : dircmp.t := dircmp_init "Z" "B" None None.

Local Close Scope string_scope.

(* ===================================================================== *)
(** ** The read loop                                                      *)
(* ===================================================================== *)

Lemma take_drop_eq {A} (n : nat) (l1 l2 : list A) :
  take n l1 = take n l2 → drop n l1 = drop n l2 → l1 = l2.
Proof.
  intros Ht Hd. rewrite <-(take_drop n l1), <-(take_drop n l2). congruence.
Qed.

Ltac forget_calls :=
  repeat match goal with
         | H : decide _ = _ |- _ => clear H
         | H : _ = read_loop _ _ _ |- _ => clear H
         | H : _ = stream_chunks _ _ |- _ => clear H
         end.

Lemma stream_chunks_step (bufsize : nat) (fp : list byte) :
  stream_chunks bufsize fp =
  if decide (take bufsize fp = []) then []
  else take bufsize fp :: stream_chunks bufsize (drop bufsize fp).
Proof.
  rewrite stream_chunks_equation_1.
  by destruct (decide (take bufsize fp = [])).
Qed.

Lemma read_loop_eq (bufsize : nat) (fp1 fp2 : list byte) :
  (0 < bufsize)%nat → read_loop bufsize fp1 fp2 = bool_decide (fp1 = fp2).
Proof.
  intros Hpos. funelim (read_loop bufsize fp1 fp2); forget_calls.
  - rewrite bool_decide_eq_false_2; [done|]. by intros ->.
  - rewrite bool_decide_eq_true_2; [done|].
    destruct bufsize as [|n']; [lia|].
    assert (take (S n') fp2 = []) as e2 by (apply dec_stable in n0; congruence).
    destruct fp1, fp2; done.
  - match goal with IH : _ → read_loop _ _ _ = _ |- _ => rewrite IH by done end.
    apply dec_stable in n0.
    apply bool_decide_ext. split; [|by intros ->].
    intros Hd. by apply (take_drop_eq bufsize).
Qed.

Lemma read_loop_chunks (bufsize : nat) (fp1 fp2 : list byte) :
  read_loop bufsize fp1 fp2
  = bool_decide (stream_chunks bufsize fp1 = stream_chunks bufsize fp2).
Proof.
  funelim (read_loop bufsize fp1 fp2); forget_calls;
    rewrite (stream_chunks_step bufsize fp1), (stream_chunks_step bufsize fp2).
  - rewrite bool_decide_eq_false_2; [done|].
    repeat case_decide; try done; congruence.
  - rewrite bool_decide_eq_true_2; [done|].
    apply dec_stable in n0. repeat case_decide; try done; congruence.
  - match goal with IH : read_loop _ _ _ = _ |- _ => rewrite IH end.
    apply dec_stable in n0. apply bool_decide_ext.
    repeat case_decide; try done; try congruence.
    all: split; [intros E; congruence | by intros [= _ E]].
Qed.

Lemma BUFSIZE_pos : (0 < BUFSIZE)%nat.
Proof. unfold BUFSIZE. lia. Qed.

(* ===================================================================== *)
(** ** The file comparator, case by case                                  *)
(* ===================================================================== *)

Lemma logged_logged w es1 es2 :
  logged (logged w es1) es2 = logged w (es1 ++ es2).
Proof. unfold logged. simpl. by rewrite <-app_assoc. Qed.

Lemma os_stat_run fs path w :
  os_stat fs path w =
  (match fs_stat fs path with Some st => Ok st | None => Raise OSError end,
   logged w [IoStat path]).
Proof. unfold os_stat, lift_os, bind, emit. simpl. by destruct (fs_stat _ _). Qed.

Lemma open_rb_run fs path w :
  open_rb fs path w =
  (match fs_open fs path with Some fp => Ok fp | None => Raise OSError end,
   logged w [IoOpen path]).
Proof. unfold open_rb, lift_os, bind, emit. simpl. by destruct (fs_open _ _). Qed.

Lemma os_listdir_run fs path w :
  os_listdir fs path w =
  (match fs_listdir fs path with Some l => Ok l | None => Raise OSError end,
   logged w [IoListdir path]).
Proof.
  unfold os_listdir, lift_os, bind, emit. simpl. by destruct (fs_listdir _ _).
Qed.

(** [_do_cmp] opens the first file, then the second, and compares. *)
Lemma _do_cmp_run fs f1 f2 w :
  _do_cmp fs f1 f2 w =
  match fs_open fs f1 with
  | None => (Raise OSError, logged w [IoOpen f1])
  | Some fp1 =>
      (match fs_open fs f2 with
       | None => Raise OSError
       | Some fp2 => Ok (read_loop BUFSIZE fp1 fp2)
       end, logged w [IoOpen f1; IoOpen f2])
  end.
Proof.
  unfold _do_cmp, bind. rewrite open_rb_run.
  destruct (fs_open fs f1) as [fp1|]; [|done].
  rewrite open_rb_run, logged_logged. by destruct (fs_open fs f2).
Qed.

Lemma _do_cmp_result fs f1 f2 w :
  (_do_cmp fs f1 f2 w).1 = content_equal fs f1 f2.
Proof.
  rewrite _do_cmp_run. unfold content_equal.
  by destruct (fs_open fs f1), (fs_open fs f2).
Qed.

(** Every path through [cmp], with the state it leaves behind. *)
Lemma cmp_run fs f1 f2 shallow w :
  cmp fs f1 f2 shallow w =
  match fs_stat fs f1 with
  | None => (Raise OSError, logged w [IoStat f1])
  | Some st1 =>
    match fs_stat fs f2 with
    | None => (Raise OSError, logged w [IoStat f1; IoStat f2])
    | Some st2 =>
      let s1 := _sig st1 in
      let s2 := _sig st2 in
      if bool_decide (s1.1.1 ≠ S_IFREG) || bool_decide (s2.1.1 ≠ S_IFREG)
      then (Ok false, logged w [IoStat f1; IoStat f2])
      else if shallow && bool_decide (s1 = s2)
      then (Ok true, logged w [IoStat f1; IoStat f2])
      else if bool_decide (s1.1.2 ≠ s2.1.2)
      then (Ok false, logged w [IoStat f1; IoStat f2])
      else
        match _cache w !! (f1, f2, s1, s2) with
        | Some b => (Ok b, logged w [IoStat f1; IoStat f2])
        | None =>
          match fs_open fs f1 with
          | None =>
              (Raise OSError, logged w [IoStat f1; IoStat f2; IoOpen f1])
          | Some fp1 =>
            match fs_open fs f2 with
            | None =>
                (Raise OSError,
                 logged w [IoStat f1; IoStat f2; IoOpen f1; IoOpen f2])
            | Some fp2 =>
                (Ok (read_loop BUFSIZE fp1 fp2),
                 mk_world
                   (cache_store (f1, f2, s1, s2) (read_loop BUFSIZE fp1 fp2)
                      (_cache w))
                   (io_log w ++ [IoStat f1; IoStat f2; IoOpen f1; IoOpen f2]))
            end
          end
        end
    end
  end.
Proof.
  unfold cmp, bind at 1. rewrite os_stat_run.
  destruct (fs_stat fs f1) as [st1|]; [|done].
  unfold bind at 1. rewrite os_stat_run, logged_logged.
  destruct (fs_stat fs f2) as [st2|]; [|done].
  cbv zeta.
  destruct (_ || _); [done|].
  destruct (_ && _); [done|].
  destruct (bool_decide (_ ≠ _)); [done|].
  unfold bind at 1, cache_get. cbn [_cache logged].
  destruct (_cache w !! _) as [b|]; [done|].
  unfold bind at 1. rewrite _do_cmp_run.
  destruct (fs_open fs f1) as [fp1|]; [|by rewrite logged_logged].
  rewrite logged_logged.
  destruct (fs_open fs f2) as [fp2|]; [|done].
  unfold bind, cache_len, cache_store, clear_cache, cache_setitem, ret, logged.
  cbn. by destruct (bool_decide (100 < size (_cache w))%nat).
Qed.

(** Case analysis along the paths of [cmp]: the goals that [done] leaves. *)
Ltac cmp_cases :=
  rewrite cmp_run;
  try match goal with
  | |- context [fs_stat ?fs ?f1] =>
      destruct (fs_stat fs f1) as [?st1|] eqn:?Est1; [|try done]
  end;
  try match goal with
  | |- context [match fs_stat ?fs ?f2 with _ => _ end] =>
      destruct (fs_stat fs f2) as [?st2|] eqn:?Est2; [|try done]
  end;
  cbv zeta;
  try match goal with
  | |- context [if ?c || ?d then _ else _] =>
      destruct (c || d) eqn:?Ereg; [try done|]
  end;
  try match goal with
  | |- context [if ?c && ?d then _ else _] =>
      destruct (c && d) eqn:?Eshallow; [try done|]
  end;
  try match goal with
  | |- context [if bool_decide ?P then _ else _] =>
      destruct (bool_decide P) eqn:?Esize; [try done|]
  end;
  try match goal with
  | |- context [_cache ?w !! ?k] =>
      destruct (_cache w !! k) as [?b|] eqn:?Ehit; [try done|]
  end;
  try match goal with
  | |- context [fs_open ?fs ?f1] =>
      destruct (fs_open fs f1) as [?fp1|] eqn:?Eopen1; [|try done]
  end;
  try match goal with
  | |- context [match fs_open ?fs ?f2 with _ => _ end] =>
      destruct (fs_open fs f2) as [?fp2|] eqn:?Eopen2; [|try done]
  end.

(** The comparator raises nothing but [OSError]. *)
Lemma cmp_raises fs f1 f2 shallow w e :
  (cmp fs f1 f2 shallow w).1 = Raise e → e = OSError.
Proof.
  cmp_cases; simpl; congruence.
Qed.

(** A cache without stale entries is invisible. *)
Lemma cmp_cache_ok_result fs f1 f2 shallow w :
  cache_ok fs (_cache w) →
  (cmp fs f1 f2 shallow w).1 = cmp_from_scratch fs f1 f2 shallow.
Proof.
  intros Hok. rewrite cmp_run. unfold cmp_from_scratch, content_equal.
  destruct (fs_stat fs f1) as [st1|] eqn:E1; [|done].
  destruct (fs_stat fs f2) as [st2|] eqn:E2; [|done].
  cbv zeta.
  destruct (_ || _); [done|].
  destruct (_ && _); [done|].
  destruct (bool_decide (_ ≠ _)); [done|].
  destruct (_cache w !! _) as [b|] eqn:Ec.
  - apply (Hok _ _ _ _ _ E1 E2) in Ec. unfold content_equal in Ec.
    by rewrite Ec.
  - by destruct (fs_open fs f1), (fs_open fs f2).
Qed.

Lemma cache_ok_empty fs : cache_ok fs ∅.
Proof. intros f1 f2 st1 st2 b _ _ H. by rewrite lookup_empty in H. Qed.

Lemma cache_ok_store fs c f1 f2 st1 st2 b :
  cache_ok fs c →
  fs_stat fs f1 = Some st1 → fs_stat fs f2 = Some st2 →
  content_equal fs f1 f2 = Ok b →
  cache_ok fs (cache_store (f1, f2, _sig st1, _sig st2) b c).
Proof.
  intros Hok E1 E2 Hb g1 g2 t1 t2 b' G1 G2. unfold cache_store.
  destruct (decide ((f1, f2, _sig st1, _sig st2) = (g1, g2, _sig t1, _sig t2)))
    as [Heq|Hne].
  - rewrite Heq, lookup_insert_eq. injection Heq as -> -> _ _. congruence.
  - rewrite lookup_insert_ne by done.
    case_bool_decide; [by rewrite lookup_empty|]. by apply Hok.
Qed.

Lemma cmp_cache_ok fs f1 f2 shallow w :
  cache_ok fs (_cache w) → cache_ok fs (_cache (cmp fs f1 f2 shallow w).2).
Proof.
  intros Hok. rewrite cmp_run.
  destruct (fs_stat fs f1) as [st1|] eqn:E1; [|done].
  destruct (fs_stat fs f2) as [st2|] eqn:E2; [|done].
  cbv zeta.
  destruct (_ || _); [done|].
  destruct (_ && _); [done|].
  destruct (bool_decide (_ ≠ _)); [done|].
  destruct (_cache w !! _) as [b|] eqn:Ec; [done|].
  destruct (fs_open fs f1) as [fp1|] eqn:O1; [|done].
  destruct (fs_open fs f2) as [fp2|] eqn:O2; [|done].
  cbn [snd _cache]. apply cache_ok_store; try done.
  unfold content_equal. by rewrite O1, O2.
Qed.

Lemma run_calls_cache_ok fs calls w :
  cache_ok fs (_cache w) → cache_ok fs (_cache (run_calls fs calls w)).
Proof.
  revert w. induction calls as [|c calls IH]; intros w Hok; [done|].
  apply IH. by apply cmp_cache_ok.
Qed.

Lemma cache_refl_store c f1 f2 s1 s2 fp1 fp2 :
  cache_refl c → (f1 = f2 → fp1 = fp2) →
  cache_refl (cache_store (f1, f2, s1, s2) (read_loop BUFSIZE fp1 fp2) c).
Proof.
  intros Hc Hfp f t1 t2 b. unfold cache_store.
  destruct (decide ((f1, f2, s1, s2) = (f, f, t1, t2))) as [Heq|Hne].
  - rewrite Heq, lookup_insert_eq. injection Heq as -> -> _ _.
    intros [= <-]. rewrite (Hfp eq_refl), read_loop_eq by apply BUFSIZE_pos.
    by apply bool_decide_eq_true_2.
  - rewrite lookup_insert_ne by done.
    case_bool_decide; [by rewrite lookup_empty|]. apply Hc.
Qed.

Lemma cmp_cache_refl fs f1 f2 shallow w :
  cache_refl (_cache w) → cache_refl (_cache (cmp fs f1 f2 shallow w).2).
Proof.
  intros Hc. cmp_cases. cbn [snd _cache].
  apply cache_refl_store; [done|]. intros ->. congruence.
Qed.

Lemma cache_store_size k v c :
  (size c ≤ 101 → size (cache_store k v c) ≤ 101)%nat.
Proof.
  intros Hs. unfold cache_store. case_bool_decide.
  - destruct ((∅ : gmap cache_key bool) !! k) eqn:E;
      [by rewrite lookup_empty in E|].
    rewrite map_size_insert_None, map_size_empty by done. lia.
  - destruct (c !! k) eqn:E.
    + rewrite map_size_insert_Some by done. lia.
    + rewrite map_size_insert_None by done. lia.
Qed.

Lemma cmp_cache_size fs f1 f2 shallow w :
  (size (_cache w) ≤ 101 → size (_cache (cmp fs f1 f2 shallow w).2) ≤ 101)%nat.
Proof.
  intros Hs. cmp_cases. cbn [snd _cache]. by apply cache_store_size.
Qed.



Lemma run_calls_cache_size fs calls w :
  (size (_cache w) ≤ 101 → size (_cache (run_calls fs calls w)) ≤ 101)%nat.
Proof.
  revert w. induction calls as [|c calls IH]; intros w Hs; [done|].
  apply IH. by apply cmp_cache_size.
Qed.

Lemma S_IFREG_sig st :
  S_IFMT (st_mode st) = S_IFREG →
  bool_decide ((_sig st).1.1 ≠ S_IFREG) = false.
Proof. intros H. by apply bool_decide_eq_false_2; intros []. Qed.

(* ===================================================================== *)
(** ** Claims about the file comparator                                   *)
(* ===================================================================== *)

(** C5: if either path cannot be stat'd, [cmp] raises [OSError] to its
    caller; if both can and either signature's type is not a regular file,
    [cmp] returns [False], whatever [shallow] is, after the two [stat] calls
    only. *)
Theorem C5_non_regular_never_equal fs f1 f2 shallow w :
  (fs_stat fs f1 = None ∨ fs_stat fs f2 = None →
   (cmp fs f1 f2 shallow w).1 = Raise OSError) ∧
  (∀ st1 st2,
     fs_stat fs f1 = Some st1 → fs_stat fs f2 = Some st2 →
     (_sig st1).1.1 ≠ S_IFREG ∨ (_sig st2).1.1 ≠ S_IFREG →
     cmp fs f1 f2 shallow w = (Ok false, logged w [IoStat f1; IoStat f2])).
Proof.
  split.
  - intros H. rewrite cmp_run.
    destruct (fs_stat fs f1); [|done].
    destruct H as [H|H]; [done|]. by rewrite H.
  - intros st1 st2 E1 E2 H. rewrite cmp_run, E1, E2. cbv zeta.
    destruct H as [H|H].
    + by rewrite (bool_decide_eq_true_2 _ H).
    + rewrite (bool_decide_eq_true_2 _ H). by rewrite orb_true_r.
Qed.

Lemma C5_witness :
  (cmp fs_mixed "A/gone" "B/gone" false initial_world).1 = Raise OSError ∧
  cmp fs_mixed "A/n" "B/n" true initial_world
  = (Ok false, logged initial_world [IoStat "A/n"; IoStat "B/n"]).
Proof.
  split.
  - apply (proj1 (C5_non_regular_never_equal
                    fs_mixed "A/gone" "B/gone" false initial_world)).
    right. reflexivity.
  - apply (proj2 (C5_non_regular_never_equal
                    fs_mixed "A/n" "B/n" true initial_world)
             (reg_file 1 5) directory); [reflexivity|reflexivity|].
    right. vm_compute. discriminate.
Defined.

(** C4: with [shallow] true, two regular files with identical signatures
    compare equal after the two [stat] calls alone: nothing is opened and
    the cache is not touched.  This holds when the contents differ, and the
    same pair then compares unequal with [shallow] false. *)
Theorem C4_shallow_signature_match fs f1 f2 w st1 st2 :
  fs_stat fs f1 = Some st1 → fs_stat fs f2 = Some st2 →
  (_sig st1).1.1 = S_IFREG → (_sig st2).1.1 = S_IFREG →
  _sig st1 = _sig st2 →
  cmp fs f1 f2 true w = (Ok true, logged w [IoStat f1; IoStat f2]) ∧
  ∃ fs' g1 g2 fp1 fp2,
    fs_open fs' g1 = Some fp1 ∧ fs_open fs' g2 = Some fp2 ∧ fp1 ≠ fp2 ∧
    (cmp fs' g1 g2 true initial_world).1 = Ok true ∧
    (cmp fs' g1 g2 false initial_world).1 = Ok false.
Proof.
  intros E1 E2 R1 R2 Hsig. split.
  - rewrite cmp_run, E1, E2. cbv zeta.
    rewrite !bool_decide_eq_false_2 by (by intros []).
    by rewrite (bool_decide_eq_true_2 _ Hsig).
  - exists fs_differ, "A/x.txt"%string, "B/x.txt"%string,
      [x61%byte], [x62%byte].
    by vm_compute.
Qed.

Lemma C4_witness :
  cmp fs_differ "A/x.txt" "B/x.txt" true initial_world
  = (Ok true, logged initial_world [IoStat "A/x.txt"; IoStat "B/x.txt"]).
Proof.
  apply (C4_shallow_signature_match fs_differ "A/x.txt" "B/x.txt"
           initial_world (reg_file 1 5) (reg_file 1 5));
    reflexivity.
Defined.

(** C3 (as the code has it): two regular files compared with [shallow]
    false.  If the sizes in the signatures differ, [cmp] returns [False]
    after the two [stat] calls, opening nothing.  Otherwise, on a cache miss,
    or whenever the cache holds no stale entry, [cmp] returns [True] exactly
    when the two byte streams, read in chunks of [BUFSIZE] = 8 KiB, are
    equal chunk for chunk, which is when the contents are equal; on a cache
    hit the stored boolean is returned and nothing is opened. *)
Theorem C3_deep_compare fs f1 f2 w st1 st2 :
  fs_stat fs f1 = Some st1 → fs_stat fs f2 = Some st2 →
  (_sig st1).1.1 = S_IFREG → (_sig st2).1.1 = S_IFREG →
  BUFSIZE = (8 * 1024)%nat ∧
  ((_sig st1).1.2 ≠ (_sig st2).1.2 →
   cmp fs f1 f2 false w = (Ok false, logged w [IoStat f1; IoStat f2])) ∧
  ((_sig st1).1.2 = (_sig st2).1.2 →
   ∀ fp1 fp2,
     fs_open fs f1 = Some fp1 → fs_open fs f2 = Some fp2 →
     _cache w !! (f1, f2, _sig st1, _sig st2) = None ∨ cache_ok fs (_cache w) →
     (cmp fs f1 f2 false w).1
     = Ok (bool_decide (stream_chunks BUFSIZE fp1 = stream_chunks BUFSIZE fp2))
     ∧ (stream_chunks BUFSIZE fp1 = stream_chunks BUFSIZE fp2 ↔ fp1 = fp2)) ∧
  ((_sig st1).1.2 = (_sig st2).1.2 →
   ∀ b, _cache w !! (f1, f2, _sig st1, _sig st2) = Some b →
     cmp fs f1 f2 false w = (Ok b, logged w [IoStat f1; IoStat f2])).
Proof.
  intros E1 E2 R1 R2. split; [done|].
  assert (bool_decide ((_sig st1).1.1 ≠ S_IFREG)
          || bool_decide ((_sig st2).1.1 ≠ S_IFREG) = false) as Hreg.
  { by rewrite !bool_decide_eq_false_2 by (by intros []). }
  split; [|split].
  - intros Hsize. rewrite cmp_run, E1, E2. cbv zeta. rewrite Hreg.
    cbn [andb]. by rewrite (bool_decide_eq_true_2 _ Hsize).
  - intros Hsize fp1 fp2 O1 O2 Hcache.
    assert (bool_decide (stream_chunks BUFSIZE fp1 = stream_chunks BUFSIZE fp2)
            = bool_decide (fp1 = fp2)) as Hchunks.
    { rewrite <-read_loop_chunks. apply read_loop_eq, BUFSIZE_pos. }
    split.
    2:{ rewrite <-(bool_decide_eq_true (fp1 = fp2)), <-Hchunks.
        by rewrite bool_decide_eq_true. }
    rewrite <-read_loop_chunks.
    destruct Hcache as [Hmiss|Hok].
    + rewrite cmp_run, E1, E2. cbv zeta. rewrite Hreg. cbn [andb].
      rewrite bool_decide_eq_false_2 by (by intros []).
      by rewrite Hmiss, O1, O2.
    + rewrite cmp_cache_ok_result by done.
      unfold cmp_from_scratch, content_equal. rewrite E1, E2. cbv zeta.
      rewrite Hreg. cbn [andb].
      rewrite bool_decide_eq_false_2 by (by intros []).
      by rewrite O1, O2.
  - intros Hsize b Hhit. rewrite cmp_run, E1, E2. cbv zeta. rewrite Hreg.
    cbn [andb]. rewrite bool_decide_eq_false_2 by (by intros []).
    by rewrite Hhit.
Qed.

Lemma C3_witness :
  (cmp fs_differ "A/x.txt" "B/x.txt" false initial_world).1
  = Ok (bool_decide (stream_chunks BUFSIZE [x61%byte]
                     = stream_chunks BUFSIZE [x62%byte])) ∧
  (stream_chunks BUFSIZE [x61%byte] = stream_chunks BUFSIZE [x62%byte]
   ↔ [x61%byte] = [x62%byte]).
Proof.
  apply (C3_deep_compare fs_differ "A/x.txt" "B/x.txt" initial_world
           (reg_file 1 5) (reg_file 1 5));
    [reflexivity|reflexivity|reflexivity|reflexivity|reflexivity
    |reflexivity|reflexivity|left; reflexivity].
Defined.

(** C3 as stated fails: after one comparison of two equal files, the second
    file's content changes while its size and modification time do not; the
    next deep comparison is served from the cache and returns [True] for
    contents that differ. *)
Lemma C3_stale_cache_counterexample :
  let w1 := (cmp fs_before "A/x.txt" "B/x.txt" false initial_world).2 in
  fs_stat fs_differ "A/x.txt" = Some (reg_file 1 5) ∧
  fs_stat fs_differ "B/x.txt" = Some (reg_file 1 5) ∧
  (_sig (reg_file 1 5)).1.1 = S_IFREG ∧
  fs_open fs_differ "A/x.txt" = Some [x61%byte] ∧
  fs_open fs_differ "B/x.txt" = Some [x62%byte] ∧
  (cmp fs_differ "A/x.txt" "B/x.txt" false w1).1 = Ok true ∧
  ¬ ((cmp fs_differ "A/x.txt" "B/x.txt" false w1).1 = Ok true
     ↔ stream_chunks BUFSIZE [x61%byte] = stream_chunks BUFSIZE [x62%byte]).
Proof.
  repeat split; try by vm_compute.
  intros [H _]. specialize (H ltac:(by vm_compute)).
  vm_compute in H. discriminate.
Qed.

(** C6 (as the code has it): on a miss followed by a full comparison, the
    cache is first emptied if it already holds more than 100 entries, and
    the result is then stored, so the new entry always survives the call.
    The cache never holds more than 101 entries, after any call and after
    any history of calls from the empty cache. *)
Theorem C6_reset_then_store fs f1 f2 shallow w st1 st2 fp1 fp2 :
  fs_stat fs f1 = Some st1 → fs_stat fs f2 = Some st2 →
  (_sig st1).1.1 = S_IFREG → (_sig st2).1.1 = S_IFREG →
  shallow && bool_decide (_sig st1 = _sig st2) = false →
  (_sig st1).1.2 = (_sig st2).1.2 →
  _cache w !! (f1, f2, _sig st1, _sig st2) = None →
  fs_open fs f1 = Some fp1 → fs_open fs f2 = Some fp2 →
  (cmp fs f1 f2 shallow w).1 = Ok (read_loop BUFSIZE fp1 fp2) ∧
  _cache (cmp fs f1 f2 shallow w).2
  = <[(f1, f2, _sig st1, _sig st2) := read_loop BUFSIZE fp1 fp2]>
      (if bool_decide (100 < size (_cache w))%nat then ∅ else _cache w) ∧
  _cache (cmp fs f1 f2 shallow w).2 !! (f1, f2, _sig st1, _sig st2)
  = Some (read_loop BUFSIZE fp1 fp2) ∧
  (∀ g1 g2 sh w',
     (size (_cache w') ≤ 101)%nat →
     (size (_cache (cmp fs g1 g2 sh w').2) ≤ 101)%nat) ∧
  (∀ calls, (size (_cache (run_calls fs calls initial_world)) ≤ 101)%nat).
Proof.
  intros E1 E2 R1 R2 Hsh Hsize Hmiss O1 O2.
  assert (cmp fs f1 f2 shallow w =
          (Ok (read_loop BUFSIZE fp1 fp2),
           mk_world
             (cache_store (f1, f2, _sig st1, _sig st2)
                (read_loop BUFSIZE fp1 fp2) (_cache w))
             (io_log w ++ [IoStat f1; IoStat f2; IoOpen f1; IoOpen f2])))
    as ->.
  { rewrite cmp_run, E1, E2. cbv zeta.
    rewrite !(bool_decide_eq_false_2 (_ ≠ _)) by (by intros []).
    cbn [orb]. by rewrite Hsh, Hmiss, O1, O2. }
  cbn [fst snd _cache]. unfold cache_store.
  split; [done|]. split; [done|]. split; [apply lookup_insert_eq|].
  split.
  - intros g1 g2 sh w'. apply cmp_cache_size.
  - intros calls. apply run_calls_cache_size.
    cbn. rewrite map_size_empty. lia.
Qed.

Lemma C6_witness :
  (cmp fs_differ "A/x.txt" "B/x.txt" false initial_world).1
  = Ok (read_loop BUFSIZE [x61%byte] [x62%byte]) ∧
  _cache (cmp fs_differ "A/x.txt" "B/x.txt" false initial_world).2
  !! ("A/x.txt"%string, "B/x.txt"%string,
      _sig (reg_file 1 5), _sig (reg_file 1 5))
  = Some (read_loop BUFSIZE [x61%byte] [x62%byte]).
Proof.
  destruct (C6_reset_then_store fs_differ "A/x.txt" "B/x.txt" false
              initial_world (reg_file 1 5) (reg_file 1 5)
              [x61%byte] [x62%byte])
    as (H1 & _ & H3 & _); try reflexivity.
  split; assumption.
Defined.

(** C6 as stated fails on the order of the two steps.  With 100 entries in
    the cache a miss leaves 101 entries behind, more than 100 and not
    dropped; with 101 entries the cache is emptied before the store, so the
    new result is kept, where storing first and dropping afterwards would
    leave the cache empty both times. *)
Lemma C6_store_order_counterexample :
  let w100 := run_calls fs_uniform (distinct_calls 100) initial_world in
  let w101 := run_calls fs_uniform (distinct_calls 101) initial_world in
  let k := ("z"%string, "z"%string, _sig (reg_file 0 0), _sig (reg_file 0 0)) in
  size (_cache w100) = 100%nat ∧ _cache w100 !! k = None ∧
  size (_cache (cmp fs_uniform "z" "z" false w100).2) = 101%nat ∧
  size (store_then_drop_spec k true (_cache w100)) = 0%nat ∧
  _cache (cmp fs_uniform "z" "z" false w100).2
  ≠ store_then_drop_spec k true (_cache w100) ∧
  size (_cache w101) = 101%nat ∧ _cache w101 !! k = None ∧
  size (_cache (cmp fs_uniform "z" "z" false w101).2) = 1%nat ∧
  _cache (cmp fs_uniform "z" "z" false w101).2 !! k = Some true ∧
  size (store_then_drop_spec k true (_cache w101)) = 0%nat ∧
  _cache (cmp fs_uniform "z" "z" false w101).2
  ≠ store_then_drop_spec k true (_cache w101).
Proof.
  cbv zeta.
  assert (∀ c1 c2 : gmap cache_key bool, size c1 ≠ size c2 → c1 ≠ c2) as Hne.
  { intros c1 c2 H ->. by apply H. }
  split_and!;
    lazymatch goal with
    | |- _ ≠ _ => apply Hne; vm_compute; discriminate
    | |- _ => vm_compute; reflexivity
    end.
Qed.




(** A history in which the reset happens: the 102nd distinct comparison
    finds 101 entries, empties the cache and stores its own result. *)
Example cache_reset_happens :
  size (_cache (run_calls fs_uniform (distinct_calls 101) initial_world))
  = 101%nat ∧
  size (_cache (run_calls fs_uniform (distinct_calls 102) initial_world))
  = 1%nat.
Proof. split; vm_compute; reflexivity. Qed.

(* ===================================================================== *)
(** ** The batch comparator                                               *)
(* ===================================================================== *)

Lemma _cmp_run fs a b sh w :
  _cmp fs a b sh w = (Ok (bucket_of (cmp fs a b sh w).1), (cmp fs a b sh w).2).
Proof.
  unfold _cmp, try_except_OSError, bind, ret.
  pose proof (cmp_raises fs a b sh w) as Hraise.
  destruct (cmp fs a b sh w) as [[r|e] w']; [done|].
  by rewrite (Hraise e eq_refl).
Qed.

Lemma bucket_of_cases r :
  bucket_of r = match r with
                | Ok true => 0%nat
                | Ok false => 1%nat
                | Raise _ => 2%nat
                end.
Proof. by destruct r as [[]|]. Qed.

(** The loop of [cmpfiles] from arbitrary lists. *)
Lemma cmpfiles_loop fs os_path a b sh names r0 r1 r2 w :
  for_each
    (λ x res,
       i <- _cmp fs (path_join os_path a x) (path_join os_path b x) sh ;;
       lift_result (tuple3_append i x res))
    names (r0, r1, r2) w
  = (Ok (r0 ++ (compare_many_spec fs os_path a b names sh w).1.1.1,
         r1 ++ (compare_many_spec fs os_path a b names sh w).1.1.2,
         r2 ++ (compare_many_spec fs os_path a b names sh w).1.2),
     (compare_many_spec fs os_path a b names sh w).2).
Proof.
  revert r0 r1 r2 w.
  induction names as [|x names IH]; intros r0 r1 r2 w.
  - cbn. by rewrite !app_nil_r.
  - cbn [for_each compare_many_spec]. unfold bind at 1. unfold bind at 1.
    rewrite _cmp_run, bucket_of_cases.
    destruct (cmp fs (path_join os_path a x) (path_join os_path b x) sh w)
      as [r w1].
    cbn [fst snd].
    destruct (compare_many_spec fs os_path a b names sh w1)
      as [[[s d] f] w2] eqn:Hrest.
    destruct r as [[]|e]; cbn [lift_result tuple3_append];
      rewrite IH, Hrest; cbn [fst snd]; by rewrite <-?app_assoc.
Qed.

Lemma cmpfiles_run fs os_path a b names sh w :
  cmpfiles fs os_path a b names sh w
  = (Ok (compare_many_spec fs os_path a b names sh w).1,
     (compare_many_spec fs os_path a b names sh w).2).
Proof.
  unfold cmpfiles. rewrite cmpfiles_loop. cbn [app].
  by destruct (compare_many_spec fs os_path a b names sh w) as [[[s d] f] w'].
Qed.

Lemma compare_many_spec_sublist fs os_path a b names sh w :
  sublist (compare_many_spec fs os_path a b names sh w).1.1.1 names ∧
  sublist (compare_many_spec fs os_path a b names sh w).1.1.2 names ∧
  sublist (compare_many_spec fs os_path a b names sh w).1.2 names.
Proof.
  revert w. induction names as [|x names IH]; intros w; [done|].
  cbn [compare_many_spec].
  destruct (cmp fs (path_join os_path a x) (path_join os_path b x) sh w)
    as [r w1].
  specialize (IH w1).
  destruct (compare_many_spec fs os_path a b names sh w1) as [[[s d] f] w2].
  cbn [fst snd] in IH. destruct IH as (Hs & Hd & Hf).
  destruct r as [[]|e]; cbn [fst snd];
    split_and!; by (apply sublist_skip || apply sublist_cons).
Qed.

Lemma compare_many_spec_perm fs os_path a b names sh w :
  (compare_many_spec fs os_path a b names sh w).1.1.1
  ++ (compare_many_spec fs os_path a b names sh w).1.1.2
  ++ (compare_many_spec fs os_path a b names sh w).1.2 ≡ₚ names.
Proof.
  revert w. induction names as [|x names IH]; intros w; [done|].
  cbn [compare_many_spec].
  destruct (cmp fs (path_join os_path a x) (path_join os_path b x) sh w)
    as [r w1].
  specialize (IH w1).
  destruct (compare_many_spec fs os_path a b names sh w1) as [[[s d] f] w2].
  cbn [fst snd] in IH.
  destruct r as [[]|e]; cbn [fst snd app]; rewrite <-IH.
  - done.
  - by rewrite <-Permutation_middle.
  - by rewrite app_assoc, <-Permutation_middle, <-app_assoc.
Qed.

(** C7: for names whose joined paths [os.stat] and [open] take as paths,
    as the names of files found in the two directories are, [cmpfiles] never
    raises; each name goes to the first, second or third list as the
    comparator, called on the two joined paths in the state the earlier
    names left behind, returns [True], returns [False] or raises; each list
    keeps the order of [names], and together the three lists hold every
    name of [names] exactly as often as [names] does. *)
Theorem C7_cmpfiles_partition fs os_path a b names shallow w :
  (∀ x, x ∈ names →
        is_path (path_join os_path a x) ∧ is_path (path_join os_path b x)) →
  ∃ same diff funny w',
    compare_many_spec fs os_path a b names shallow w
    = ((same, diff, funny), w') ∧
    cmpfiles fs os_path a b names shallow w = (Ok (same, diff, funny), w') ∧
    sublist same names ∧ sublist diff names ∧ sublist funny names ∧
    same ++ diff ++ funny ≡ₚ names.
Proof.
  intros _.
  pose proof (cmpfiles_run fs os_path a b names shallow w) as Hrun.
  pose proof (compare_many_spec_sublist fs os_path a b names shallow w) as Hsub.
  pose proof (compare_many_spec_perm fs os_path a b names shallow w) as Hperm.
  destruct (compare_many_spec fs os_path a b names shallow w)
    as [[[s d] f] w'].
  exists s, d, f, w'. cbn [fst snd] in *. by destruct Hsub as (? & ? & ?).
Qed.

Lemma C7_witness :
  ∃ same diff funny w',
    compare_many_spec fs_mixed posix "A" "B" ["gone"; "f"; "n"]%string false
      initial_world
    = ((same, diff, funny), w') ∧
    cmpfiles fs_mixed posix "A" "B" ["gone"; "f"; "n"]%string false
      initial_world
    = (Ok (same, diff, funny), w') ∧
    sublist same ["gone"; "f"; "n"]%string ∧
    sublist diff ["gone"; "f"; "n"]%string ∧
    sublist funny ["gone"; "f"; "n"]%string ∧
    same ++ diff ++ funny ≡ₚ ["gone"; "f"; "n"]%string.
Proof.
  apply (C7_cmpfiles_partition fs_mixed posix "A" "B"
           ["gone"; "f"; "n"]%string false initial_world).
  intros x Hx.
  repeat (apply elem_of_cons in Hx as [-> | Hx];
          [split; vm_compute; reflexivity|]).
  by apply elem_of_nil in Hx.
Defined.

(* ===================================================================== *)
(** ** Python dictionaries                                                *)
(* ===================================================================== *)

Lemma dict_setitem_keys k v d k' :
  k' ∈ dict_iter (dict_setitem k v d) ↔ k' = k ∨ k' ∈ dict_iter d.
Proof.
  unfold dict_iter. induction d as [|[k0 v0] d IH]; cbn.
  - rewrite list_elem_of_singleton. set_solver.
  - case_decide; subst; cbn; set_solver.
Qed.

Lemma dict_setitem_items k v d k' v' :
  (k', v') ∈ dict_setitem k v d → (k', v') = (k, v) ∨ (k', v') ∈ d.
Proof.
  induction d as [|[k0 v0] d IH]; cbn.
  - rewrite list_elem_of_singleton. auto.
  - case_decide; subst; set_solver.
Qed.

Lemma dict_of_keys_from pairs d0 k :
  k ∈ dict_iter (fold_left (λ d kv, dict_setitem kv.1 kv.2 d) pairs d0)
  ↔ k ∈ pairs.*1 ∨ k ∈ dict_iter d0.
Proof.
  revert d0. induction pairs as [|[k1 v1] pairs IH]; intros d0; cbn.
  - set_solver.
  - rewrite IH, dict_setitem_keys. set_solver.
Qed.

Lemma dict_of_items_from pairs d0 k v :
  (k, v) ∈ fold_left (λ d kv, dict_setitem kv.1 kv.2 d) pairs d0 →
  (k, v) ∈ pairs ∨ (k, v) ∈ d0.
Proof.
  revert d0. induction pairs as [|[k1 v1] pairs IH]; intros d0; cbn.
  - auto.
  - intros H. apply IH in H as [H|H]; [set_solver|].
    apply dict_setitem_items in H. set_solver.
Qed.

Lemma dict_getitem_item d k v : dict_getitem d k = Ok v → (k, v) ∈ d.
Proof.
  induction d as [|[k0 v0] d IH]; cbn; [done|].
  case_decide; subst.
  - intros [= ->]. set_solver.
  - set_solver.
Qed.

Lemma dict_getitem_key d k :
  k ∈ dict_iter d → ∃ v, dict_getitem d k = Ok v.
Proof.
  unfold dict_iter. induction d as [|[k0 v0] d IH]; cbn.
  - by intros ?%elem_of_nil.
  - case_decide; subst; [eauto|]. set_solver.
Qed.

Lemma zip_fmap_items (f : string → string) (l : list string) k v :
  (k, v) ∈ zip (f <$> l) l → k = f v ∧ v ∈ l.
Proof. induction l as [|x l IH]; cbn; set_solver. Qed.

(** The dictionary [dict(zip(map(f, l), l))]. *)
Lemma dict_of_zip_keys (f : string → string) (l : list string) k :
  k ∈ dict_iter (dict_of (zip (f <$> l) l)) ↔ k ∈ f <$> l.
Proof.
  unfold dict_of. rewrite dict_of_keys_from.
  rewrite fst_zip by (by rewrite length_fmap). set_solver.
Qed.

Lemma dict_of_zip_getitem (f : string → string) (l : list string) k v :
  dict_getitem (dict_of (zip (f <$> l) l)) k = Ok v → k = f v ∧ v ∈ l.
Proof.
  intros H%dict_getitem_item. unfold dict_of in H.
  apply dict_of_items_from in H as [H|H]; [|set_solver].
  by apply zip_fmap_items.
Qed.

Lemma list_map_getitem d ks :
  (∀ k, k ∈ ks → k ∈ dict_iter d) →
  ∃ vs, list_map (dict_getitem d) ks = Ok vs ∧
        ∀ v, v ∈ vs ↔ ∃ k, k ∈ ks ∧ dict_getitem d k = Ok v.
Proof.
  induction ks as [|k ks IH]; intros Hks; cbn.
  - exists []. set_solver.
  - destruct (dict_getitem_key d k) as [v Hv]; [set_solver|].
    destruct IH as (vs & Hvs & Hmem); [set_solver|].
    rewrite Hv, Hvs. exists (v :: vs). split; [done|].
    intros v'. rewrite elem_of_cons, Hmem. split.
    + intros [->|(k' & ? & ?)]; [exists k|exists k']; set_solver.
    + intros (k' & [->|?]%elem_of_cons & Hk'); [left; congruence|].
      right. by exists k'.
Qed.

Lemma filter_none {A} (P : A → Prop) `{∀ x, Decision (P x)} (l : list A) :
  (∀ x, x ∈ l → ¬ P x) → filter P l = [].
Proof.
  induction l as [|x l IH]; intros Hl; [done|].
  rewrite filter_cons_False by (apply Hl; set_solver).
  apply IH. set_solver.
Qed.

(* ===================================================================== *)
(** ** The phases of the classifier                                       *)
(* ===================================================================== *)

Lemma phase0_run fs self w :
  phase0 fs self w =
  match fs_listdir fs (dircmp.left self) with
  | None => (Raise OSError, logged w [IoListdir (dircmp.left self)])
  | Some l =>
    match fs_listdir fs (dircmp.right self) with
    | None =>
        (Raise OSError,
         logged w [IoListdir (dircmp.left self); IoListdir (dircmp.right self)])
    | Some r =>
        (Ok (list_sort (_filter l (dircmp.hide self ++ dircmp.ignore self)),
             list_sort (_filter r (dircmp.hide self ++ dircmp.ignore self))),
         logged w [IoListdir (dircmp.left self); IoListdir (dircmp.right self)])
    end
  end.
Proof.
  unfold phase0, bind at 1. rewrite os_listdir_run.
  destruct (fs_listdir fs (dircmp.left self)) as [l|]; [|done].
  unfold bind. rewrite os_listdir_run, logged_logged.
  by destruct (fs_listdir fs (dircmp.right self)).
Qed.

Lemma list_sort_elem_of l x : x ∈ list_sort l ↔ x ∈ l.
Proof. unfold list_sort. by rewrite merge_sort_Permutation. Qed.

(** [phase1] never raises and leaves the state alone; its three lists are
    described key by key, a key being a case-normalized name. *)
Lemma phase1_spec os_path ll rl w :
  let f := normcase os_path in
  ∃ c lo ro,
    phase1 os_path ll rl w = (Ok (c, lo, ro), w) ∧
    (∀ x, x ∈ c → x ∈ ll ∧ f x ∈ f <$> rl) ∧
    (∀ x, x ∈ lo → x ∈ ll ∧ f x ∉ f <$> rl) ∧
    (∀ x, x ∈ ro → x ∈ rl ∧ f x ∉ f <$> ll) ∧
    (∀ k, k ∈ f <$> ll → k ∈ f <$> rl → k ∈ f <$> c) ∧
    (∀ k, k ∈ f <$> ll → k ∉ f <$> rl → k ∈ f <$> lo) ∧
    (∀ k, k ∈ f <$> rl → k ∉ f <$> ll → k ∈ f <$> ro).
Proof.
  cbv zeta. unfold phase1. cbv zeta.
  set (f := normcase os_path).
  set (a := dict_of (zip (f <$> ll) ll)).
  set (b := dict_of (zip (f <$> rl) rl)).
  destruct (list_map_getitem a (filter (dict_contains b) (dict_iter a)))
    as (c & Hc & Hcm); [by intros k [_ ?]%list_elem_of_filter|].
  destruct (list_map_getitem a
              (filter (λ k, ¬ dict_contains b k) (dict_iter a)))
    as (lo & Hlo & Hlom); [by intros k [_ ?]%list_elem_of_filter|].
  destruct (list_map_getitem b
              (filter (λ k, ¬ dict_contains a k) (dict_iter b)))
    as (ro & Hro & Hrom); [by intros k [_ ?]%list_elem_of_filter|].
  exists c, lo, ro. unfold bind, lift_result, ret. rewrite Hc, Hlo, Hro.
  split; [done|].
  assert (∀ k, dict_contains a k ↔ k ∈ f <$> ll) as Ha
    by (intros k; apply dict_of_zip_keys).
  assert (∀ k, dict_contains b k ↔ k ∈ f <$> rl) as Hb
    by (intros k; apply dict_of_zip_keys).
  split_and!.
  - intros x (k & [Hkb Hka]%list_elem_of_filter & Hg)%Hcm.
    apply dict_of_zip_getitem in Hg as [-> ?]. split; [done|]. by apply Hb.
  - intros x (k & [Hkb Hka]%list_elem_of_filter & Hg)%Hlom.
    apply dict_of_zip_getitem in Hg as [-> ?]. split; [done|].
    by rewrite <-Hb.
  - intros x (k & [Hka Hkb]%list_elem_of_filter & Hg)%Hrom.
    apply dict_of_zip_getitem in Hg as [-> ?]. split; [done|].
    by rewrite <-Ha.
  - intros k Hl%Ha Hr%Hb.
    destruct (dict_getitem_key a k Hl) as [v Hv].
    pose proof (dict_of_zip_getitem _ _ _ _ Hv) as [-> _].
    apply list_elem_of_fmap_2, Hcm. exists (f v).
    by rewrite list_elem_of_filter.
  - intros k Hl%Ha Hr. rewrite <-Hb in Hr.
    destruct (dict_getitem_key a k Hl) as [v Hv].
    pose proof (dict_of_zip_getitem _ _ _ _ Hv) as [-> _].
    apply list_elem_of_fmap_2, Hlom. exists (f v).
    by rewrite list_elem_of_filter.
  - intros k Hr%Hb Hl. rewrite <-Ha in Hl.
    destruct (dict_getitem_key b k Hr) as [v Hv].
    pose proof (dict_of_zip_getitem _ _ _ _ Hv) as [-> _].
    apply list_elem_of_fmap_2, Hrom. exists (f v).
    by rewrite list_elem_of_filter.
Qed.

(** With the same listing on both sides nothing is only on one side. *)
Lemma phase1_same_listing os_path ll w :
  ∃ c, phase1 os_path ll ll w = (Ok (c, [], []), w) ∧ ∀ x, x ∈ c → x ∈ ll.
Proof.
  destruct (phase1_spec os_path ll ll w) as (c & lo & ro & Hrun & Hc & _).
  exists c. split; [|by intros x [? _]%Hc].
  revert Hrun. unfold phase1. cbv zeta.
  set (a := dict_of (zip (normcase os_path <$> ll) ll)).
  rewrite (filter_none (λ k, ¬ dict_contains a k) (dict_iter a))
    by (intros k Hk Hn; by apply Hn).
  unfold bind, lift_result, ret. cbn [list_map].
  destruct (list_map _ _); [|done]. by intros [= ->].
Qed.

Lemma S_IFMT_idemp mode : S_IFMT (S_IFMT mode) = S_IFMT mode.
Proof. unfold S_IFMT. by rewrite <-Z.land_assoc, Z.land_diag. Qed.

Lemma try_stat_run fs path w :
  try_stat fs path w = (Ok (fs_stat fs path), logged w [IoStat path]).
Proof.
  unfold try_stat, try_except_OSError, bind, ret. rewrite os_stat_run.
  by destruct (fs_stat fs path).
Qed.

Lemma phase2_body_run fs os_path self x d f y w :
  phase2_body fs os_path self x (d, f, y) w =
  (Ok (match kind_of fs os_path self x with
       | KDir => (d ++ [x], f, y)
       | KFile => (d, f ++ [x], y)
       | KFunny => (d, f, y ++ [x])
       end),
   logged w [IoStat (path_join os_path (dircmp.left self) x);
             IoStat (path_join os_path (dircmp.right self) x)]).
Proof.
  unfold phase2_body, kind_of, bind at 1. rewrite try_stat_run.
  unfold bind. rewrite try_stat_run, logged_logged. cbn [app].
  destruct (fs_stat fs (path_join os_path (dircmp.left self) x)) as [sa|];
    [|done].
  destruct (fs_stat fs (path_join os_path (dircmp.right self) x)) as [sb|];
    [|done].
  unfold S_ISDIR, S_ISREG. rewrite !S_IFMT_idemp.
  by repeat case_bool_decide.
Qed.

Lemma phase2_loop fs os_path self common d f y w :
  for_each (phase2_body fs os_path self) common (d, f, y) w =
  (Ok (d ++ filter (λ x, kind_of fs os_path self x = KDir) common,
       f ++ filter (λ x, kind_of fs os_path self x = KFile) common,
       y ++ filter (λ x, kind_of fs os_path self x = KFunny) common),
   logged w (phase2_log os_path self common)).
Proof.
  revert d f y w. induction common as [|x common IH]; intros d f y w.
  - cbn. unfold ret, logged. rewrite !app_nil_r. by destruct w.
  - cbn [for_each]. unfold bind. rewrite phase2_body_run.
    rewrite !filter_cons.
    destruct (kind_of fs os_path self x) eqn:Hk; rewrite IH, logged_logged;
      repeat case_decide; try done; by rewrite <-?app_assoc.
Qed.

Lemma phase2_run fs os_path self common w :
  phase2 fs os_path self common w =
  (Ok (filter (λ x, kind_of fs os_path self x = KDir) common,
       filter (λ x, kind_of fs os_path self x = KFile) common,
       filter (λ x, kind_of fs os_path self x = KFunny) common),
   logged w (phase2_log os_path self common)).
Proof. unfold phase2. by rewrite phase2_loop. Qed.

(** What a successful run of the classifier went through. *)
Lemma classify_inv fs os_path self w at' w' :
  classify fs os_path self w = (Ok at', w') →
  ∃ l r,
    fs_listdir fs (dircmp.left self) = Some l ∧
    fs_listdir fs (dircmp.right self) = Some r ∧
    left_list at'
    = list_sort (_filter l (dircmp.hide self ++ dircmp.ignore self)) ∧
    right_list at'
    = list_sort (_filter r (dircmp.hide self ++ dircmp.ignore self)) ∧
    (∀ w0, phase1 os_path (left_list at') (right_list at') w0
           = (Ok (common at', left_only at', right_only at'), w0)) ∧
    common_dirs at'
    = filter (λ x, kind_of fs os_path self x = KDir) (common at') ∧
    common_files at'
    = filter (λ x, kind_of fs os_path self x = KFile) (common at') ∧
    common_funny at'
    = filter (λ x, kind_of fs os_path self x = KFunny) (common at') ∧
    ∃ w2, _cache w2 = _cache w ∧
      cmpfiles fs os_path (dircmp.left self) (dircmp.right self)
        (common_files at') false w2
      = (Ok (same_files at', diff_files at', funny_files at'), w').
Proof.
  unfold classify, bind at 1. rewrite phase0_run.
  destruct (fs_listdir fs (dircmp.left self)) as [l|]; [|done].
  destruct (fs_listdir fs (dircmp.right self)) as [r|]; [|done].
  set (ll := list_sort (_filter l _)). set (rl := list_sort (_filter r _)).
  unfold bind at 1.
  destruct (phase1_spec os_path ll rl
              (logged w [IoListdir (dircmp.left self);
                         IoListdir (dircmp.right self)]))
    as (c & lo & ro & Hp1 & _).
  rewrite Hp1. unfold bind at 1. rewrite phase2_run.
  unfold bind at 1, phase3.
  destruct (cmpfiles _ _ _ _ _ _ _) as [[[[sf df] ff]|e] w3] eqn:Hp3; [|done].
  unfold ret. intros [= <- <-]. exists l, r. cbn.
  split_and!; try done.
  - intros w0. destruct (phase1_spec os_path ll rl w0)
      as (c' & lo' & ro' & Hp1' & _).
    revert Hp1 Hp1'. unfold phase1, bind, lift_result, ret. cbv zeta.
    repeat (destruct (list_map _ _); [|done]). congruence.
  - eexists. split; [|exact Hp3]. done.
Qed.

Lemma run_eq {A} (c : result A * world) (r : result A) :
  c.1 = r → c = (r, c.2).
Proof. destruct c. by intros <-. Qed.

(* ===================================================================== *)
(** ** Claims about the directory classifier                              *)
(* ===================================================================== *)

(** C1: whenever both directories can be listed, the two listings are the
    directory entries not named in hide or ignore; [left_only],
    [right_only] and [common] are pairwise disjoint, as names and already as
    case-normalized names; the case-normalized names of their union are
    those of the two filtered listings; every name put out is a listed name
    in its original casing ([common] and [left_only] from the left listing,
    [right_only] from the right one); and where [normcase] tells all listed
    names apart, as on POSIX, the union is that of the listings name for
    name. *)
Theorem C1_listing_partition fs os_path self w at' w' :
  classify fs os_path self w = (Ok at', w') →
  (∃ l r,
     fs_listdir fs (dircmp.left self) = Some l ∧
     fs_listdir fs (dircmp.right self) = Some r ∧
     (∀ x, x ∈ left_list at'
           ↔ x ∈ l ∧ x ∉ dircmp.hide self ++ dircmp.ignore self) ∧
     (∀ x, x ∈ right_list at'
           ↔ x ∈ r ∧ x ∉ dircmp.hide self ++ dircmp.ignore self)) ∧
  (normcase os_path <$> left_only at')
    ## (normcase os_path <$> right_only at') ∧
  (normcase os_path <$> left_only at') ## (normcase os_path <$> common at') ∧
  (normcase os_path <$> right_only at') ## (normcase os_path <$> common at') ∧
  left_only at' ## right_only at' ∧
  left_only at' ## common at' ∧
  right_only at' ## common at' ∧
  (∀ k, k ∈ normcase os_path
              <$> (left_only at' ++ right_only at' ++ common at')
        ↔ k ∈ normcase os_path <$> (left_list at' ++ right_list at')) ∧
  (∀ x, x ∈ common at' → x ∈ left_list at') ∧
  (∀ x, x ∈ left_only at' → x ∈ left_list at') ∧
  (∀ x, x ∈ right_only at' → x ∈ right_list at') ∧
  ((∀ x y, x ∈ left_list at' ++ right_list at' →
           y ∈ left_list at' ++ right_list at' →
           normcase os_path x = normcase os_path y → x = y) →
   ∀ x, x ∈ left_only at' ++ right_only at' ++ common at'
        ↔ x ∈ left_list at' ++ right_list at').
Proof.
  intros (l & r & El & Er & Hll & Hrl & Hp1 & _)%classify_inv.
  set (f := normcase os_path).
  destruct (phase1_spec os_path (left_list at') (right_list at') w)
    as (c & lo & ro & Hrun & H1 & H2 & H3 & H4 & H5 & H6).
  rewrite Hp1 in Hrun. injection Hrun as <- <- <-.
  fold f in H1, H2, H3, H4, H5, H6.
  assert ((f <$> left_only at') ## (f <$> right_only at')) as D1.
  { intros k (x & -> & Hx)%list_elem_of_fmap (y & Hy & Hy')%list_elem_of_fmap.
    apply H3 in Hy' as [_ Hn]. apply Hn. rewrite <-Hy.
    apply list_elem_of_fmap_2. by apply H2. }
  assert ((f <$> left_only at') ## (f <$> common at')) as D2.
  { intros k (x & -> & Hx)%list_elem_of_fmap (y & Hy & Hy')%list_elem_of_fmap.
    apply H2 in Hx as [_ Hn]. apply Hn. rewrite Hy. by apply H1. }
  assert ((f <$> right_only at') ## (f <$> common at')) as D3.
  { intros k (x & -> & Hx)%list_elem_of_fmap (y & Hy & Hy')%list_elem_of_fmap.
    apply H3 in Hx as [_ Hn]. apply Hn. rewrite Hy.
    apply list_elem_of_fmap_2. by apply H1. }
  assert (∀ k, k ∈ f <$> (left_only at' ++ right_only at' ++ common at')
               ↔ k ∈ f <$> (left_list at' ++ right_list at')) as Hunion.
  { intros k. rewrite !fmap_app, !elem_of_app. split.
    - intros [H|[H|H]]; apply list_elem_of_fmap in H as (x & -> & Hx).
      + left. apply list_elem_of_fmap_2. by apply H2.
      + right. apply list_elem_of_fmap_2. by apply H3.
      + left. apply list_elem_of_fmap_2. by apply H1.
    - intros [H|H].
      + destruct (decide (k ∈ f <$> right_list at')); auto.
      + destruct (decide (k ∈ f <$> left_list at')); auto. }
  split.
  { exists l, r. split_and!; try done.
    - intros x. rewrite Hll, list_sort_elem_of. unfold _filter.
      rewrite list_elem_of_filter. tauto.
    - intros x. rewrite Hrl, list_sort_elem_of. unfold _filter.
      rewrite list_elem_of_filter. tauto. }
  split_and!; try done.
  - intros x Hx Hy. apply (D1 (f x)); by apply list_elem_of_fmap_2.
  - intros x Hx Hy. apply (D2 (f x)); by apply list_elem_of_fmap_2.
  - intros x Hx Hy. apply (D3 (f x)); by apply list_elem_of_fmap_2.
  - by intros x [? _]%H1.
  - by intros x [? _]%H2.
  - by intros x [? _]%H3.
  - intros Hinj x. split.
    + rewrite !elem_of_app.
      intros [H|[H|H]]; [left; by apply H2|right; by apply H3|left; by apply H1].
    + intros Hx.
      assert (f x ∈ f <$> (left_list at' ++ right_list at')) as Hk
        by by apply list_elem_of_fmap_2.
      apply Hunion, list_elem_of_fmap in Hk as (y & Hfy & Hy).
      rewrite (Hinj x y Hx); [done| |done].
      revert Hy. rewrite !elem_of_app.
      intros [H|[H|H]]; [left; by apply H2|right; by apply H3|left; by apply H1].
Qed.

Lemma C1_witness :
  left_only attrs_mixed ## common attrs_mixed ∧
  (∀ k, k ∈ normcase posix
              <$> (left_only attrs_mixed ++ right_only attrs_mixed
                   ++ common attrs_mixed)
        ↔ k ∈ normcase posix
                <$> (left_list attrs_mixed ++ right_list attrs_mixed)).
Proof.
  assert (classify fs_mixed posix (dircmp_init "A" "B" None None)
            initial_world
          = (Ok attrs_mixed,
             (classify fs_mixed posix (dircmp_init "A" "B" None None)
                initial_world).2)) as Hrun
    by (apply run_eq; vm_compute; reflexivity).
  destruct (C1_listing_partition _ _ _ _ _ _ Hrun)
    as (_ & _ & _ & _ & _ & H & _ & H' & _).
  split; assumption.
Defined.

(** Names that differ only in case meet in [common], which shows the left
    directory's spelling. *)
Example casing_example :
  (classify fs_casing caseless (dircmp_init "A" "B" None None)
     initial_world).1
  = Ok {| left_list := ["Readme"%string]; right_list := ["README"%string];
          common := ["Readme"%string]; left_only := []; right_only := [];
          common_dirs := []; common_files := ["Readme"%string];
          common_funny := []; same_files := ["Readme"%string];
          diff_files := []; funny_files := [] |}.
Proof. vm_compute. reflexivity. Qed.

Lemma kind_of_funny fs os_path self x :
  let a := fs_stat fs (path_join os_path (dircmp.left self) x) in
  let b := fs_stat fs (path_join os_path (dircmp.right self) x) in
  a = None ∨ b = None ∨
  (∃ sa sb, a = Some sa ∧ b = Some sb ∧
     (S_IFMT (st_mode sa) ≠ S_IFMT (st_mode sb) ∨
      (S_IFMT (st_mode sa) ≠ S_IFDIR ∧ S_IFMT (st_mode sa) ≠ S_IFREG))) →
  kind_of fs os_path self x = KFunny.
Proof.
  cbv zeta. unfold kind_of.
  intros [->|[->|(sa & sb & -> & -> & H)]]; [done|by case_match|].
  repeat case_bool_decide; try done; naive_solver.
Qed.

Lemma kind_of_same_type fs os_path self x t :
  kind_of fs os_path self x = t → t ≠ KFunny →
  ∃ sa sb,
    fs_stat fs (path_join os_path (dircmp.left self) x) = Some sa ∧
    fs_stat fs (path_join os_path (dircmp.right self) x) = Some sb ∧
    S_IFMT (st_mode sa) = S_IFMT (st_mode sb) ∧
    S_IFMT (st_mode sa) = (if decide (t = KDir) then S_IFDIR else S_IFREG).
Proof.
  unfold kind_of. intros <- Hne.
  destruct (fs_stat fs (path_join os_path (dircmp.left self) x)) as [sa|];
    [|done].
  destruct (fs_stat fs (path_join os_path (dircmp.right self) x)) as [sb|];
    [|done].
  exists sa, sb. revert Hne. by repeat case_bool_decide.
Qed.

Lemma filter_kind_perm {A} (k : A → entry_kind) (l : list A) :
  filter (λ x, k x = KDir) l ++ filter (λ x, k x = KFile) l
  ++ filter (λ x, k x = KFunny) l ≡ₚ l.
Proof.
  induction l as [|x l IH]; [done|].
  rewrite !filter_cons.
  destruct (k x); repeat case_decide; try done; cbn [app].
  - by rewrite IH.
  - by rewrite <-Permutation_middle, IH.
  - by rewrite app_assoc, <-Permutation_middle, <-app_assoc, IH.
Qed.

(** C2: in a run of the classifier, [common_dirs], [common_files] and
    [common_funny] are pairwise disjoint and hold together exactly the names
    of [common]; a common name that cannot be stat'd on either side, or
    whose file types differ between the sides, or whose type is neither
    directory nor regular file, is in [common_funny] and in neither of the
    other two; the names of [common_dirs] are directories on both sides and
    those of [common_files] regular files on both sides. *)
Theorem C2_common_partition fs os_path self w at' w' :
  classify fs os_path self w = (Ok at', w') →
  (∀ x, x ∈ common at'
        ↔ x ∈ common_dirs at' ∨ x ∈ common_files at' ∨ x ∈ common_funny at') ∧
  common_dirs at' ## common_files at' ∧
  common_dirs at' ## common_funny at' ∧
  common_files at' ## common_funny at' ∧
  common_dirs at' ++ common_files at' ++ common_funny at' ≡ₚ common at' ∧
  (∀ x, x ∈ common at' →
     let a := fs_stat fs (path_join os_path (dircmp.left self) x) in
     let b := fs_stat fs (path_join os_path (dircmp.right self) x) in
     a = None ∨ b = None ∨
     (∃ sa sb, a = Some sa ∧ b = Some sb ∧
        (S_IFMT (st_mode sa) ≠ S_IFMT (st_mode sb) ∨
         (S_IFMT (st_mode sa) ≠ S_IFDIR ∧ S_IFMT (st_mode sa) ≠ S_IFREG))) →
     x ∈ common_funny at' ∧ (x ∉ common_dirs at') ∧ (x ∉ common_files at')) ∧
  (∀ x, x ∈ common_dirs at' →
     ∃ sa sb,
       fs_stat fs (path_join os_path (dircmp.left self) x) = Some sa ∧
       fs_stat fs (path_join os_path (dircmp.right self) x) = Some sb ∧
       S_IFMT (st_mode sa) = S_IFDIR ∧ S_IFMT (st_mode sb) = S_IFDIR) ∧
  (∀ x, x ∈ common_files at' →
     ∃ sa sb,
       fs_stat fs (path_join os_path (dircmp.left self) x) = Some sa ∧
       fs_stat fs (path_join os_path (dircmp.right self) x) = Some sb ∧
       S_IFMT (st_mode sa) = S_IFREG ∧ S_IFMT (st_mode sb) = S_IFREG).
Proof.
  intros (l & r & _ & _ & _ & _ & _ & -> & -> & -> & _)%classify_inv.
  split_and!.
  - intros x. rewrite !list_elem_of_filter.
    destruct (kind_of fs os_path self x); naive_solver.
  - intros x [H1 _]%list_elem_of_filter [H2 _]%list_elem_of_filter. congruence.
  - intros x [H1 _]%list_elem_of_filter [H2 _]%list_elem_of_filter. congruence.
  - intros x [H1 _]%list_elem_of_filter [H2 _]%list_elem_of_filter. congruence.
  - apply filter_kind_perm.
  - intros x Hx a b H. apply kind_of_funny in H.
    rewrite !list_elem_of_filter. rewrite H. naive_solver.
  - intros x [Hk _]%list_elem_of_filter.
    destruct (kind_of_same_type _ _ _ _ _ Hk) as (sa & sb & ? & ? & E & Ea);
      [done|].
    exists sa, sb. rewrite decide_True in Ea by done.
    split_and!; congruence.
  - intros x [Hk _]%list_elem_of_filter.
    destruct (kind_of_same_type _ _ _ _ _ Hk) as (sa & sb & ? & ? & E & Ea);
      [done|].
    exists sa, sb. rewrite decide_False in Ea by done.
    split_and!; congruence.
Qed.

Lemma C2_witness :
  ("n"%string ∈ common_funny attrs_mixed ∧
   ("n"%string ∉ common_dirs attrs_mixed) ∧
   ("n"%string ∉ common_files attrs_mixed)) ∧
  ("gone"%string ∈ common_funny attrs_mixed ∧
   ("gone"%string ∉ common_dirs attrs_mixed) ∧
   ("gone"%string ∉ common_files attrs_mixed)) ∧
  common_dirs attrs_mixed ## common_files attrs_mixed.
Proof.
  assert (classify fs_mixed posix (dircmp_init "A" "B" None None)
            initial_world
          = (Ok attrs_mixed,
             (classify fs_mixed posix (dircmp_init "A" "B" None None)
                initial_world).2)) as Hrun
    by (apply run_eq; vm_compute; reflexivity).
  destruct (C2_common_partition _ _ _ _ _ _ Hrun)
    as (_ & D & _ & _ & _ & F & _).
  split; [|split; [|exact D]].
  - apply F; [vm_compute; set_solver|].
    right; right. exists (reg_file 1 5), directory.
    split_and!; [reflexivity|reflexivity|]. left. vm_compute. discriminate.
  - apply F; [vm_compute; set_solver|]. right; left. reflexivity.
Defined.

(** The classifier returns whenever both directories can be listed. *)
Lemma classify_ok fs os_path self w l r :
  fs_listdir fs (dircmp.left self) = Some l →
  fs_listdir fs (dircmp.right self) = Some r →
  ∃ at' w', classify fs os_path self w = (Ok at', w').
Proof.
  intros El Er. unfold classify, bind at 1. rewrite phase0_run, El, Er.
  set (ll := list_sort (_filter l _)). set (rl := list_sort (_filter r _)).
  unfold bind at 1.
  destruct (phase1_spec os_path ll rl
              (logged w [IoListdir (dircmp.left self);
                         IoListdir (dircmp.right self)]))
    as (c & lo & ro & -> & _).
  unfold bind at 1. rewrite phase2_run.
  unfold bind at 1, phase3. rewrite cmpfiles_run.
  destruct (compare_many_spec _ _ _ _ _ _ _) as [[[sf df] ff] w3].
  unfold ret. cbn [fst snd]. eauto.
Qed.

(** Without stale entries, the first list of the batch comparator holds
    only names whose files compare equal from scratch. *)
Lemma compare_many_spec_cache_ok fs os_path a b names sh w :
  cache_ok fs (_cache w) →
  cache_ok fs (_cache (compare_many_spec fs os_path a b names sh w).2) ∧
  ∀ x, x ∈ (compare_many_spec fs os_path a b names sh w).1.1.1 →
       cmp_from_scratch fs (path_join os_path a x) (path_join os_path b x) sh
       = Ok true.
Proof.
  revert w. induction names as [|x names IH]; intros w Hok.
  - cbn. split; [done|]. by intros x ?%elem_of_nil.
  - cbn [compare_many_spec].
    pose proof (cmp_cache_ok_result fs (path_join os_path a x)
                  (path_join os_path b x) sh w Hok) as Hres.
    pose proof (cmp_cache_ok fs (path_join os_path a x)
                  (path_join os_path b x) sh w Hok) as Hok1.
    destruct (cmp fs (path_join os_path a x) (path_join os_path b x) sh w)
      as [r w1].
    cbn [fst snd] in Hres, Hok1. destruct (IH w1 Hok1) as [Hok2 Hsame].
    destruct (compare_many_spec fs os_path a b names sh w1)
      as [[[s d] f] w2].
    cbn [fst snd] in *.
    destruct r as [[]|e]; cbn [fst snd]; split; try done.
    intros y [->|Hy]%elem_of_cons; [done|]. by apply Hsame.
Qed.

(** Comparing from scratch with [shallow] false says [True] only for two
    readable files with the same bytes. *)
Lemma cmp_from_scratch_deep_true fs f1 f2 :
  cmp_from_scratch fs f1 f2 false = Ok true →
  ∃ fp, fs_open fs f1 = Some fp ∧ fs_open fs f2 = Some fp.
Proof.
  unfold cmp_from_scratch, content_equal.
  destruct (fs_stat fs f1) as [st1|]; [|done].
  destruct (fs_stat fs f2) as [st2|]; [|done].
  cbv zeta. destruct (_ || _); [done|]. cbn [andb].
  destruct (bool_decide (_ ≠ _)); [done|].
  destruct (fs_open fs f1) as [fp1|]; [|done].
  destruct (fs_open fs f2) as [fp2|]; [|done].
  rewrite read_loop_eq by apply BUFSIZE_pos.
  intros [= ->%bool_decide_eq_true]. eauto.
Qed.

(** C10 (as the code has it): [phase3] always calls [cmpfiles] with
    [shallow] false; when the cache holds no stale entry, every name of
    [same_files] names two readable files with the same bytes. *)
Theorem C10_same_files_same_bytes fs os_path self w at' w' :
  cache_ok fs (_cache w) →
  classify fs os_path self w = (Ok at', w') →
  (∀ names,
     phase3 fs os_path self names
     = cmpfiles fs os_path (dircmp.left self) (dircmp.right self) names false) ∧
  ∀ x, x ∈ same_files at' →
    ∃ fp,
      fs_open fs (path_join os_path (dircmp.left self) x) = Some fp ∧
      fs_open fs (path_join os_path (dircmp.right self) x) = Some fp.
Proof.
  intros Hok (l & r & _ & _ & _ & _ & _ & _ & _ & _ & w2 & Hc & Hp3)%classify_inv.
  split; [done|]. intros x Hx.
  rewrite cmpfiles_run in Hp3. rewrite <-Hc in Hok.
  destruct (compare_many_spec_cache_ok fs os_path (dircmp.left self)
              (dircmp.right self) (common_files at') false w2 Hok)
    as [_ Hsame].
  apply cmp_from_scratch_deep_true, Hsame.
  injection Hp3 as Hp3 _. by rewrite Hp3.
Qed.

Lemma C10_witness :
  ∃ fp, fs_open fs_mixed (path_join posix "A" "f") = Some fp ∧
        fs_open fs_mixed (path_join posix "B" "f") = Some fp.
Proof.
  assert (classify fs_mixed posix (dircmp_init "A" "B" None None)
            initial_world
          = (Ok attrs_mixed,
             (classify fs_mixed posix (dircmp_init "A" "B" None None)
                initial_world).2)) as Hrun
    by (apply run_eq; vm_compute; reflexivity).
  apply (proj2 (C10_same_files_same_bytes fs_mixed posix _ initial_world _ _
                  (cache_ok_empty fs_mixed) Hrun)).
  vm_compute. set_solver.
Defined.

(** C10 as stated fails: after one run of the classifier on two equal
    files, the right file's content changes while its size and modification
    time do not; the next run files the name under [same_files] although
    the bytes differ. *)
Lemma C10_stale_cache_counterexample :
  let d := dircmp_init "A" "B" None None in
  let w1 := (classify fs_before posix d initial_world).2 in
  fs_stat fs_differ = fs_stat fs_before ∧
  fs_listdir fs_differ = fs_listdir fs_before ∧
  (∃ at', (classify fs_differ posix d w1).1 = Ok at' ∧
          "x.txt"%string ∈ same_files at' ∧ diff_files at' = []) ∧
  fs_open fs_differ (path_join posix (dircmp.left d) "x.txt")
  = Some [x61%byte] ∧
  fs_open fs_differ (path_join posix (dircmp.right d) "x.txt")
  = Some [x62%byte] ∧
  ¬ ∃ fp, fs_open fs_differ (path_join posix (dircmp.left d) "x.txt") = Some fp
          ∧ fs_open fs_differ (path_join posix (dircmp.right d) "x.txt")
            = Some fp.
Proof.
  cbv zeta. split_and!; try done.
  - eexists. split; [vm_compute; reflexivity|]. cbn. split; [set_solver|done].
  - intros (fp & H1 & H2). vm_compute in H1, H2. congruence.
Qed.

(** A readable regular file compares equal to itself. *)
Lemma cmp_self fs f w st fp :
  fs_stat fs f = Some st → (_sig st).1.1 = S_IFREG →
  fs_open fs f = Some fp → cache_refl (_cache w) →
  (cmp fs f f false w).1 = Ok true.
Proof.
  intros Est Hreg Eopen Hc. rewrite cmp_run, Est. cbv zeta.
  rewrite !(bool_decide_eq_false_2 (_ ≠ _)) by (by intros []).
  cbn [orb andb].
  destruct (_cache w !! _) as [b|] eqn:Ehit.
  - by rewrite (Hc _ _ _ _ Ehit).
  - rewrite Eopen. cbn [fst].
    rewrite read_loop_eq by apply BUFSIZE_pos. by rewrite bool_decide_eq_true_2.
Qed.

Lemma compare_many_spec_self fs os_path p names w :
  cache_refl (_cache w) →
  (∀ x, x ∈ names →
     ∃ st fp, fs_stat fs (path_join os_path p x) = Some st ∧
              (_sig st).1.1 = S_IFREG ∧
              fs_open fs (path_join os_path p x) = Some fp) →
  (compare_many_spec fs os_path p p names false w).1 = (names, [], []).
Proof.
  revert w. induction names as [|x names IH]; intros w Hc Hnames; [done|].
  cbn [compare_many_spec].
  destruct (Hnames x) as (st & fp & Est & Hreg & Eopen); [set_solver|].
  pose proof (cmp_self fs _ w st fp Est Hreg Eopen Hc) as Hres.
  pose proof (cmp_cache_refl fs (path_join os_path p x)
                (path_join os_path p x) false w Hc) as Hc1.
  destruct (cmp fs (path_join os_path p x) (path_join os_path p x) false w)
    as [r w1].
  cbn [fst snd] in Hres, Hc1. subst r.
  assert ((compare_many_spec fs os_path p p names false w1).1
          = (names, [], [])) as Hrest by (apply IH; set_solver).
  destruct (compare_many_spec fs os_path p p names false w1)
    as [[[s d] f] w2].
  cbn [fst] in *. by injection Hrest as -> -> ->.
Qed.

(** C9 (as the code has it): a directory compared with itself, every entry
    that the hide and ignore lists let through being, on [stat], a directory
    or a regular file that can be opened, and the cache being one the
    comparator produced: [left_only], [right_only], [diff_files],
    [funny_files] and [common_funny] are empty and [same_files] is
    [common_files]. *)
Theorem C9_self_comparison fs os_path p hide ignore w l :
  cache_refl (_cache w) →
  fs_listdir fs p = Some l →
  (∀ x, x ∈ l → x ∉ hide ++ ignore →
     ∃ st, fs_stat fs (path_join os_path p x) = Some st ∧
           (S_IFMT (st_mode st) = S_IFDIR ∨
            S_IFMT (st_mode st) = S_IFREG ∧
            is_Some (fs_open fs (path_join os_path p x)))) →
  ∃ at' w',
    classify fs os_path (dircmp.mk p p hide ignore) w = (Ok at', w') ∧
    left_only at' = [] ∧ right_only at' = [] ∧
    diff_files at' = [] ∧ funny_files at' = [] ∧ common_funny at' = [] ∧
    same_files at' = common_files at'.
Proof.
  intros Hc El Hentries.
  destruct (classify_ok fs os_path (dircmp.mk p p hide ignore) w l l El El)
    as (at' & w' & Hrun).
  exists at', w'. split; [done|].
  apply classify_inv in Hrun
    as (l1 & l2 & E1 & E2 & Hll & Hrl & Hp1 & Hcd & Hcf & Hcy & w2 & Hw2 & Hp3).
  cbn [dircmp.left dircmp.right dircmp.hide dircmp.ignore] in *.
  assert (l1 = l) as -> by congruence. assert (l2 = l) as -> by congruence.
  rewrite <-Hll in Hrl.
  destruct (phase1_same_listing os_path (left_list at') w) as (c & Hc1 & Hsub).
  rewrite Hrl in Hp1. rewrite Hp1 in Hc1. injection Hc1 as <- Hlo Hro.
  assert (∀ x, x ∈ common at' →
            ∃ st, fs_stat fs (path_join os_path p x) = Some st ∧
              (S_IFMT (st_mode st) = S_IFDIR ∨
               S_IFMT (st_mode st) = S_IFREG ∧
               is_Some (fs_open fs (path_join os_path p x)))) as Hcommon.
  { intros x Hx%Hsub. rewrite Hll, list_sort_elem_of in Hx.
    apply list_elem_of_filter in Hx as [??]. by apply Hentries. }
  assert (common_funny at' = []) as Hfunny.
  { rewrite Hcy. apply filter_none. intros x (st & Est & Hk)%Hcommon.
    unfold kind_of. cbn [dircmp.left dircmp.right]. rewrite Est.
    rewrite bool_decide_eq_false_2 by (by intros []).
    destruct Hk as [->|[-> _]]; by repeat case_bool_decide. }
  rewrite cmpfiles_run in Hp3. rewrite compare_many_spec_self in Hp3.
  - injection Hp3 as <- <- <- _. by split_and!.
  - by rewrite Hw2.
  - intros x Hx. rewrite Hcf in Hx.
    apply list_elem_of_filter in Hx as [Hk (st & Est & Hst)%Hcommon].
    revert Hk. unfold kind_of. cbn [dircmp.left dircmp.right]. rewrite Est.
    rewrite bool_decide_eq_false_2 by (by intros []).
    destruct Hst as [E|[E [fp Hfp]]]; rewrite E.
    + by repeat case_bool_decide.
    + intros _. by exists st, fp.
Qed.

Lemma C9_witness :
  ∃ at' w',
    classify fs_plain posix (dircmp.mk "D" "D" [curdir; pardir] DEFAULT_IGNORES)
      initial_world = (Ok at', w') ∧
    left_only at' = [] ∧ right_only at' = [] ∧
    diff_files at' = [] ∧ funny_files at' = [] ∧ common_funny at' = [] ∧
    same_files at' = common_files at'.
Proof.
  apply (C9_self_comparison fs_plain posix "D" [curdir; pardir] DEFAULT_IGNORES
           initial_world ["sub"; "f"; ".git"]%string).
  - intros f s1 s2 b H. vm_compute in H. discriminate.
  - reflexivity.
  - intros x Hx Hskip.
    assert (x = "sub" ∨ x = "f")%string as [-> | ->].
    { apply elem_of_cons in Hx as [->|Hx]; [by left|].
      apply elem_of_cons in Hx as [->|Hx]; [by right|].
      apply list_elem_of_singleton in Hx as ->.
      exfalso. apply Hskip. vm_compute. set_solver. }
    + exists directory. split; [reflexivity|]. left. reflexivity.
    + exists (reg_file 1 5). split; [reflexivity|]. right.
      split; [reflexivity|]. by eexists.
Defined.

(** C9 as stated fails: a directory holding a named pipe, every entry of
    which can be stat'd, compared with itself has the pipe in
    [common_funny]. *)
Lemma C9_named_pipe_counterexample :
  fs_listdir fs_pipe "D" = Some ["sub"; "pipe"; "f"; ".git"]%string ∧
  fs_stat fs_pipe (path_join posix "D" "sub") = Some directory ∧
  fs_stat fs_pipe (path_join posix "D" "pipe") = Some fifo ∧
  fs_stat fs_pipe (path_join posix "D" "f") = Some (reg_file 1 5) ∧
  ∃ at',
    (classify fs_pipe posix (dircmp_init "D" "D" None None) initial_world).1
    = Ok at' ∧
    common_funny at' = ["pipe"%string] ∧ common_funny at' ≠ [].
Proof.
  split_and!; try reflexivity.
  eexists. split; [vm_compute; reflexivity|]. by cbn.
Qed.

(* ===================================================================== *)
(** ** Further properties of the file comparator                          *)
(* ===================================================================== *)

(** X1.  [_do_cmp] opens the first file and then the second; when the first
    cannot be opened it raises without opening the second; when both open it
    returns whether their contents are the same bytes, whatever the chunk
    size; it never touches the cache. *)
Theorem _do_cmp_contents fs f1 f2 w :
  _do_cmp fs f1 f2 w =
  match fs_open fs f1 with
  | None => (Raise OSError, logged w [IoOpen f1])
  | Some fp1 =>
      (match fs_open fs f2 with
       | None => Raise OSError
       | Some fp2 => Ok (bool_decide (fp1 = fp2))
       end, logged w [IoOpen f1; IoOpen f2])
  end.
Proof.
  rewrite _do_cmp_run.
  destruct (fs_open fs f1) as [fp1|]; [|done].
  destruct (fs_open fs f2) as [fp2|]; [|done].
  by rewrite read_loop_eq by apply BUFSIZE_pos.
Qed.

(** X2.  The chunk size cannot be observed: every positive buffer size gives the
    result of [BUFSIZE]; a buffer size of zero makes the loop return [True]
    at once. *)
Theorem read_loop_any_bufsize (n : nat) (fp1 fp2 : list byte) :
  read_loop (S n) fp1 fp2 = read_loop BUFSIZE fp1 fp2 ∧
  read_loop 0 fp1 fp2 = true.
Proof.
  split.
  - rewrite !read_loop_eq; [done|apply BUFSIZE_pos|lia].
  - assert (∀ m, m = 0%nat → read_loop m fp1 fp2 = true) as H;
      [|by apply H].
    intros m Hm. funelim (read_loop m fp1 fp2); forget_calls; subst;
      try done; by rewrite ?take_0 in *.
Qed.

(** X3.  When the two signatures differ, [shallow] makes no difference: result,
    cache and calls made are the same. *)
Theorem cmp_shallow_only_on_equal_signatures fs f1 f2 w st1 st2 :
  fs_stat fs f1 = Some st1 → fs_stat fs f2 = Some st2 →
  _sig st1 ≠ _sig st2 →
  cmp fs f1 f2 true w = cmp fs f1 f2 false w.
Proof.
  intros E1 E2 Hne. rewrite !cmp_run, E1, E2. cbv zeta.
  by rewrite (bool_decide_eq_false_2 _ Hne).
Qed.

Lemma cmp_shallow_only_on_equal_signatures_witness :
  cmp fs_mixed "A/f" "B/f" true initial_world
  = cmp fs_mixed "A/f" "B/f" false initial_world.
Proof.
  apply (cmp_shallow_only_on_equal_signatures fs_mixed "A/f" "B/f"
           initial_world (reg_file 1 5) (reg_file 1 6));
    [reflexivity|reflexivity|vm_compute; discriminate].
Defined.

Lemma content_equal_sym fs f1 f2 :
  content_equal fs f1 f2 = content_equal fs f2 f1.
Proof.
  unfold content_equal.
  destruct (fs_open fs f1) as [fp1|], (fs_open fs f2) as [fp2|]; try done.
  rewrite !read_loop_eq by apply BUFSIZE_pos.
  f_equal. apply bool_decide_ext. naive_solver.
Qed.

Lemma cmp_from_scratch_sym fs f1 f2 shallow :
  cmp_from_scratch fs f1 f2 shallow = cmp_from_scratch fs f2 f1 shallow.
Proof.
  unfold cmp_from_scratch.
  destruct (fs_stat fs f1) as [st1|], (fs_stat fs f2) as [st2|]; try done.
  cbv zeta. rewrite (orb_comm (bool_decide ((_sig st2).1.1 ≠ S_IFREG))).
  destruct (_ || _); [done|].
  rewrite (bool_decide_ext (_sig st2 = _sig st1) (_sig st1 = _sig st2))
    by naive_solver.
  destruct (_ && _); [done|].
  rewrite (bool_decide_ext ((_sig st2).1.2 ≠ (_sig st1).1.2)
             ((_sig st1).1.2 ≠ (_sig st2).1.2)) by naive_solver.
  destruct (bool_decide _); [done|]. apply content_equal_sym.
Qed.

(** X4.  On an unchanged file system the comparator is symmetric in its two
    paths: after any history of comparisons from the empty cache,
    [cmp(f1, f2)] and [cmp(f2, f1)] return or raise the same. *)
Theorem cmp_symmetric fs f1 f2 shallow calls :
  (cmp fs f1 f2 shallow (run_calls fs calls initial_world)).1
  = (cmp fs f2 f1 shallow (run_calls fs calls initial_world)).1.
Proof.
  rewrite !cmp_cache_ok_result
    by apply run_calls_cache_ok, cache_ok_empty.
  apply cmp_from_scratch_sym.
Qed.

(** X5.  A comparison that raises raises [OSError] and leaves the cache as it
    was: a failed comparison stores nothing. *)
Theorem cmp_error_keeps_cache fs f1 f2 shallow w e :
  (cmp fs f1 f2 shallow w).1 = Raise e →
  e = OSError ∧ _cache (cmp fs f1 f2 shallow w).2 = _cache w.
Proof.
  cmp_cases; cbn; try done; by intros [= <-].
Qed.

Lemma cmp_error_keeps_cache_witness :
  OSError = OSError ∧
  _cache (cmp fs_mixed "A/gone" "B/gone" false initial_world).2
  = _cache initial_world.
Proof.
  apply (cmp_error_keeps_cache fs_mixed "A/gone" "B/gone" false initial_world).
  reflexivity.
Defined.

(** X6.  After a comparison that returned, the same comparison on the unchanged
    file system returns the same boolean after its two [stat] calls alone:
    nothing is opened again and the cache stays as the first call left it. *)
Theorem cmp_second_call_reads_nothing fs f1 f2 shallow w b :
  (cmp fs f1 f2 shallow w).1 = Ok b →
  cmp fs f1 f2 shallow (cmp fs f1 f2 shallow w).2
  = (Ok b, logged (cmp fs f1 f2 shallow w).2 [IoStat f1; IoStat f2]).
Proof.
  rewrite (cmp_run fs f1 f2 shallow (cmp fs f1 f2 shallow w).2).
  rewrite (cmp_run fs f1 f2 shallow w).
  destruct (fs_stat fs f1) as [st1|]; [|done].
  destruct (fs_stat fs f2) as [st2|]; [|done].
  cbv zeta.
  destruct (_ || _); [by intros [= <-]|].
  destruct (_ && _); [by intros [= <-]|].
  destruct (bool_decide (_ ≠ _)); [by intros [= <-]|].
  destruct (_cache w !! _) as [b'|] eqn:Ehit; cbn [fst snd logged _cache].
  - intros [= <-]. by rewrite Ehit.
  - destruct (fs_open fs f1) as [fp1|]; [|done].
    destruct (fs_open fs f2) as [fp2|]; [|done].
    cbn [fst snd _cache]. intros [= <-].
    unfold cache_store. by rewrite lookup_insert_eq.
Qed.

Lemma cmp_second_call_reads_nothing_witness :
  cmp fs_differ "A/x.txt" "B/x.txt" false
    (cmp fs_differ "A/x.txt" "B/x.txt" false initial_world).2
  = (Ok false,
     logged (cmp fs_differ "A/x.txt" "B/x.txt" false initial_world).2
       [IoStat "A/x.txt"; IoStat "B/x.txt"]).
Proof.
  apply (cmp_second_call_reads_nothing fs_differ "A/x.txt" "B/x.txt" false
           initial_world false).
  vm_compute. reflexivity.
Defined.

(* ===================================================================== *)
(** ** Further properties of the batch comparator                         *)
(* ===================================================================== *)

Lemma compare_many_spec_filters fs os_path a b names sh w :
  cache_ok fs (_cache w) →
  (compare_many_spec fs os_path a b names sh w).1
  = (filter (λ x, cmp_from_scratch fs (path_join os_path a x)
                    (path_join os_path b x) sh = Ok true) names,
     filter (λ x, cmp_from_scratch fs (path_join os_path a x)
                    (path_join os_path b x) sh = Ok false) names,
     filter (λ x, cmp_from_scratch fs (path_join os_path a x)
                    (path_join os_path b x) sh = Raise OSError) names).
Proof.
  revert w. induction names as [|x names IH]; intros w Hok; [done|].
  cbn [compare_many_spec].
  pose proof (cmp_cache_ok_result fs (path_join os_path a x)
                (path_join os_path b x) sh w Hok) as Hres.
  pose proof (cmp_cache_ok fs (path_join os_path a x)
                (path_join os_path b x) sh w Hok) as Hok1.
  pose proof (cmp_raises fs (path_join os_path a x)
                (path_join os_path b x) sh w) as Hraise.
  destruct (cmp fs (path_join os_path a x) (path_join os_path b x) sh w)
    as [r w1].
  cbn [fst snd] in Hres, Hok1, Hraise. specialize (IH w1 Hok1).
  destruct (compare_many_spec fs os_path a b names sh w1)
    as [[[s d] f] w2].
  cbn [fst] in *. injection IH as -> -> ->.
  rewrite !filter_cons, <-Hres.
  destruct r as [[]|e]; [| |rewrite (Hraise e eq_refl)];
    repeat case_decide; try done.
Qed.

Lemma compare_many_spec_invariants fs os_path a b names sh w :
  cache_ok fs (_cache w) → (size (_cache w) ≤ 101)%nat →
  cache_ok fs (_cache (compare_many_spec fs os_path a b names sh w).2) ∧
  (size (_cache (compare_many_spec fs os_path a b names sh w).2) ≤ 101)%nat.
Proof.
  revert w. induction names as [|x names IH]; intros w Hok Hsize; [done|].
  cbn [compare_many_spec].
  pose proof (cmp_cache_ok fs (path_join os_path a x)
                (path_join os_path b x) sh w Hok) as Hok1.
  pose proof (cmp_cache_size fs (path_join os_path a x)
                (path_join os_path b x) sh w Hsize) as Hsize1.
  destruct (cmp fs (path_join os_path a x) (path_join os_path b x) sh w)
    as [r w1].
  cbn [snd] in Hok1, Hsize1. specialize (IH w1 Hok1 Hsize1).
  destruct (compare_many_spec fs os_path a b names sh w1)
    as [[[s d] f] w2].
  by destruct r as [[]|e].
Qed.

(** X7.  On a file system unchanged since the cache entries were made,
    [cmpfiles] is three filters of [names]: the names whose pair compares
    equal from scratch, those whose pair compares unequal, and those whose
    comparison raises [OSError]; so the result depends neither on the cache
    nor on what was compared before. *)
Theorem cmpfiles_filters fs os_path a b names shallow w :
  cache_ok fs (_cache w) →
  (cmpfiles fs os_path a b names shallow w).1
  = Ok (filter (λ x, cmp_from_scratch fs (path_join os_path a x)
                       (path_join os_path b x) shallow = Ok true) names,
        filter (λ x, cmp_from_scratch fs (path_join os_path a x)
                       (path_join os_path b x) shallow = Ok false) names,
        filter (λ x, cmp_from_scratch fs (path_join os_path a x)
                       (path_join os_path b x) shallow = Raise OSError) names).
Proof.
  intros Hok. rewrite cmpfiles_run. cbn [fst].
  by rewrite compare_many_spec_filters.
Qed.

Lemma cmpfiles_filters_witness :
  (cmpfiles fs_mixed posix "A" "B" ["f"; "n"; "gone"]%string false
     initial_world).1
  = Ok (["f"]%string, ["n"]%string, ["gone"]%string).
Proof.
  rewrite (cmpfiles_filters fs_mixed posix "A" "B" ["f"; "n"; "gone"]%string
             false initial_world (cache_ok_empty fs_mixed)).
  vm_compute. reflexivity.
Defined.

(** X8.  [cmpfiles] keeps the two properties of the cache: no stale entry for an
    unchanged file system, and at most 101 entries. *)
Theorem cmpfiles_keeps_cache_invariants fs os_path a b names shallow w :
  cache_ok fs (_cache w) → (size (_cache w) ≤ 101)%nat →
  cache_ok fs (_cache (cmpfiles fs os_path a b names shallow w).2) ∧
  (size (_cache (cmpfiles fs os_path a b names shallow w).2) ≤ 101)%nat.
Proof.
  intros Hok Hsize. rewrite cmpfiles_run. cbn [snd].
  by apply compare_many_spec_invariants.
Qed.

Lemma cmpfiles_keeps_cache_invariants_witness :
  cache_ok fs_mixed
    (_cache (cmpfiles fs_mixed posix "A" "B" ["f"; "n"]%string false
               initial_world).2) ∧
  (size (_cache (cmpfiles fs_mixed posix "A" "B" ["f"; "n"]%string false
                   initial_world).2) ≤ 101)%nat.
Proof.
  apply (cmpfiles_keeps_cache_invariants fs_mixed posix "A" "B"
           ["f"; "n"]%string false initial_world (cache_ok_empty fs_mixed)).
  vm_compute. lia.
Defined.

(* ===================================================================== *)
(** ** Further properties of the directory classifier                     *)
(* ===================================================================== *)

Lemma str_le_lt_eq s1 s2 :
  str_le s1 s2 ↔ OrderedTypeEx.String_as_OT.lt s1 s2 ∨ s1 = s2.
Proof.
  unfold str_le, String.leb.
  rewrite <-OrderedTypeEx.String_as_OT.cmp_lt, <-OrderedTypeEx.String_as_OT.cmp_eq.
  unfold OrderedTypeEx.String_as_OT.cmp.
  destruct (String.compare s1 s2); naive_solver.
Qed.

#[global] Instance str_le_total : Total str_le.
Proof. intros s1 s2. apply String.leb_total. Qed.

#[global] Instance str_le_trans : Transitive str_le.
Proof.
  intros s1 s2 s3. rewrite !str_le_lt_eq.
  intros [H1| ->] [H2| ->]; auto.
  left. by apply (OrderedTypeEx.String_as_OT.lt_trans _ _ _ H1).
Qed.

#[global] Instance str_le_antisym : AntiSymm (=) str_le.
Proof. intros s1 s2. apply String.leb_antisym. Qed.

(** X9.  [_filter] returns the items of [flist] that do not occur in [skip], in
    their order; filtering again changes nothing, and an empty [skip]
    returns the list as it is. *)
Theorem _filter_removes_skipped (flist skip : list string) :
  (∀ x, x ∈ _filter flist skip ↔ x ∈ flist ∧ (x ∉ skip)) ∧
  sublist (_filter flist skip) flist ∧
  _filter (_filter flist skip) skip = _filter flist skip ∧
  _filter flist [] = flist.
Proof.
  unfold _filter. split_and!.
  - intros x. rewrite list_elem_of_filter. tauto.
  - apply sublist_filter.
  - induction flist as [|x flist IH]; [done|].
    rewrite filter_cons. case_decide; [|done].
    rewrite filter_cons, decide_True by done. by rewrite IH.
  - induction flist as [|x flist IH]; [done|].
    rewrite filter_cons, decide_True by set_solver. by rewrite IH.
Qed.

(** X10.  After [phase0] each listing is in ascending order of code points,
    every element being no greater than all that follow, and is a
    rearrangement of the filtered directory listing: nothing is lost or
    repeated by the sort, and it is the only such arrangement. *)
Theorem phase0_sorted_listings fs self w ll rl w' :
  phase0 fs self w = (Ok (ll, rl), w') →
  ∃ l r,
    fs_listdir fs (dircmp.left self) = Some l ∧
    fs_listdir fs (dircmp.right self) = Some r ∧
    StronglySorted str_le ll ∧ StronglySorted str_le rl ∧
    ll ≡ₚ _filter l (dircmp.hide self ++ dircmp.ignore self) ∧
    rl ≡ₚ _filter r (dircmp.hide self ++ dircmp.ignore self) ∧
    (∀ ll', StronglySorted str_le ll' → ll' ≡ₚ ll → ll' = ll) ∧
    w' = logged w [IoListdir (dircmp.left self);
                   IoListdir (dircmp.right self)].
Proof.
  rewrite phase0_run.
  destruct (fs_listdir fs (dircmp.left self)) as [l|]; [|done].
  destruct (fs_listdir fs (dircmp.right self)) as [r|]; [|done].
  intros [= <- <- <-]. exists l, r. unfold list_sort.
  split_and!; try done.
  - apply StronglySorted_merge_sort; apply _.
  - apply StronglySorted_merge_sort; apply _.
  - apply merge_sort_Permutation.
  - apply merge_sort_Permutation.
  - intros ll' Hs Hp. apply (StronglySorted_unique str_le); try done.
    apply StronglySorted_merge_sort; apply _.
Qed.

Lemma phase0_sorted_listings_witness :
  ∃ l r,
    fs_listdir fs_mixed "A" = Some l ∧ fs_listdir fs_mixed "B" = Some r ∧
    StronglySorted str_le ["d"; "f"; "gone"; "n"; "only_a"]%string ∧
    StronglySorted str_le ["d"; "f"; "gone"; "n"; "only_b"]%string ∧
    ["d"; "f"; "gone"; "n"; "only_a"]%string
      ≡ₚ _filter l ([curdir; pardir] ++ DEFAULT_IGNORES) ∧
    ["d"; "f"; "gone"; "n"; "only_b"]%string
      ≡ₚ _filter r ([curdir; pardir] ++ DEFAULT_IGNORES) ∧
    (∀ ll', StronglySorted str_le ll' →
            ll' ≡ₚ ["d"; "f"; "gone"; "n"; "only_a"]%string →
            ll' = ["d"; "f"; "gone"; "n"; "only_a"]%string) ∧
    logged initial_world [IoListdir "A"; IoListdir "B"]
    = logged initial_world [IoListdir "A"; IoListdir "B"].
Proof.
  apply (phase0_sorted_listings fs_mixed (dircmp_init "A" "B" None None)
           initial_world).
  vm_compute. reflexivity.
Defined.

(** X11.  The classifier raises exactly when a directory cannot be listed, and
    then raises [OSError]: when the left one cannot, the right one is not
    even listed; when both can, the classifier returns, whatever [stat] and
    [open] do on the entries. *)
Theorem classify_raises_only_on_listing fs os_path self w :
  match fs_listdir fs (dircmp.left self), fs_listdir fs (dircmp.right self) with
  | Some _, Some _ => ∃ at', (classify fs os_path self w).1 = Ok at'
  | Some _, None =>
      classify fs os_path self w
      = (Raise OSError,
         logged w [IoListdir (dircmp.left self);
                   IoListdir (dircmp.right self)])
  | None, _ =>
      classify fs os_path self w
      = (Raise OSError, logged w [IoListdir (dircmp.left self)])
  end.
Proof.
  destruct (fs_listdir fs (dircmp.left self)) as [l|] eqn:El.
  - destruct (fs_listdir fs (dircmp.right self)) as [r|] eqn:Er.
    + destruct (classify_ok fs os_path self w l r El Er) as (at' & w' & ->).
      by exists at'.
    + unfold classify, bind. by rewrite phase0_run, El, Er.
  - unfold classify, bind. by rewrite phase0_run, El.
Qed.

Lemma dict_setitem_iter k v d :
  dict_iter (dict_setitem k v d)
  = if decide (k ∈ dict_iter d) then dict_iter d else dict_iter d ++ [k].
Proof.
  unfold dict_iter. induction d as [|[k0 v0] d IH]; cbn; [done|].
  destruct (decide (k = k0)) as [->|Hne]; cbn.
  - by rewrite decide_True by set_solver.
  - rewrite IH. destruct (decide (k ∈ d.*1)).
    + by rewrite decide_True by set_solver.
    + by rewrite decide_False by set_solver.
Qed.

Lemma dict_setitem_NoDup k v d :
  NoDup (dict_iter d) → NoDup (dict_iter (dict_setitem k v d)).
Proof.
  intros Hd. rewrite dict_setitem_iter. case_decide; [done|].
  apply NoDup_app. split_and!; [done|set_solver|apply NoDup_singleton].
Qed.

Lemma dict_of_NoDup pairs : NoDup (dict_iter (dict_of pairs)).
Proof.
  unfold dict_of.
  assert (∀ d0, NoDup (dict_iter d0) →
            NoDup (dict_iter
                     (fold_left (λ d kv, dict_setitem kv.1 kv.2 d) pairs d0)))
    as H; [|apply H, NoDup_nil_2].
  induction pairs as [|[k v] pairs IH]; intros d0 Hd0; [done|].
  cbn. by apply IH, dict_setitem_NoDup.
Qed.

Lemma list_map_getitem_keys (f : string → string) d ks vs :
  (∀ k v, dict_getitem d k = Ok v → f v = k) →
  list_map (dict_getitem d) ks = Ok vs → f <$> vs = ks.
Proof.
  intros Hf. revert vs. induction ks as [|k ks IH]; intros vs; cbn.
  - by intros [= <-].
  - destruct (dict_getitem d k) as [v|] eqn:Hv; [|done].
    destruct (list_map (dict_getitem d) ks) as [vs'|]; [|done].
    intros [= <-]. cbn. by rewrite (Hf _ _ Hv), (IH vs').
Qed.

(** The three lists of [phase1] have pairwise different case-normalized
    names. *)
Lemma phase1_NoDup os_path ll rl w c lo ro :
  phase1 os_path ll rl w = (Ok (c, lo, ro), w) →
  NoDup (normcase os_path <$> c) ∧ NoDup (normcase os_path <$> lo) ∧
  NoDup (normcase os_path <$> ro).
Proof.
  unfold phase1. cbv zeta.
  set (f := normcase os_path).
  set (a := dict_of (zip (f <$> ll) ll)).
  set (b := dict_of (zip (f <$> rl) rl)).
  unfold bind, lift_result, ret.
  destruct (list_map (dict_getitem a) (filter (dict_contains b) _))
    as [c'|] eqn:Hc; [|done].
  destruct (list_map (dict_getitem a) (filter (λ k, ¬ dict_contains b k) _))
    as [lo'|] eqn:Hlo; [|done].
  destruct (list_map (dict_getitem b) (filter (λ k, ¬ dict_contains a k) _))
    as [ro'|] eqn:Hro; [|done].
  intros [= <- <- <-].
  assert (∀ l k v, dict_getitem (dict_of (zip (f <$> l) l)) k = Ok v → f v = k)
    as Hitem by (intros l k v H; by apply dict_of_zip_getitem in H as [-> _]).
  rewrite (list_map_getitem_keys f a _ _ (Hitem ll) Hc).
  rewrite (list_map_getitem_keys f a _ _ (Hitem ll) Hlo).
  rewrite (list_map_getitem_keys f b _ _ (Hitem rl) Hro).
  split_and!; apply NoDup_filter, dict_of_NoDup.
Qed.

(** X12.  No name occurs twice in any list the classifier computes from the two
    listings, even where a listing repeats a name or holds two names that
    [normcase] identifies; the names of [common], of [left_only] and of
    [right_only] remain different after case normalization. *)
Theorem classify_lists_have_no_duplicates fs os_path self w at' w' :
  classify fs os_path self w = (Ok at', w') →
  NoDup (normcase os_path <$> common at') ∧
  NoDup (normcase os_path <$> left_only at') ∧
  NoDup (normcase os_path <$> right_only at') ∧
  NoDup (common at') ∧ NoDup (left_only at') ∧ NoDup (right_only at') ∧
  NoDup (common_dirs at') ∧ NoDup (common_files at') ∧
  NoDup (common_funny at') ∧
  NoDup (same_files at') ∧ NoDup (diff_files at') ∧ NoDup (funny_files at').
Proof.
  intros (l & r & _ & _ & _ & _ & Hp1 & Hcd & Hcf & Hcy & w2 & _ & Hp3)
    %classify_inv.
  destruct (phase1_NoDup _ _ _ _ _ _ _ (Hp1 w)) as (Nc & Nlo & Nro).
  pose proof (NoDup_fmap_1 _ _ Nc) as Nc'.
  assert (NoDup (common_files at')) as Ncf
    by (rewrite Hcf; by apply NoDup_filter).
  rewrite cmpfiles_run in Hp3. injection Hp3 as Hp3 _.
  pose proof (compare_many_spec_sublist fs os_path (dircmp.left self)
                (dircmp.right self) (common_files at') false w2)
    as (Hs & Hd & Hf).
  rewrite Hp3 in Hs, Hd, Hf. cbn [fst snd] in Hs, Hd, Hf.
  split_and!; try done.
  - by apply (NoDup_fmap_1 (normcase os_path)).
  - by apply (NoDup_fmap_1 (normcase os_path)).
  - rewrite Hcd. by apply NoDup_filter.
  - rewrite Hcy. by apply NoDup_filter.
  - by eapply sublist_NoDup.
  - by eapply sublist_NoDup.
  - by eapply sublist_NoDup.
Qed.

Lemma classify_lists_have_no_duplicates_witness :
  NoDup (common attrs_mixed) ∧ NoDup (same_files attrs_mixed).
Proof.
  assert (classify fs_mixed posix (dircmp_init "A" "B" None None)
            initial_world
          = (Ok attrs_mixed,
             (classify fs_mixed posix (dircmp_init "A" "B" None None)
                initial_world).2)) as Hrun
    by (apply run_eq; vm_compute; reflexivity).
  destruct (classify_lists_have_no_duplicates _ _ _ _ _ _ Hrun)
    as (_ & _ & _ & H1 & _ & _ & _ & _ & _ & H2 & _).
  split; assumption.
Defined.

Lemma dict_setitem_fresh k v d :
  k ∉ dict_iter d → dict_setitem k v d = d ++ [(k, v)].
Proof.
  unfold dict_iter. induction d as [|[k0 v0] d IH]; cbn; [done|].
  intros Hk. rewrite decide_False by set_solver. f_equal. apply IH. set_solver.
Qed.

Lemma dict_of_fresh pairs : NoDup pairs.*1 → dict_of pairs = pairs.
Proof.
  unfold dict_of.
  assert (∀ d0, NoDup (dict_iter d0 ++ pairs.*1) →
            fold_left (λ d kv, dict_setitem kv.1 kv.2 d) pairs d0
            = d0 ++ pairs) as H.
  { induction pairs as [|[k v] pairs IH]; intros d0 Hd0; cbn.
    - by rewrite app_nil_r.
    - cbn in Hd0. apply NoDup_app in Hd0 as (Hd & Hdis & Hp).
      apply NoDup_cons in Hp as [Hk Hp].
      rewrite dict_setitem_fresh by set_solver.
      rewrite IH; [by rewrite <-app_assoc|].
      unfold dict_iter. rewrite fmap_app. cbn.
      apply NoDup_app. split_and!; [|set_solver|done].
      apply NoDup_app. split_and!; [done|set_solver|apply NoDup_singleton]. }
  intros Hp. by rewrite H.
Qed.

Lemma zip_fmap_getitem (f : string → string) (l : list string) x :
  NoDup (f <$> l) → x ∈ l → dict_getitem (zip (f <$> l) l) (f x) = Ok x.
Proof.
  induction l as [|y l IH]; cbn; [by intros _ ?%elem_of_nil|].
  intros [Hy Hl]%NoDup_cons [->|Hx]%elem_of_cons.
  - by rewrite decide_True.
  - rewrite decide_False; [by apply IH|].
    intros Heq. apply Hy. rewrite <-Heq. by apply list_elem_of_fmap_2.
Qed.

Lemma list_map_zip_getitem (f : string → string) (l l' : list string) :
  NoDup (f <$> l) → (∀ x, x ∈ l' → x ∈ l) →
  list_map (dict_getitem (zip (f <$> l) l)) (f <$> l') = Ok l'.
Proof.
  intros Hl. induction l' as [|x l' IH]; intros Hsub; cbn; [done|].
  rewrite zip_fmap_getitem by set_solver. by rewrite IH by set_solver.
Qed.

Lemma filter_fmap_keys (f : string → string) (P Q : string → Prop)
    `{∀ k, Decision (P k)} `{∀ x, Decision (Q x)} (l : list string) :
  (∀ x, P (f x) ↔ Q x) → filter P (f <$> l) = f <$> filter Q l.
Proof.
  intros HPQ. induction l as [|x l IH]; [done|].
  rewrite fmap_cons, !filter_cons.
  destruct (decide (P (f x))) as [HP|HP], (decide (Q x)) as [HQ|HQ];
    rewrite ?fmap_cons, IH; try done; exfalso; naive_solver.
Qed.

(** X13.  Where no two names of one listing share a case-normalized name (every
    listing on POSIX, and the listing of a case-insensitive directory),
    [phase1] filters the listings in their order: [common] are the left
    names whose normalized name occurs on the right, [left_only] the other
    left names, [right_only] the right names whose normalized name does
    not occur on the left. *)
Theorem phase1_filters_listings os_path ll rl w :
  NoDup (normcase os_path <$> ll) → NoDup (normcase os_path <$> rl) →
  phase1 os_path ll rl w
  = (Ok (filter (λ x, normcase os_path x ∈ normcase os_path <$> rl) ll,
         filter (λ x, normcase os_path x ∉ normcase os_path <$> rl) ll,
         filter (λ x, normcase os_path x ∉ normcase os_path <$> ll) rl),
     w).
Proof.
  intros Hll Hrl. unfold phase1. cbv zeta.
  set (f := normcase os_path).
  assert (∀ l, NoDup (f <$> l) → dict_of (zip (f <$> l) l) = zip (f <$> l) l)
    as Hd.
  { intros l Hl. apply dict_of_fresh.
    by rewrite fst_zip by (by rewrite length_fmap). }
  rewrite !Hd by done.
  assert (∀ l, dict_iter (zip (f <$> l) l) = f <$> l) as Hi.
  { intros l. unfold dict_iter. by rewrite fst_zip by (by rewrite length_fmap). }
  assert (∀ l1 l2,
            filter (dict_contains (zip (f <$> l2) l2))
              (dict_iter (zip (f <$> l1) l1))
            = f <$> filter (λ x, f x ∈ f <$> l2) l1) as Hin.
  { intros l1 l2. rewrite (Hi l1). apply filter_fmap_keys.
    intros x. unfold dict_contains. by rewrite Hi. }
  assert (∀ l1 l2,
            filter (λ k, ¬ dict_contains (zip (f <$> l2) l2) k)
              (dict_iter (zip (f <$> l1) l1))
            = f <$> filter (λ x, f x ∉ f <$> l2) l1) as Hout.
  { intros l1 l2. rewrite (Hi l1). apply filter_fmap_keys.
    intros x. unfold dict_contains. by rewrite Hi. }
  rewrite Hin, !Hout.
  unfold bind, lift_result, ret.
  rewrite !list_map_zip_getitem;
    try done; try (by intros x [_ ?]%list_elem_of_filter).
Qed.

Lemma phase1_filters_listings_witness :
  phase1 caseless ["Readme"; "a"]%string ["README"; "b"]%string initial_world
  = (Ok (["Readme"]%string, ["a"]%string, ["b"]%string), initial_world).
Proof.
  rewrite (phase1_filters_listings caseless ["Readme"; "a"]%string
             ["README"; "b"]%string initial_world);
    [reflexivity| |];
    vm_compute; repeat constructor; set_solver.
Defined.

Lemma phase2_log_length os_path self common :
  length (phase2_log os_path self common) = (2 * length common)%nat.
Proof.
  unfold phase2_log. induction common as [|x common IH]; [done|].
  cbn in *. lia.
Qed.

Lemma phase2_log_stats os_path self common e :
  e ∈ phase2_log os_path self common → ∃ path, e = IoStat path.
Proof.
  unfold phase2_log. intros (x & He & _)%list_elem_of_bind.
  apply elem_of_cons in He as [->|He]; [eauto|].
  apply list_elem_of_singleton in He as ->. eauto.
Qed.

(** X14.  [phase2] never raises: a failing [stat] only files the name under
    funny.  It calls [stat] on the left and then the right path of each
    common name, in order, twice per name, opens no file and leaves the
    cache alone. *)
Theorem phase2_footprint fs os_path self common w :
  ∃ res w',
    phase2 fs os_path self common w = (Ok res, w') ∧
    _cache w' = _cache w ∧
    io_log w' = io_log w ++ phase2_log os_path self common ∧
    length (phase2_log os_path self common) = (2 * length common)%nat ∧
    ∀ e, e ∈ phase2_log os_path self common → ∃ path, e = IoStat path.
Proof.
  rewrite phase2_run. eexists _, _. split; [done|].
  split_and!; try done.
  - apply phase2_log_length.
  - apply phase2_log_stats.
Qed.

(** X15.  A name of the hide or ignore list is in none of the eleven lists. *)
Theorem classify_hides_skipped_names fs os_path self w at' w' x :
  classify fs os_path self w = (Ok at', w') →
  x ∈ dircmp.hide self ++ dircmp.ignore self →
  (x ∉ left_list at') ∧ (x ∉ right_list at') ∧ (x ∉ common at') ∧
  (x ∉ left_only at') ∧ (x ∉ right_only at') ∧
  (x ∉ common_dirs at') ∧ (x ∉ common_files at') ∧ (x ∉ common_funny at') ∧
  (x ∉ same_files at') ∧ (x ∉ diff_files at') ∧ (x ∉ funny_files at').
Proof.
  intros (l & r & _ & _ & Hll & Hrl & Hp1 & Hcd & Hcf & Hcy & w2 & _ & Hp3)
    %classify_inv Hskip.
  destruct (phase1_spec os_path (left_list at') (right_list at') w)
    as (c & lo & ro & Hrun & H1 & H2 & H3 & _).
  rewrite Hp1 in Hrun. injection Hrun as <- <- <-.
  rewrite cmpfiles_run in Hp3. injection Hp3 as Hp3 _.
  pose proof (compare_many_spec_sublist fs os_path (dircmp.left self)
                (dircmp.right self) (common_files at') false w2)
    as (Hs & Hd & Hf).
  rewrite Hp3 in Hs, Hd, Hf. cbn [fst snd] in Hs, Hd, Hf.
  assert (x ∉ left_list at') as Nl.
  { rewrite Hll, list_sort_elem_of. unfold _filter.
    rewrite list_elem_of_filter. tauto. }
  assert (x ∉ right_list at') as Nr.
  { rewrite Hrl, list_sort_elem_of. unfold _filter.
    rewrite list_elem_of_filter. tauto. }
  assert (x ∉ common at') as Nc by (intros [? _]%H1; done).
  assert (x ∉ common_files at') as Ncf.
  { rewrite Hcf, list_elem_of_filter. tauto. }
  split_and!; try done.
  - by intros [? _]%H2.
  - by intros [? _]%H3.
  - rewrite Hcd, list_elem_of_filter. tauto.
  - rewrite Hcy, list_elem_of_filter. tauto.
  - intros Hx. apply Ncf. eapply elem_of_submseteq; [done|].
    by apply sublist_submseteq.
  - intros Hx. apply Ncf. eapply elem_of_submseteq; [done|].
    by apply sublist_submseteq.
  - intros Hx. apply Ncf. eapply elem_of_submseteq; [done|].
    by apply sublist_submseteq.
Qed.

Lemma classify_hides_skipped_names_witness :
  ("__pycache__"%string ∉ left_list attrs_mixed) ∧
  ("__pycache__"%string ∉ left_only attrs_mixed).
Proof.
  assert (classify fs_mixed posix (dircmp_init "A" "B" None None)
            initial_world
          = (Ok attrs_mixed,
             (classify fs_mixed posix (dircmp_init "A" "B" None None)
                initial_world).2)) as Hrun
    by (apply run_eq; vm_compute; reflexivity).
  destruct (classify_hides_skipped_names _ _ _ _ _ _ "__pycache__"%string Hrun)
    as (H1 & _ & _ & H2 & _); [vm_compute; set_solver|].
  split; assumption.
Defined.

(** X16.  The classifier touches the cache in [phase3] only, and keeps its two
    properties: no stale entry for an unchanged file system, and at most
    101 entries. *)
Theorem classify_keeps_cache_invariants fs os_path self w at' w' :
  classify fs os_path self w = (Ok at', w') →
  cache_ok fs (_cache w) → (size (_cache w) ≤ 101)%nat →
  cache_ok fs (_cache w') ∧ (size (_cache w') ≤ 101)%nat ∧
  (common_files at' = [] → _cache w' = _cache w).
Proof.
  intros (l & r & _ & _ & _ & _ & _ & _ & _ & _ & w2 & Hw2 & Hp3)
    %classify_inv Hok Hsize.
  rewrite <-Hw2 in Hok, Hsize.
  pose proof (compare_many_spec_invariants fs os_path (dircmp.left self)
                (dircmp.right self) (common_files at') false w2 Hok Hsize)
    as [Hok' Hsize'].
  rewrite cmpfiles_run in Hp3. injection Hp3 as _ Hw'. rewrite Hw' in *.
  split_and!; try done.
  intros Hnil. rewrite Hnil in Hw'. cbn in Hw'. by rewrite <-Hw', Hw2.
Qed.

Lemma classify_keeps_cache_invariants_witness :
  (size (_cache (classify fs_mixed posix (dircmp_init "A" "B" None None)
                   initial_world).2) ≤ 101)%nat.
Proof.
  assert (classify fs_mixed posix (dircmp_init "A" "B" None None)
            initial_world
          = (Ok attrs_mixed,
             (classify fs_mixed posix (dircmp_init "A" "B" None None)
                initial_world).2)) as Hrun
    by (apply run_eq; vm_compute; reflexivity).
  destruct (classify_keeps_cache_invariants _ _ _ _ _ _ Hrun)
    as (_ & H & _); [apply cache_ok_empty|vm_compute; lia|exact H].
Defined.

(* ===================================================================== *)
(** ** Padding and path clipping                                          *)
(* ===================================================================== *)

Lemma str_chars_app s1 s2 :
  str_chars (s1 +:+ s2) = str_chars s1 ++ str_chars s2.
Proof.
  induction s1 as [|c s1 IH]; [done|].
  change (String c s1 +:+ s2) with (String c (s1 +:+ s2)).
  cbn [str_chars app]. by rewrite IH.
Qed.

Lemma str_chars_length s : length (str_chars s) = String.length s.
Proof. induction s as [|c s IH]; cbn; [done|]. by rewrite IH. Qed.

Lemma str_chars_inj s1 s2 : str_chars s1 = str_chars s2 → s1 = s2.
Proof.
  revert s2. induction s1 as [|c s1 IH]; intros [|c2 s2]; cbn; try done.
  intros [= -> ?]. f_equal. by apply IH.
Qed.

Lemma str_length_app s1 s2 :
  String.length (s1 +:+ s2) = (String.length s1 + String.length s2)%nat.
Proof. by rewrite <-!str_chars_length, str_chars_app, length_app. Qed.

Lemma pad_loop_chars (steps : list Z) (acc : string) :
  str_chars (fold_left (λ spaces _, spaces +:+ " "%string) steps acc)
  = str_chars acc ++ replicate (length steps) (Ascii.ascii_of_nat 32).
Proof.
  revert acc. induction steps as [|i steps IH]; intros acc; cbn [fold_left].
  - cbn. by rewrite app_nil_r.
  - rewrite IH, str_chars_app. cbn. by rewrite <-app_assoc.
Qed.

Lemma py_len_app s1 s2 : py_len (s1 +:+ s2) = (py_len s1 + py_len s2)%nat.
Proof.
  induction s1 as [|c s1 IH]; [done|].
  change (String c s1 +:+ s2) with (String c (s1 +:+ s2)).
  cbn [py_len]. rewrite IH. lia.
Qed.

Lemma py_len_spaces s n :
  str_chars s = replicate n (Ascii.ascii_of_nat 32) → py_len s = n.
Proof.
  revert n. induction s as [|c s IH]; intros [|n]; cbn; try done.
  intros [= -> H]. by rewrite (IH n H).
Qed.

Lemma py_len_le s : (py_len s ≤ String.length s)%nat.
Proof. induction s as [|c s IH]; cbn; [done|]. case_match; lia. Qed.

Lemma addSpace_chars (name : string) :
  str_chars (addSpace name)
  = replicate (40 - py_len name) (Ascii.ascii_of_nat 32).
Proof.
  unfold addSpace. cbv zeta. rewrite pad_loop_chars. cbn [str_chars app].
  unfold py_range. rewrite length_fmap, length_seq. f_equal. lia.
Qed.

Lemma addSpace_pads_to_column_40_aux (name : string) :
  py_len (addSpace name) = (40 - py_len name)%nat ∧
  py_len (name +:+ addSpace name) = (py_len name `max` 40)%nat.
Proof.
  assert (py_len (addSpace name) = (40 - py_len name)%nat) as Hl
    by apply py_len_spaces, addSpace_chars.
  split; [done|]. rewrite py_len_app, Hl. lia.
Qed.

(** The two-byte name [U+00E9] and a name of three three-byte characters
    are padded with 39 and with 37 spaces. *)
Example addSpace_counts_characters :
  String.length
    (addSpace (String (Ascii.ascii_of_nat 195)
                 (String (Ascii.ascii_of_nat 169) ""))) = 39%nat ∧
  String.length
    (addSpace
       (String.string_of_list_ascii
          (Ascii.ascii_of_nat <$>
             [230; 151; 165; 230; 156; 172; 232; 170; 158]%nat))) = 37%nat.
Proof. split; vm_compute; reflexivity. Qed.

(** X17.  [addSpace] returns [40 - len(name)] spaces, [len] counting the
    characters of the name, and none when the name has 40 characters or
    more; so a name of at most 40 characters followed by its padding is 40
    characters long, and a longer name is followed by nothing.  The
    characters of a name are at most its bytes. *)
Theorem addSpace_pads_to_column_40 (name : string) :
  str_chars (addSpace name)
  = replicate (40 - py_len name) (Ascii.ascii_of_nat 32) ∧
  py_len (addSpace name) = (40 - py_len name)%nat ∧
  py_len (name +:+ addSpace name) = (py_len name `max` 40)%nat ∧
  (py_len name ≤ String.length name)%nat.
Proof.
  split; [apply addSpace_chars|].
  destruct (addSpace_pads_to_column_40_aux name) as [Hl Hp].
  split; [done|]. split; [done|]. apply py_len_le.
Qed.

Lemma str_replace_char_chars old new s :
  str_chars (str_replace_char old new s)
  = (λ c, if decide (c = old) then new else c) <$> str_chars s.
Proof. induction s as [|c s IH]; cbn; [done|]. by rewrite IH. Qed.

(** X18.  [clipPath] turns every backslash into a slash and nothing else: the
    result has the length of the path and no backslash, a path without
    backslash is returned as it is, clipping twice is clipping once, and
    clipping a concatenation is concatenating the clipped parts. *)
Theorem clipPath_replaces_backslashes (path : string) :
  String.length (clipPath path) = String.length path ∧
  (backslash ∉ str_chars (clipPath path)) ∧
  clipPath (clipPath path) = clipPath path ∧
  (backslash ∉ str_chars path → clipPath path = path) ∧
  (∀ i c, str_chars path !! i = Some c →
          str_chars (clipPath path) !! i
          = Some (if decide (c = backslash) then slash else c)) ∧
  ∀ rest, clipPath (path +:+ rest) = clipPath path +:+ clipPath rest.
Proof.
  unfold clipPath.
  assert (∀ s, backslash ∉ str_chars s →
               str_replace_char backslash slash s = s) as Hid.
  { intros s Hs. apply str_chars_inj. rewrite str_replace_char_chars.
    induction (str_chars s) as [|c l IH]; [done|].
    cbn. rewrite decide_False by set_solver. f_equal. apply IH. set_solver. }
  assert (backslash ∉ str_chars (str_replace_char backslash slash path))
    as Hclean.
  { rewrite str_replace_char_chars.
    intros (c & Hc & _)%list_elem_of_fmap. by case_decide. }
  split_and!; try done.
  - by rewrite <-!str_chars_length, str_replace_char_chars, length_fmap.
  - by apply Hid.
  - apply Hid.
  - intros i c Hi. by rewrite str_replace_char_chars, list_lookup_fmap, Hi.
  - intros rest. apply str_chars_inj.
    by rewrite str_chars_app, !str_replace_char_chars, str_chars_app, fmap_app.
Qed.

Lemma clipPath_replaces_backslashes_witness :
  clipPath "C:/work/a" = "C:/work/a"%string.
Proof.
  apply (proj1 (proj2 (proj2 (proj2
           (clipPath_replaces_backslashes "C:/work/a"))))).
  vm_compute. set_solver.
Defined.

(* ===================================================================== *)
(** ** Sub-directories                                                    *)
(* ===================================================================== *)

Section OrderedDict.
Context {V : Type} (g : string → V).

Lemma odict_setitem_keys k (v : V) d k' :
  k' ∈ (odict_setitem k v d).*1 ↔ k' = k ∨ k' ∈ d.*1.
Proof.
  induction d as [|[k0 v0] d IH]; cbn.
  - rewrite list_elem_of_singleton. set_solver.
  - case_decide; subst; cbn; set_solver.
Qed.

Lemma odict_setitem_items k (v : V) d k' v' :
  (k', v') ∈ odict_setitem k v d → (k', v') = (k, v) ∨ (k', v') ∈ d.
Proof.
  induction d as [|[k0 v0] d IH]; cbn.
  - rewrite list_elem_of_singleton. auto.
  - case_decide; subst; set_solver.
Qed.

Lemma odict_setitem_fresh k (v : V) d :
  k ∉ d.*1 → odict_setitem k v d = d ++ [(k, v)].
Proof.
  induction d as [|[k0 v0] d IH]; cbn; [done|].
  intros Hk. rewrite decide_False by set_solver. f_equal. apply IH. set_solver.
Qed.

Lemma odict_setitem_NoDup k (v : V) d :
  NoDup d.*1 → NoDup (odict_setitem k v d).*1.
Proof.
  induction d as [|[k0 v0] d IH]; cbn; [intros _; apply NoDup_singleton|].
  intros [Hk0 Hd]%NoDup_cons. case_decide; subst; cbn.
  - by apply NoDup_cons.
  - apply NoDup_cons. split; [|by apply IH].
    rewrite odict_setitem_keys. set_solver.
Qed.

Lemma odict_fill_keys l d0 k :
  k ∈ (fold_left (λ d x, odict_setitem x (g x) d) l d0).*1
  ↔ k ∈ l ∨ k ∈ d0.*1.
Proof.
  revert d0. induction l as [|x l IH]; intros d0; cbn; [set_solver|].
  rewrite IH, odict_setitem_keys. set_solver.
Qed.

Lemma odict_fill_items l d0 k v :
  (k, v) ∈ fold_left (λ d x, odict_setitem x (g x) d) l d0 →
  (k ∈ l ∧ v = g k) ∨ (k, v) ∈ d0.
Proof.
  revert d0. induction l as [|x l IH]; intros d0; cbn; [auto|].
  intros [H|H]%IH; [set_solver|].
  apply odict_setitem_items in H as [[= -> ->]|H]; set_solver.
Qed.

Lemma odict_fill_NoDup l d0 :
  NoDup d0.*1 →
  NoDup (fold_left (λ d x, odict_setitem x (g x) d) l d0).*1.
Proof.
  revert d0. induction l as [|x l IH]; intros d0 Hd0; [done|].
  cbn. by apply IH, odict_setitem_NoDup.
Qed.

Lemma odict_fill_fresh l d0 :
  NoDup (d0.*1 ++ l) →
  fold_left (λ d x, odict_setitem x (g x) d) l d0
  = d0 ++ ((λ x, (x, g x)) <$> l).
Proof.
  revert d0. induction l as [|x l IH]; intros d0 Hd0; cbn.
  - by rewrite app_nil_r.
  - apply NoDup_app in Hd0 as (Hd & Hdis & [Hx Hl]%NoDup_cons).
    rewrite odict_setitem_fresh by set_solver.
    rewrite IH; [by rewrite <-app_assoc|].
    rewrite fmap_app. cbn. rewrite <-app_assoc. cbn.
    apply NoDup_app. split_and!; [done|set_solver|by apply NoDup_cons].
Qed.

End OrderedDict.

(** X19.  [phase4] makes one child per common sub-directory and nothing else:
    the child of [x] compares [join(left, x)] with [join(right, x)] and
    inherits the parent's hide and ignore lists, each as itself; the keys of
    [subdirs] are pairwise different and, the names of [common_dirs] being
    pairwise different, are [common_dirs] in its order. *)
Theorem phase4_subdirs os_path self common_dirs :
  (∀ x child,
     (x, child) ∈ phase4 os_path self common_dirs
     ↔ x ∈ common_dirs ∧
       child = dircmp.mk (path_join os_path (dircmp.left self) x)
                 (path_join os_path (dircmp.right self) x)
                 (dircmp.hide self) (dircmp.ignore self)) ∧
  NoDup (phase4 os_path self common_dirs).*1 ∧
  (NoDup common_dirs → (phase4 os_path self common_dirs).*1 = common_dirs).
Proof.
  unfold phase4. cbv zeta.
  set (g := λ x, dircmp_init (path_join os_path (dircmp.left self) x)
                   (path_join os_path (dircmp.right self) x)
                   (Some (dircmp.ignore self)) (Some (dircmp.hide self))).
  change (fold_left _ common_dirs [])
    with (fold_left (λ d x, odict_setitem x (g x) d) common_dirs []).
  split_and!.
  - intros x child. split.
    + intros [H|H]%odict_fill_items; [done|by apply elem_of_nil in H].
    + intros [Hx ->].
      assert (x ∈ (fold_left (λ d x, odict_setitem x (g x) d)
                     common_dirs []).*1) as Hk
        by (apply odict_fill_keys; by left).
      apply list_elem_of_fmap in Hk as ([k v] & -> & Hkv).
      pose proof Hkv as [[_ ->]|H]%odict_fill_items;
        [done|by apply elem_of_nil in H].
  - apply odict_fill_NoDup, NoDup_nil_2.
  - intros Hnd. rewrite odict_fill_fresh by done.
    cbn. rewrite <-list_fmap_compose. apply list_fmap_id.
Qed.

Lemma phase4_subdirs_witness :
  (phase4 posix (dircmp_init "A" "B" None None) ["d"; "e"]%string).*1
  = ["d"; "e"]%string.
Proof.
  apply (proj2 (proj2 (phase4_subdirs posix (dircmp_init "A" "B" None None)
                         ["d"; "e"]%string))).
  repeat constructor; set_solver.
Defined.

(* ===================================================================== *)
(** ** The report                                                         *)
(* ===================================================================== *)

Lemma clipPath_clean path : backslash ∉ str_chars (clipPath path).
Proof.
  unfold clipPath. rewrite str_replace_char_chars.
  intros (c & Hc & _)%list_elem_of_fmap. by case_decide.
Qed.

Lemma dict_setitem_clipped path v d :
  keys_clipped d → keys_clipped (dict_setitem (clipPath path) v d).
Proof.
  intros Hd k [->|Hk]%dict_setitem_keys; [apply clipPath_clean|by apply Hd].
Qed.

Lemma fill_clipped os_path root names d :
  keys_clipped d →
  keys_clipped
    (fold_left
       (λ d name, dict_setitem (clipPath (path_join os_path root name)) name d)
       names d).
Proof.
  revert d. induction names as [|n names IH]; intros d Hd; [done|].
  cbn. by apply IH, dict_setitem_clipped.
Qed.

Lemma walk_into_clipped os_path walk dd ff :
  keys_clipped dd → keys_clipped ff →
  keys_clipped (walk_into os_path walk dd ff).1 ∧
  keys_clipped (walk_into os_path walk dd ff).2.
Proof.
  unfold walk_into. revert dd ff.
  induction walk as [|[[root directories] files] walk IH]; intros dd ff Hd Hf;
    [done|].
  cbn [fold_left fst snd]. apply IH; by apply fill_clipped.
Qed.

Lemma report_left_entry_clipped fs os_path os_walk left g name :
  globals_clipped g →
  globals_clipped (report_left_entry fs os_path os_walk left g name).
Proof.
  intros (H1 & H2 & H3 & H4). unfold report_left_entry, subContentsDiffDir.
  cbv zeta. destruct (os_path_isdir fs _).
  - cbn [subbedD subbedF addedD addedF].
    pose proof (walk_into_clipped os_path
                  (os_walk (left +:+ "/" +:+ name))
                  (dict_setitem (clipPath (left +:+ "/" +:+ name)) name
                     (subbedD g))
                  (subbedF g) (dict_setitem_clipped _ _ _ H1) H3) as [??].
    destruct (walk_into _ _ _ _) as [dd ff]. by split_and!.
  - destruct (os_path_isfile fs _); [|by split_and!].
    split_and!; try done. by apply dict_setitem_clipped.
Qed.

Lemma report_right_entry_clipped fs os_path os_walk right g name :
  globals_clipped g →
  globals_clipped (report_right_entry fs os_path os_walk right g name).
Proof.
  intros (H1 & H2 & H3 & H4). unfold report_right_entry, addContentsDiffDir.
  cbv zeta. destruct (os_path_isdir fs _).
  - cbn [subbedD subbedF addedD addedF].
    pose proof (walk_into_clipped os_path
                  (os_walk (right +:+ "/" +:+ name))
                  (dict_setitem (clipPath (right +:+ "/" +:+ name)) name
                     (addedD g))
                  (addedF g) (dict_setitem_clipped _ _ _ H2) H4) as [??].
    destruct (walk_into _ _ _ _) as [dd ff]. by split_and!.
  - destruct (os_path_isfile fs _); [|by split_and!].
    split_and!; try done. by apply dict_setitem_clipped.
Qed.

Lemma fold_left_preserves {A B} (P : A → Prop) (f : A → B → A) l a :
  (∀ a b, P a → P (f a b)) → P a → P (fold_left f l a).
Proof.
  intros Hf. revert a. induction l as [|b l IH]; intros a Ha; [done|].
  cbn. by apply IH, Hf.
Qed.

(** X20.  Every key that [report] writes went through [clipPath]: if no key of
    the four dictionaries holds a backslash before, none does after. *)
Theorem report_keeps_keys_clipped fs os_path os_walk self lo ro g :
  globals_clipped g →
  globals_clipped (report fs os_path os_walk self lo ro g).1.
Proof.
  intros Hg. unfold report.
  set (g1 := match lo with
             | [] => (g, lo)
             | _ => (fold_left (report_left_entry fs os_path os_walk
                                  (dircmp.left self)) (list_sort lo) g,
                     list_sort lo)
             end).
  assert (globals_clipped g1.1) as Hg1.
  { subst g1. destruct lo; [done|]. cbn [fst].
    apply (fold_left_preserves globals_clipped); [|done].
    intros. by apply report_left_entry_clipped. }
  destruct g1 as [g1 lo']. cbn [fst] in Hg1.
  destruct ro; [done|]. cbn [fst].
  apply (fold_left_preserves globals_clipped); [|done].
  intros. by apply report_right_entry_clipped.
Qed.

Lemma report_keeps_keys_clipped_witness :
  let g := (report fs_drive posix walk_drive
              (dircmp_init "C:\A" "B" None None)
              ["x.txt"; "sub"]%string [] no_report).1 in
  globals_clipped g ∧
  subbedD g = [("C:/A/sub", "sub"); ("C:/A/sub/deep", "deep")]%string ∧
  subbedF g = [("C:/A/sub/y.txt", "y.txt"); ("C:/A/x.txt", "x.txt")]%string.
Proof.
  cbv zeta. split.
  - apply (report_keeps_keys_clipped fs_drive posix walk_drive
             (dircmp_init "C:\A" "B" None None)).
    repeat split; by intros k ?%elem_of_nil.
  - split; vm_compute; reflexivity.
Defined.

Lemma isdir_not_isfile fs path :
  os_path_isdir fs path = true → os_path_isfile fs path = false.
Proof.
  unfold os_path_isdir, os_path_isfile, S_ISDIR, S_ISREG.
  destruct (fs_stat fs path) as [st|]; [|done].
  intros Hd%bool_decide_eq_true. apply bool_decide_eq_false_2.
  rewrite Hd. done.
Qed.

Lemma walk_into_fst_frame os_path walk dd ff ff' :
  (walk_into os_path walk dd ff).1 = (walk_into os_path walk dd ff').1.
Proof.
  unfold walk_into. revert dd ff ff'.
  induction walk as [|[[root directories] files] walk IH]; intros dd ff ff';
    [done|].
  cbn [fold_left fst snd]. apply IH.
Qed.

Lemma walk_into_snd_frame os_path walk dd dd' ff :
  (walk_into os_path walk dd ff).2 = (walk_into os_path walk dd' ff).2.
Proof.
  unfold walk_into. revert dd dd' ff.
  induction walk as [|[[root directories] files] walk IH]; intros dd dd' ff;
    [done|].
  cbn [fold_left fst snd]. apply IH.
Qed.

Section ReportFacts.
Variable fs : FileSystem.
Variable os_path : OsPath.
Variable os_walk : string → list (string * list string * list string).

Lemma subContentsDiffDir_eq path g :
  subContentsDiffDir os_path os_walk path g
  = mk_globals
      (walk_into os_path (os_walk path) (subbedD g) (subbedF g)).1 (addedD g)
      (walk_into os_path (os_walk path) (subbedD g) (subbedF g)).2 (addedF g)
      (subbedFiles g) (addedFiles g).
Proof. unfold subContentsDiffDir. by destruct (walk_into _ _ _ _). Qed.

Lemma addContentsDiffDir_eq path g :
  addContentsDiffDir os_path os_walk path g
  = mk_globals (subbedD g)
      (walk_into os_path (os_walk path) (addedD g) (addedF g)).1 (subbedF g)
      (walk_into os_path (os_walk path) (addedD g) (addedF g)).2
      (subbedFiles g) (addedFiles g).
Proof. unfold addContentsDiffDir. by destruct (walk_into _ _ _ _). Qed.

Lemma report_left_entry_frame left g name :
  let g' := report_left_entry fs os_path os_walk left g name in
  addedD g' = addedD g ∧ addedF g' = addedF g ∧
  addedFiles g' = addedFiles g ∧
  subbedFiles g'
  = subbedFiles g
    ++ (if os_path_isfile fs (left +:+ "/" +:+ name) then [name] else []).
Proof.
  cbv zeta. unfold report_left_entry, subContentsDiffDir. cbv zeta.
  destruct (os_path_isdir fs _) eqn:Hd.
  - rewrite (isdir_not_isfile _ _ Hd).
    destruct (walk_into _ _ _ _) as [dd ff]. cbn. by rewrite app_nil_r.
  - destruct (os_path_isfile fs _); cbn; by rewrite ?app_nil_r.
Qed.

Lemma report_right_entry_frame right g name :
  let g' := report_right_entry fs os_path os_walk right g name in
  subbedD g' = subbedD g ∧ subbedF g' = subbedF g ∧
  subbedFiles g' = subbedFiles g ∧
  addedFiles g'
  = addedFiles g
    ++ (if os_path_isfile fs (right +:+ "/" +:+ name) then [name] else []).
Proof.
  cbv zeta. unfold report_right_entry, addContentsDiffDir. cbv zeta.
  destruct (os_path_isdir fs _) eqn:Hd.
  - rewrite (isdir_not_isfile _ _ Hd).
    destruct (walk_into _ _ _ _) as [dd ff]. cbn. by rewrite app_nil_r.
  - destruct (os_path_isfile fs _); cbn; by rewrite ?app_nil_r.
Qed.

Lemma report_left_fold_frame left names g :
  let g' := fold_left (report_left_entry fs os_path os_walk left) names g in
  addedD g' = addedD g ∧ addedF g' = addedF g ∧
  addedFiles g' = addedFiles g ∧
  subbedFiles g'
  = subbedFiles g
    ++ filter (λ n, os_path_isfile fs (left +:+ "/" +:+ n) = true) names.
Proof.
  cbv zeta. revert g. induction names as [|n names IH]; intros g.
  - cbn. by rewrite app_nil_r.
  - cbn [fold_left]. destruct (IH (report_left_entry fs os_path os_walk left g n))
      as (-> & -> & -> & ->).
    destruct (report_left_entry_frame left g n) as (-> & -> & -> & ->).
    split_and!; try done. rewrite filter_cons, <-app_assoc.
    destruct (os_path_isfile fs _); by repeat case_decide.
Qed.

Lemma report_right_fold_frame right names g :
  let g' := fold_left (report_right_entry fs os_path os_walk right) names g in
  subbedD g' = subbedD g ∧ subbedF g' = subbedF g ∧
  subbedFiles g' = subbedFiles g ∧
  addedFiles g'
  = addedFiles g
    ++ filter (λ n, os_path_isfile fs (right +:+ "/" +:+ n) = true) names.
Proof.
  cbv zeta. revert g. induction names as [|n names IH]; intros g.
  - cbn. by rewrite app_nil_r.
  - cbn [fold_left].
    destruct (IH (report_right_entry fs os_path os_walk right g n))
      as (-> & -> & -> & ->).
    destruct (report_right_entry_frame right g n) as (-> & -> & -> & ->).
    split_and!; try done. rewrite filter_cons, <-app_assoc.
    destruct (os_path_isfile fs _); by repeat case_decide.
Qed.

(** What the right-hand loop does to the added dictionaries depends on
    those dictionaries alone. *)
Lemma report_right_fold_added right names g g0 :
  addedD g = addedD g0 → addedF g = addedF g0 →
  let g' := fold_left (report_right_entry fs os_path os_walk right) names g in
  let g0' := fold_left (report_right_entry fs os_path os_walk right) names g0 in
  addedD g' = addedD g0' ∧ addedF g' = addedF g0'.
Proof.
  cbv zeta. revert g g0. induction names as [|n names IH]; intros g g0 HD HF;
    [done|].
  cbn [fold_left]. apply IH.
  - unfold report_right_entry. cbv zeta.
    destruct (os_path_isdir fs _); [|by destruct (os_path_isfile fs _)].
    rewrite !addContentsDiffDir_eq. cbn [addedD addedF]. rewrite HD.
    apply walk_into_fst_frame.
  - unfold report_right_entry. cbv zeta.
    destruct (os_path_isdir fs _);
      [|destruct (os_path_isfile fs _); cbn; by rewrite ?HF].
    rewrite !addContentsDiffDir_eq. cbn [addedD addedF]. rewrite HF.
    apply walk_into_snd_frame.
Qed.

End ReportFacts.

(** The guards [if self.left_only:] and [if self.right_only:] change
    nothing: sorting and looping over an empty list do nothing. *)
Lemma report_eq fs os_path os_walk self lo ro g :
  report fs os_path os_walk self lo ro g
  = (fold_left (report_right_entry fs os_path os_walk (dircmp.right self))
       (list_sort ro)
       (fold_left (report_left_entry fs os_path os_walk (dircmp.left self))
          (list_sort lo) g),
     (list_sort lo, list_sort ro)).
Proof. unfold report. by destruct lo, ro. Qed.

(** X21.  [report] sorts both attributes in place, appends to [subbedFiles] the
    left-only names that are regular files and to [addedFiles] the
    right-only names that are regular files, each in sorted order and after
    what the list already held; so a second [report] appends them again. *)
Theorem report_file_lists fs os_path os_walk self lo ro g :
  let res := report fs os_path os_walk self lo ro g in
  res.2 = (list_sort lo, list_sort ro) ∧
  subbedFiles res.1
  = subbedFiles g
    ++ filter (λ n, os_path_isfile fs (dircmp.left self +:+ "/" +:+ n) = true)
         (list_sort lo) ∧
  addedFiles res.1
  = addedFiles g
    ++ filter (λ n, os_path_isfile fs (dircmp.right self +:+ "/" +:+ n) = true)
         (list_sort ro) ∧
  subbedFiles (report fs os_path os_walk self res.2.1 res.2.2 res.1).1
  = subbedFiles g
    ++ filter (λ n, os_path_isfile fs (dircmp.left self +:+ "/" +:+ n) = true)
         (list_sort lo)
    ++ filter (λ n, os_path_isfile fs (dircmp.left self +:+ "/" +:+ n) = true)
         (list_sort lo).
Proof.
  cbv zeta. rewrite !report_eq. cbn [fst snd].
  assert (∀ g0,
    subbedFiles
      (fold_left (report_right_entry fs os_path os_walk (dircmp.right self))
         (list_sort ro)
         (fold_left (report_left_entry fs os_path os_walk (dircmp.left self))
            (list_sort lo) g0))
    = subbedFiles g0
      ++ filter (λ n, os_path_isfile fs (dircmp.left self +:+ "/" +:+ n) = true)
           (list_sort lo)) as Hsub.
  { intros g0.
    destruct (report_right_fold_frame fs os_path os_walk (dircmp.right self)
                (list_sort ro)
                (fold_left (report_left_entry fs os_path os_walk
                              (dircmp.left self)) (list_sort lo) g0))
      as (_ & _ & -> & _).
    by destruct (report_left_fold_frame fs os_path os_walk (dircmp.left self)
                   (list_sort lo) g0) as (_ & _ & _ & ->). }
  split; [done|]. split; [apply Hsub|]. split.
  - destruct (report_right_fold_frame fs os_path os_walk (dircmp.right self)
                (list_sort ro)
                (fold_left (report_left_entry fs os_path os_walk
                              (dircmp.left self)) (list_sort lo) g))
      as (_ & _ & _ & ->).
    by destruct (report_left_fold_frame fs os_path os_walk (dircmp.left self)
                   (list_sort lo) g) as (_ & _ & -> & _).
  - assert (list_sort (list_sort lo) = list_sort lo) as ->.
    { apply (StronglySorted_unique str_le);
        try (apply StronglySorted_merge_sort; apply _).
      apply merge_sort_Permutation. }
    assert (list_sort (list_sort ro) = list_sort ro) as ->.
    { apply (StronglySorted_unique str_le);
        try (apply StronglySorted_merge_sort; apply _).
      apply merge_sort_Permutation. }
    by rewrite Hsub, Hsub, <-app_assoc.
Qed.

(** X22.  The two sides do not mix: what [report] leaves in [subbedD], [subbedF]
    and [subbedFiles] does not depend on [right_only], and what it leaves in
    [addedD], [addedF] and [addedFiles] does not depend on [left_only]. *)
Theorem report_sides_independent fs os_path os_walk self lo ro g :
  let both := (report fs os_path os_walk self lo ro g).1 in
  let left_alone := (report fs os_path os_walk self lo [] g).1 in
  let right_alone := (report fs os_path os_walk self [] ro g).1 in
  subbedD both = subbedD left_alone ∧ subbedF both = subbedF left_alone ∧
  subbedFiles both = subbedFiles left_alone ∧
  addedD both = addedD right_alone ∧ addedF both = addedF right_alone ∧
  addedFiles both = addedFiles right_alone.
Proof.
  cbv zeta. rewrite !report_eq. cbn [fst].
  change (list_sort []) with (@nil string). cbn [fold_left].
  set (g1 := fold_left (report_left_entry fs os_path os_walk (dircmp.left self))
               (list_sort lo) g).
  destruct (report_right_fold_frame fs os_path os_walk (dircmp.right self)
              (list_sort ro) g1) as (-> & -> & -> & Hfiles).
  destruct (report_left_fold_frame fs os_path os_walk (dircmp.left self)
              (list_sort lo) g) as (HD & HF & Hfl & _).
  fold g1 in HD, HF, Hfl.
  destruct (report_right_fold_added fs os_path os_walk (dircmp.right self)
              (list_sort ro) g1 g HD HF) as [-> ->].
  split_and!; try done.
  rewrite Hfiles, Hfl.
  by destruct (report_right_fold_frame fs os_path os_walk (dircmp.right self)
                 (list_sort ro) g) as (_ & _ & _ & ->).
Qed.

(** X23.  Names that are neither a directory nor a regular file, such as a
    dangling link or a named pipe, leave no trace in the report. *)
Theorem report_skips_other_entries fs os_path os_walk self lo ro g :
  (∀ n, n ∈ lo →
        os_path_isdir fs (dircmp.left self +:+ "/" +:+ n) = false ∧
        os_path_isfile fs (dircmp.left self +:+ "/" +:+ n) = false) →
  (∀ n, n ∈ ro →
        os_path_isdir fs (dircmp.right self +:+ "/" +:+ n) = false ∧
        os_path_isfile fs (dircmp.right self +:+ "/" +:+ n) = false) →
  (report fs os_path os_walk self lo ro g).1 = g.
Proof.
  intros Hlo Hro. rewrite report_eq. cbn [fst].
  assert (∀ names, (∀ n, n ∈ names → n ∈ lo) →
            fold_left (report_left_entry fs os_path os_walk (dircmp.left self))
              names g = g) as Hl.
  { induction names as [|n names IH]; intros Hn; [done|].
    cbn [fold_left]. unfold report_left_entry at 2. cbv zeta.
    destruct (Hlo n) as [-> ->]; [set_solver|]. apply IH. set_solver. }
  assert (∀ names, (∀ n, n ∈ names → n ∈ ro) →
            fold_left (report_right_entry fs os_path os_walk (dircmp.right self))
              names g = g) as Hr.
  { induction names as [|n names IH]; intros Hn; [done|].
    cbn [fold_left]. unfold report_right_entry at 2. cbv zeta.
    destruct (Hro n) as [-> ->]; [set_solver|]. apply IH. set_solver. }
  rewrite Hl by (intros n; by rewrite list_sort_elem_of).
  apply Hr. intros n. by rewrite list_sort_elem_of.
Qed.

Lemma report_skips_other_entries_witness :
  (report fs_pipe posix (λ _, []) (dircmp_init "D" "E" None None)
     ["pipe"]%string ["nothing"]%string no_report).1 = no_report.
Proof.
  apply (report_skips_other_entries fs_pipe posix (λ _, [])
           (dircmp_init "D" "E" None None)).
  - intros n ->%list_elem_of_singleton. split; reflexivity.
  - intros n ->%list_elem_of_singleton. split; reflexivity.
Defined.

Lemma fill_mono os_path root names d k :
  k ∈ dict_iter d →
  k ∈ dict_iter
        (fold_left
           (λ d name,
              dict_setitem (clipPath (path_join os_path root name)) name d)
           names d).
Proof.
  revert d. induction names as [|n names IH]; intros d Hk; [done|].
  cbn. apply IH, dict_setitem_keys. by right.
Qed.

Lemma walk_into_mono os_path walk dd ff k :
  (k ∈ dict_iter dd → k ∈ dict_iter (walk_into os_path walk dd ff).1) ∧
  (k ∈ dict_iter ff → k ∈ dict_iter (walk_into os_path walk dd ff).2).
Proof.
  unfold walk_into. revert dd ff.
  induction walk as [|[[root directories] files] walk IH]; intros dd ff;
    [done|].
  cbn [fold_left fst snd].
  split; intros Hk; apply IH; by apply fill_mono.
Qed.

Section ReportKeys.
Variable fs : FileSystem.
Variable os_path : OsPath.
Variable os_walk : string → list (string * list string * list string).

Lemma report_left_entry_mono left g name k :
  let g' := report_left_entry fs os_path os_walk left g name in
  (k ∈ dict_iter (subbedD g) → k ∈ dict_iter (subbedD g')) ∧
  (k ∈ dict_iter (subbedF g) → k ∈ dict_iter (subbedF g')).
Proof.
  cbv zeta. unfold report_left_entry. cbv zeta.
  destruct (os_path_isdir fs _).
  - rewrite subContentsDiffDir_eq. cbn [subbedD subbedF].
    split; intros Hk; apply walk_into_mono; [|done].
    apply dict_setitem_keys. by right.
  - destruct (os_path_isfile fs _); [|done]. cbn [subbedD subbedF].
    split; [done|]. intros Hk. apply dict_setitem_keys. by right.
Qed.

Lemma report_left_entry_records left g name :
  let g' := report_left_entry fs os_path os_walk left g name in
  let path := left +:+ "/" +:+ name in
  (os_path_isdir fs path = true → clipPath path ∈ dict_iter (subbedD g')) ∧
  (os_path_isdir fs path = false → os_path_isfile fs path = true →
   clipPath path ∈ dict_iter (subbedF g')).
Proof.
  cbv zeta. unfold report_left_entry. cbv zeta.
  destruct (os_path_isdir fs _).
  - split; [|done]. intros _. rewrite subContentsDiffDir_eq. cbn [subbedD].
    apply walk_into_mono, dict_setitem_keys. by left.
  - split; [done|]. intros _ ->. cbn [subbedF].
    apply dict_setitem_keys. by left.
Qed.

Lemma report_left_fold_mono left names g k :
  let g' := fold_left (report_left_entry fs os_path os_walk left) names g in
  (k ∈ dict_iter (subbedD g) → k ∈ dict_iter (subbedD g')) ∧
  (k ∈ dict_iter (subbedF g) → k ∈ dict_iter (subbedF g')).
Proof.
  cbv zeta. revert g. induction names as [|n names IH]; intros g; [done|].
  cbn [fold_left].
  destruct (IH (report_left_entry fs os_path os_walk left g n)) as [HD HF].
  destruct (report_left_entry_mono left g n k) as [HD' HF']. auto.
Qed.

Lemma report_left_fold_records left names g name :
  name ∈ names →
  let g' := fold_left (report_left_entry fs os_path os_walk left) names g in
  let path := left +:+ "/" +:+ name in
  (os_path_isdir fs path = true → clipPath path ∈ dict_iter (subbedD g')) ∧
  (os_path_isdir fs path = false → os_path_isfile fs path = true →
   clipPath path ∈ dict_iter (subbedF g')).
Proof.
  cbv zeta. revert g. induction names as [|n names IH]; intros g;
    [by intros ?%elem_of_nil|].
  intros [->|Hn]%elem_of_cons; cbn [fold_left]; [|by apply IH].
  destruct (report_left_entry_records left g n) as [HD HF].
  split; intros; apply report_left_fold_mono; auto.
Qed.

Lemma report_right_entry_mono right g name k :
  let g' := report_right_entry fs os_path os_walk right g name in
  (k ∈ dict_iter (addedD g) → k ∈ dict_iter (addedD g')) ∧
  (k ∈ dict_iter (addedF g) → k ∈ dict_iter (addedF g')).
Proof.
  cbv zeta. unfold report_right_entry. cbv zeta.
  destruct (os_path_isdir fs _).
  - rewrite addContentsDiffDir_eq. cbn [addedD addedF].
    split; intros Hk; apply walk_into_mono; [|done].
    apply dict_setitem_keys. by right.
  - destruct (os_path_isfile fs _); [|done]. cbn [addedD addedF].
    split; [done|]. intros Hk. apply dict_setitem_keys. by right.
Qed.

Lemma report_right_entry_records right g name :
  let g' := report_right_entry fs os_path os_walk right g name in
  let path := right +:+ "/" +:+ name in
  (os_path_isdir fs path = true → clipPath path ∈ dict_iter (addedD g')) ∧
  (os_path_isdir fs path = false → os_path_isfile fs path = true →
   clipPath path ∈ dict_iter (addedF g')).
Proof.
  cbv zeta. unfold report_right_entry. cbv zeta.
  destruct (os_path_isdir fs _).
  - split; [|done]. intros _. rewrite addContentsDiffDir_eq. cbn [addedD].
    apply walk_into_mono, dict_setitem_keys. by left.
  - split; [done|]. intros _ ->. cbn [addedF].
    apply dict_setitem_keys. by left.
Qed.

Lemma report_right_fold_mono right names g k :
  let g' := fold_left (report_right_entry fs os_path os_walk right) names g in
  (k ∈ dict_iter (addedD g) → k ∈ dict_iter (addedD g')) ∧
  (k ∈ dict_iter (addedF g) → k ∈ dict_iter (addedF g')).
Proof.
  cbv zeta. revert g. induction names as [|n names IH]; intros g; [done|].
  cbn [fold_left].
  destruct (IH (report_right_entry fs os_path os_walk right g n)) as [HD HF].
  destruct (report_right_entry_mono right g n k) as [HD' HF']. auto.
Qed.

Lemma report_right_fold_records right names g name :
  name ∈ names →
  let g' := fold_left (report_right_entry fs os_path os_walk right) names g in
  let path := right +:+ "/" +:+ name in
  (os_path_isdir fs path = true → clipPath path ∈ dict_iter (addedD g')) ∧
  (os_path_isdir fs path = false → os_path_isfile fs path = true →
   clipPath path ∈ dict_iter (addedF g')).
Proof.
  cbv zeta. revert g. induction names as [|n names IH]; intros g;
    [by intros ?%elem_of_nil|].
  intros [->|Hn]%elem_of_cons; cbn [fold_left]; [|by apply IH].
  destruct (report_right_entry_records right g n) as [HD HF].
  split; intros; apply report_right_fold_mono; auto.
Qed.

End ReportKeys.

(** X24.  [report] records every name it is given that is a directory or a
    regular file: after it, the clipped path of a left-only directory is a
    key of [subbedD], that of a left-only regular file a key of [subbedF],
    and likewise on the right with [addedD] and [addedF]; and no key that
    was in one of the four dictionaries is ever removed. *)
Theorem report_records_every_entry fs os_path os_walk self lo ro g name :
  let g' := (report fs os_path os_walk self lo ro g).1 in
  let lpath := dircmp.left self +:+ "/" +:+ name in
  let rpath := dircmp.right self +:+ "/" +:+ name in
  (name ∈ lo → os_path_isdir fs lpath = true →
   clipPath lpath ∈ dict_iter (subbedD g')) ∧
  (name ∈ lo → os_path_isdir fs lpath = false →
   os_path_isfile fs lpath = true → clipPath lpath ∈ dict_iter (subbedF g')) ∧
  (name ∈ ro → os_path_isdir fs rpath = true →
   clipPath rpath ∈ dict_iter (addedD g')) ∧
  (name ∈ ro → os_path_isdir fs rpath = false →
   os_path_isfile fs rpath = true → clipPath rpath ∈ dict_iter (addedF g')) ∧
  (∀ k, (k ∈ dict_iter (subbedD g) → k ∈ dict_iter (subbedD g')) ∧
        (k ∈ dict_iter (subbedF g) → k ∈ dict_iter (subbedF g')) ∧
        (k ∈ dict_iter (addedD g) → k ∈ dict_iter (addedD g')) ∧
        (k ∈ dict_iter (addedF g) → k ∈ dict_iter (addedF g'))).
Proof.
  cbv zeta. rewrite report_eq. cbn [fst].
  set (g1 := fold_left (report_left_entry fs os_path os_walk (dircmp.left self))
               (list_sort lo) g).
  destruct (report_right_fold_frame fs os_path os_walk (dircmp.right self)
              (list_sort ro) g1) as (ED & EF & _ & _).
  destruct (report_left_fold_frame fs os_path os_walk (dircmp.left self)
              (list_sort lo) g) as (AD & AF & _ & _).
  fold g1 in AD, AF. rewrite ED, EF.
  split_and!.
  - intros Hn%list_sort_elem_of.
    by apply (report_left_fold_records fs os_path os_walk _ _ g name Hn).
  - intros Hn%list_sort_elem_of.
    by apply (report_left_fold_records fs os_path os_walk _ _ g name Hn).
  - intros Hn%list_sort_elem_of.
    by apply (report_right_fold_records fs os_path os_walk _ _ g1 name Hn).
  - intros Hn%list_sort_elem_of.
    by apply (report_right_fold_records fs os_path os_walk _ _ g1 name Hn).
  - intros k. split_and!.
    + apply report_left_fold_mono.
    + apply report_left_fold_mono.
    + intros Hk. apply report_right_fold_mono. by rewrite AD.
    + intros Hk. apply report_right_fold_mono. by rewrite AF.
Qed.

Lemma report_records_every_entry_witness :
  clipPath ("A" +:+ "/" +:+ "x.txt")
  ∈ dict_iter
      (subbedF (report fs_before posix (λ _, [])
                  (dircmp_init "A" "B" None None)
                  ["x.txt"]%string [] no_report).1).
Proof.
  apply (proj1 (proj2 (report_records_every_entry fs_before posix (λ _, [])
                         (dircmp_init "A" "B" None None)
                         ["x.txt"]%string [] no_report "x.txt")));
    [set_solver|reflexivity|reflexivity].
Defined.

(** X25.  [outReport] prints four headed sections, one line per item of the
    matching dictionary in its order, a blank line after each section and
    two more at the end.  A line is the mark, the name, the padding and the
    key: counted in characters as [len] counts them, for a name of at most
    40 characters the key starts after 42 characters under the marks of two
    characters and after 41 in the section of added directories, whose mark
    is the bare plus sign. *)
Theorem outReport_layout (g : report_globals) :
  length (outReport g)
  = (10 + length (subbedD g) + length (addedD g) + length (subbedF g)
     + length (addedF g))%nat ∧
  (∀ mark key name,
     ∃ prefix,
       report_line mark (key, name) = prefix +:+ key ∧
       py_len prefix = (py_len mark + (py_len name `max` 40))%nat) ∧
  (∀ item, item ∈ subbedD g → report_line "- " item ∈ outReport g) ∧
  (∀ item, item ∈ addedD g → report_line "+" item ∈ outReport g) ∧
  (∀ item, item ∈ subbedF g → report_line "- " item ∈ outReport g) ∧
  (∀ item, item ∈ addedF g → report_line "+ " item ∈ outReport g).
Proof.
  split_and!.
  - unfold outReport. rewrite !length_app, !length_fmap. cbn. lia.
  - intros mark key name. exists (mark +:+ name +:+ addSpace name).
    unfold report_line. cbn [fst snd]. split.
    + apply str_chars_inj. by rewrite !str_chars_app, <-!app_assoc.
    + rewrite (py_len_app mark).
      by destruct (addSpace_pads_to_column_40_aux name) as [_ ->].
  - intros item Hi. unfold outReport. rewrite !elem_of_app.
    right; left. by apply list_elem_of_fmap_2.
  - intros item Hi. unfold outReport. rewrite !elem_of_app.
    do 4 right. left. by apply list_elem_of_fmap_2.
  - intros item Hi. unfold outReport. rewrite !elem_of_app.
    do 7 right. left. by apply list_elem_of_fmap_2.
  - intros item Hi. unfold outReport. rewrite !elem_of_app.
    do 10 right. left. by apply list_elem_of_fmap_2.
Qed.

(* ===================================================================== *)
(** ** Lazy attributes                                                    *)
(* ===================================================================== *)

Lemma getattr_present fs os_path self depth attr s v :
  obj_dict s !! attr = Some v →
  getattr fs os_path self depth attr s = (inl v, s).
Proof. intros H. destruct depth; cbn; by rewrite H. Qed.

Lemma rd_list_present fs os_path self depth attr s l :
  obj_dict s !! attr = Some (VList l) →
  rd_list (getattr fs os_path self depth) attr s = (inl l, s).
Proof.
  intros H. unfold rd_list, obind. by rewrite (getattr_present _ _ _ _ _ _ _ H).
Qed.

Lemma lift_M_run {A} (c : M A) s :
  lift_M c s
  = (match (c (obj_world s)).1 with
     | Ok a => inl a
     | Raise e => inr (PhaseError e)
     end, mk_obj_state (c (obj_world s)).2 (obj_dict s)).
Proof. unfold lift_M. by destruct (c (obj_world s)) as [[a|e] w]. Qed.

Lemma obj_phase0_run fs os_path self depth w D :
  obj_phase0 fs self (getattr fs os_path self depth) (mk_obj_state w D) =
  match fs_listdir fs (dircmp.left self) with
  | None =>
      (inr (PhaseError OSError),
       mk_obj_state (logged w [IoListdir (dircmp.left self)]) D)
  | Some l =>
    match fs_listdir fs (dircmp.right self) with
    | None =>
        (inr (PhaseError OSError),
         mk_obj_state
           (logged w [IoListdir (dircmp.left self);
                      IoListdir (dircmp.right self)])
           (<["left_list" :=
                VList (_filter l (dircmp.hide self ++ dircmp.ignore self))]> D))
    | Some r =>
        (inl tt,
         mk_obj_state
           (logged w [IoListdir (dircmp.left self);
                      IoListdir (dircmp.right self)])
           (<["right_list" :=
                VList (list_sort
                         (_filter r (dircmp.hide self ++ dircmp.ignore self)))]>
            (<["left_list" :=
                 VList (list_sort
                          (_filter l (dircmp.hide self ++ dircmp.ignore self)))]>
               D)))
    end
  end.
Proof.
  unfold obj_phase0, obind at 1. rewrite lift_M_run, os_listdir_run.
  cbn [fst snd obj_world obj_dict].
  destruct (fs_listdir fs (dircmp.left self)) as [l|]; [|done].
  unfold obind at 1, setattr at 1. cbn [obj_world obj_dict].
  unfold obind at 1. rewrite lift_M_run, os_listdir_run.
  cbn [fst snd obj_world obj_dict]. rewrite logged_logged. cbn [app].
  destruct (fs_listdir fs (dircmp.right self)) as [r|]; [|done].
  unfold obind at 1, setattr at 1. cbn [obj_world obj_dict].
  unfold obind at 1.
  rewrite (rd_list_present _ _ _ _ _ _
             (_filter l (dircmp.hide self ++ dircmp.ignore self)))
    by (cbn; by simplify_map_eq).
  unfold obind at 1, setattr at 1. cbn [obj_world obj_dict].
  unfold obind at 1.
  rewrite (rd_list_present _ _ _ _ _ _
             (_filter r (dircmp.hide self ++ dircmp.ignore self)))
    by (cbn; by simplify_map_eq).
  unfold setattr. cbn [obj_world obj_dict]. do 2 f_equal.
  apply map_eq. intros k.
  destruct (decide (k = "right_list"%string)) as [->|];
    [by simplify_map_eq|].
  destruct (decide (k = "left_list"%string)) as [->|]; by simplify_map_eq.
Qed.

Lemma getattr_missing fs os_path self depth attr ph s :
  obj_dict s !! attr = None → assoc methodmap attr = Some ph →
  getattr fs os_path self (S depth) attr s
  = obind (run_phase fs os_path self (getattr fs os_path self depth) ph)
      (λ _, getattr fs os_path self depth attr) s.
Proof. intros H1 H2. cbn [getattr]. by rewrite H1, H2. Qed.

Ltac dict_eq :=
  apply map_eq; intros ?k; rewrite !lookup_insert;
  repeat (case_decide; subst; try done).

Section LazyRuns.
Variable fs : FileSystem.
Variable os_path : OsPath.
Variable self : dircmp.t.
Variables l r : list string.
Hypothesis El : fs_listdir fs (dircmp.left self) = Some l.
Hypothesis Er : fs_listdir fs (dircmp.right self) = Some r.

Let skip := dircmp.hide self ++ dircmp.ignore self.
Let ll := list_sort (_filter l skip).
Let rl := list_sort (_filter r skip).
Let listed (w : world) : world :=
  logged w [IoListdir (dircmp.left self); IoListdir (dircmp.right self)].
Let D0 (D : gmap string attr_value) : gmap string attr_value :=
  <["right_list" := VList rl]> (<["left_list" := VList ll]> D).

Lemma get_left_list_run depth w D :
  D !! "left_list"%string = None →
  getattr fs os_path self (S depth) "left_list" (mk_obj_state w D)
  = (inl (VList ll), mk_obj_state (listed w) (D0 D)).
Proof.
  intros HD. rewrite (getattr_missing _ _ _ _ _ Phase0) by done.
  unfold obind, run_phase. rewrite obj_phase0_run, El, Er.
  apply getattr_present. cbn. subst D0. by simplify_map_eq.
Qed.

Lemma obj_phase1_run depth w D c lo ro :
  D !! "left_list"%string = None →
  phase1 os_path ll rl (listed w) = (Ok (c, lo, ro), listed w) →
  obj_phase1 os_path (getattr fs os_path self (S depth)) (mk_obj_state w D)
  = (inl tt,
     mk_obj_state (listed w)
       (<["right_only" := VList ro]>
        (<["left_only" := VList lo]>
         (<["common" := VList c]> (D0 D))))).
Proof.
  intros HD Hp1. unfold obj_phase1, obind at 1, rd_list at 1, obind at 1.
  rewrite get_left_list_run by done. cbn [as_list oret].
  unfold obind at 1.
  rewrite (rd_list_present _ _ _ _ _ _ rl) by (cbn; subst D0; by simplify_map_eq).
  unfold obind at 1. rewrite lift_M_run. cbn [obj_world obj_dict].
  rewrite Hp1. cbn [fst snd]. by unfold obind, setattr.
Qed.

Lemma get_common_run depth w D c lo ro :
  D !! "left_list"%string = None → D !! "common"%string = None →
  phase1 os_path ll rl (listed w) = (Ok (c, lo, ro), listed w) →
  getattr fs os_path self (S (S depth)) "common" (mk_obj_state w D)
  = (inl (VList c),
     mk_obj_state (listed w)
       (<["right_only" := VList ro]>
        (<["left_only" := VList lo]>
         (<["common" := VList c]> (D0 D))))).
Proof.
  intros HD HD' Hp1. rewrite (getattr_missing _ _ _ _ _ Phase1) by done.
  unfold obind, run_phase. rewrite (obj_phase1_run _ _ _ c lo ro) by done.
  apply getattr_present. cbn. by simplify_map_eq.
Qed.

Lemma obj_phase2_run depth w D c lo ro :
  D !! "left_list"%string = None → D !! "common"%string = None →
  phase1 os_path ll rl (listed w) = (Ok (c, lo, ro), listed w) →
  obj_phase2 fs os_path self (getattr fs os_path self (S (S depth)))
    (mk_obj_state w D)
  = (inl tt,
     mk_obj_state (logged (listed w) (phase2_log os_path self c))
       (<["common_funny" :=
            VList (filter (λ x, kind_of fs os_path self x = KFunny) c)]>
        (<["common_files" :=
             VList (filter (λ x, kind_of fs os_path self x = KFile) c)]>
         (<["common_dirs" :=
              VList (filter (λ x, kind_of fs os_path self x = KDir) c)]>
          (<["right_only" := VList ro]>
           (<["left_only" := VList lo]>
            (<["common" := VList c]> (D0 D)))))))).
Proof.
  intros HD HD' Hp1. unfold obj_phase2.
  do 3 (unfold obind at 1, setattr at 1; cbn [obj_world obj_dict]).
  unfold obind at 1, rd_list at 1, obind at 1.
  rewrite (get_common_run _ _ _ c lo ro) by (done || by simplify_map_eq).
  cbn [as_list oret].
  unfold obind at 1. rewrite lift_M_run. cbn [obj_world obj_dict].
  rewrite phase2_run. cbn [fst snd].
  unfold obind, setattr. cbn [obj_world obj_dict]. do 2 f_equal.
  subst D0. cbv beta. dict_eq.
Qed.

End LazyRuns.

Section LazyDeep.
Variable fs : FileSystem.
Variable os_path : OsPath.
Variable self : dircmp.t.
Variables l r : list string.
Hypothesis El : fs_listdir fs (dircmp.left self) = Some l.
Hypothesis Er : fs_listdir fs (dircmp.right self) = Some r.
Variables c lo ro : list string.

Let skip := dircmp.hide self ++ dircmp.ignore self.
Let ll := list_sort (_filter l skip).
Let rl := list_sort (_filter r skip).
Let listed (w : world) : world :=
  logged w [IoListdir (dircmp.left self); IoListdir (dircmp.right self)].
Let cd := filter (λ x, kind_of fs os_path self x = KDir) c.
Let cf := filter (λ x, kind_of fs os_path self x = KFile) c.
Let cy := filter (λ x, kind_of fs os_path self x = KFunny) c.
Let statted (w : world) : world :=
  logged (listed w) (phase2_log os_path self c).
Let D2 (D : gmap string attr_value) : gmap string attr_value :=
  <["common_funny" := VList cy]>
  (<["common_files" := VList cf]>
   (<["common_dirs" := VList cd]>
    (<["right_only" := VList ro]>
     (<["left_only" := VList lo]>
      (<["common" := VList c]>
       (<["right_list" := VList rl]> (<["left_list" := VList ll]> D))))))).

Lemma get_phase2_attr_run depth w D attr v :
  D !! "left_list"%string = None → D !! "common"%string = None →
  D !! attr = None → assoc methodmap attr = Some Phase2 →
  D2 D !! attr = Some v →
  phase1 os_path ll rl (listed w) = (Ok (c, lo, ro), listed w) →
  getattr fs os_path self (S (S (S depth))) attr (mk_obj_state w D)
  = (inl v, mk_obj_state (statted w) (D2 D)).
Proof.
  intros HD HD' HD'' Hm Hv Hp1.
  rewrite (getattr_missing _ _ _ _ _ Phase2) by done.
  unfold obind, run_phase.
  rewrite (obj_phase2_run _ _ _ l r El Er _ _ _ c lo ro) by done.
  by apply getattr_present.
Qed.

Lemma obj_phase3_run depth w D :
  D !! "left_list"%string = None → D !! "common"%string = None →
  D !! "common_files"%string = None →
  phase1 os_path ll rl (listed w) = (Ok (c, lo, ro), listed w) →
  obj_phase3 fs os_path self (getattr fs os_path self (S (S (S depth))))
    (mk_obj_state w D)
  = let res := compare_many_spec fs os_path (dircmp.left self)
                 (dircmp.right self) cf false (statted w) in
    (inl tt,
     mk_obj_state res.2
       (<["funny_files" := VList res.1.2]>
        (<["diff_files" := VList res.1.1.2]>
         (<["same_files" := VList res.1.1.1]> (D2 D))))).
Proof.
  intros HD HD' HD'' Hp1. cbv zeta. unfold obj_phase3.
  unfold obind at 1, rd_list at 1, obind at 1.
  rewrite (get_phase2_attr_run _ _ _ _ (VList cf))
    by (done || (subst D2; by simplify_map_eq)).
  cbn [as_list oret].
  unfold obind at 1. rewrite lift_M_run. cbn [obj_world obj_dict].
  unfold phase3. rewrite cmpfiles_run. cbn [fst snd].
  destruct (compare_many_spec _ _ _ _ _ _ _) as [[[sf df] ff] w3].
  by unfold obind, setattr.
Qed.

Lemma obj_phase4_run depth w D :
  D !! "left_list"%string = None → D !! "common"%string = None →
  D !! "common_dirs"%string = None →
  phase1 os_path ll rl (listed w) = (Ok (c, lo, ro), listed w) →
  obj_phase4 os_path self (getattr fs os_path self (S (S (S depth))))
    (mk_obj_state w D)
  = (inl tt,
     mk_obj_state (statted w)
       (<["subdirs" := VSubdirs (phase4 os_path self cd)]> (D2 D))).
Proof.
  intros HD HD' HD'' Hp1. unfold obj_phase4.
  unfold obind at 1, setattr at 1. cbn [obj_world obj_dict].
  unfold obind at 1, rd_list at 1, obind at 1.
  rewrite (get_phase2_attr_run _ _ _ _ (VList cd))
    by (done || (subst D2; by simplify_map_eq)).
  cbn [as_list oret]. unfold setattr. cbn [obj_world obj_dict].
  do 2 f_equal. subst D2. cbv beta. dict_eq.
Qed.

End LazyDeep.

Section LazyFail.
Variable fs : FileSystem.
Variable os_path : OsPath.
Variable self : dircmp.t.
Hypothesis Hfail :
  fs_listdir fs (dircmp.left self) = None ∨
  fs_listdir fs (dircmp.right self) = None.

Let failed (w : world) (D : gmap string attr_value) : obj_state :=
  after_failed_listing fs self (mk_obj_state w D).
Let emptied (D : gmap string attr_value) : gmap string attr_value :=
  <["common_funny" := VList []]>
  (<["common_files" := VList []]> (<["common_dirs" := VList []]> D)).

Lemma obj_phase0_fail depth w D :
  obj_phase0 fs self (getattr fs os_path self depth) (mk_obj_state w D)
  = (inr (PhaseError OSError), failed w D).
Proof.
  rewrite obj_phase0_run. subst failed. unfold after_failed_listing.
  cbn [obj_world obj_dict].
  destruct (fs_listdir fs (dircmp.left self)) as [l|]; [|done].
  destruct Hfail as [? | ->]; done.
Qed.

Lemma phase0_fail w :
  phase0 fs self w = (Raise OSError, obj_world (failed w ∅)).
Proof.
  rewrite phase0_run. subst failed. unfold after_failed_listing.
  cbn [obj_world obj_dict].
  destruct (fs_listdir fs (dircmp.left self)) as [l|]; [|done].
  destruct Hfail as [? | ->]; done.
Qed.

Lemma failed_world w D D' : obj_world (failed w D) = obj_world (failed w D').
Proof.
  subst failed. unfold after_failed_listing.
  by destruct (fs_listdir fs (dircmp.left self)).
Qed.

Lemma failed_lookup w D k :
  k ≠ "left_list"%string → obj_dict (failed w D) !! k = D !! k.
Proof.
  intros Hk. subst failed. unfold after_failed_listing.
  destruct (fs_listdir fs (dircmp.left self)); cbn; by simplify_map_eq.
Qed.

Lemma get_left_list_fail depth w D :
  D !! "left_list"%string = None →
  getattr fs os_path self (S depth) "left_list" (mk_obj_state w D)
  = (inr (PhaseError OSError), failed w D).
Proof.
  intros HD. rewrite (getattr_missing _ _ _ _ _ Phase0) by done.
  unfold obind, run_phase. by rewrite obj_phase0_fail.
Qed.

Lemma obj_phase1_fail depth w D :
  D !! "left_list"%string = None →
  obj_phase1 os_path (getattr fs os_path self (S depth)) (mk_obj_state w D)
  = (inr (PhaseError OSError), failed w D).
Proof.
  intros HD. unfold obj_phase1, obind at 1, rd_list at 1, obind at 1.
  by rewrite get_left_list_fail.
Qed.

Lemma get_common_fail depth w D :
  D !! "left_list"%string = None → D !! "common"%string = None →
  getattr fs os_path self (S (S depth)) "common" (mk_obj_state w D)
  = (inr (PhaseError OSError), failed w D).
Proof.
  intros HD HD'. rewrite (getattr_missing _ _ _ _ _ Phase1) by done.
  unfold obind, run_phase. by rewrite obj_phase1_fail.
Qed.

Lemma obj_phase2_fail depth w D :
  D !! "left_list"%string = None → D !! "common"%string = None →
  obj_phase2 fs os_path self (getattr fs os_path self (S (S depth)))
    (mk_obj_state w D)
  = (inr (PhaseError OSError), failed w (emptied D)).
Proof.
  intros HD HD'. unfold obj_phase2.
  do 3 (unfold obind at 1, setattr at 1; cbn [obj_world obj_dict]).
  unfold obind at 1, rd_list at 1, obind at 1.
  by rewrite get_common_fail by (subst emptied; by simplify_map_eq).
Qed.

Lemma get_phase2_attr_fail depth w D attr :
  D !! "left_list"%string = None → D !! "common"%string = None →
  D !! attr = None → assoc methodmap attr = Some Phase2 →
  getattr fs os_path self (S (S (S depth))) attr (mk_obj_state w D)
  = (inr (PhaseError OSError), failed w (emptied D)).
Proof.
  intros HD HD' HD'' Hm.
  rewrite (getattr_missing _ _ _ _ _ Phase2) by done.
  unfold obind, run_phase. by rewrite obj_phase2_fail.
Qed.

Lemma obj_phase3_fail depth w D :
  D !! "left_list"%string = None → D !! "common"%string = None →
  D !! "common_files"%string = None →
  obj_phase3 fs os_path self (getattr fs os_path self (S (S (S depth))))
    (mk_obj_state w D)
  = (inr (PhaseError OSError), failed w (emptied D)).
Proof.
  intros HD HD' HD''. unfold obj_phase3, obind at 1, rd_list at 1, obind at 1.
  by rewrite get_phase2_attr_fail.
Qed.

Lemma obj_phase4_fail depth w D :
  D !! "left_list"%string = None → D !! "common"%string = None →
  D !! "common_dirs"%string = None →
  obj_phase4 os_path self (getattr fs os_path self (S (S (S depth))))
    (mk_obj_state w D)
  = (inr (PhaseError OSError),
     failed w (emptied (<["subdirs" := VSubdirs []]> D))).
Proof.
  intros HD HD' HD''. unfold obj_phase4.
  unfold obind at 1, setattr at 1. cbn [obj_world obj_dict].
  unfold obind at 1, rd_list at 1, obind at 1.
  by rewrite get_phase2_attr_fail by (done || by simplify_map_eq).
Qed.

End LazyFail.

Lemma classify_run fs os_path self w l r c lo ro :
  fs_listdir fs (dircmp.left self) = Some l →
  fs_listdir fs (dircmp.right self) = Some r →
  let skip := dircmp.hide self ++ dircmp.ignore self in
  let ll := list_sort (_filter l skip) in
  let rl := list_sort (_filter r skip) in
  let w0 := logged w [IoListdir (dircmp.left self);
                      IoListdir (dircmp.right self)] in
  phase1 os_path ll rl w0 = (Ok (c, lo, ro), w0) →
  classify fs os_path self w
  = let cf := filter (λ x, kind_of fs os_path self x = KFile) c in
    let res := compare_many_spec fs os_path (dircmp.left self)
                 (dircmp.right self) cf false
                 (logged w0 (phase2_log os_path self c)) in
    (Ok (mk_attrs ll rl c lo ro
           (filter (λ x, kind_of fs os_path self x = KDir) c) cf
           (filter (λ x, kind_of fs os_path self x = KFunny) c)
           res.1.1.1 res.1.1.2 res.1.2),
     res.2).
Proof.
  intros El Er skip ll rl w0 Hp1. cbv zeta.
  unfold classify, bind at 1. rewrite phase0_run, El, Er.
  unfold bind at 1. fold skip ll rl w0. rewrite Hp1.
  unfold bind at 1. rewrite phase2_run.
  unfold bind at 1, phase3. rewrite cmpfiles_run.
  by destruct (compare_many_spec _ _ _ _ _ _ _) as [[[sf df] ff] w3].
Qed.

Lemma classify_fail fs os_path self w :
  fs_listdir fs (dircmp.left self) = None ∨
  fs_listdir fs (dircmp.right self) = None →
  classify fs os_path self w
  = (Raise OSError,
     obj_world (after_failed_listing fs self (mk_obj_state w ∅))).
Proof.
  intros Hfail. unfold classify, bind at 1.
  by rewrite (phase0_fail _ _ Hfail).
Qed.

Lemma pair_eq_snd {A B} (c : A * B) (a : A) : c.1 = a → c = (a, c.2).
Proof. destruct c. by intros <-. Qed.

Lemma listing_cases fs self :
  (∃ l r, fs_listdir fs (dircmp.left self) = Some l ∧
          fs_listdir fs (dircmp.right self) = Some r) ∨
  (fs_listdir fs (dircmp.left self) = None ∨
   fs_listdir fs (dircmp.right self) = None).
Proof.
  destruct (fs_listdir fs (dircmp.left self)) as [l|]; [|by right; left].
  destruct (fs_listdir fs (dircmp.right self)) as [r|]; [|by right; right].
  left. by exists l, r.
Qed.

(** X26.  Reading [same_files] on a new object does what [classify] does:
    the same calls in the same order and the same cache, the same exception
    when a listing fails, and otherwise the value of [same_files] with all
    eleven attributes of phases 0 to 3 stored in the object. *)
Theorem getattr_same_files_runs_classify fs os_path self depth w :
  let res := getattr fs os_path self (4 + depth) "same_files" (new_object w) in
  let ref := classify fs os_path self w in
  obj_world res.2 = ref.2 ∧
  match ref.1 with
  | Ok at' =>
      res.1 = inl (VList (same_files at')) ∧ obj_dict res.2 = dict_of_attrs at'
  | Raise e => res.1 = inr (PhaseError e)
  end.
Proof.
  cbv zeta. unfold new_object. change (4 + depth)%nat with (S (S (S (S depth)))).
  rewrite (getattr_missing _ _ _ _ _ Phase3) by done.
  unfold obind, run_phase.
  destruct (listing_cases fs self) as [(l & r & El & Er)|Hfail].
  - destruct (phase1_spec os_path
                (list_sort (_filter l (dircmp.hide self ++ dircmp.ignore self)))
                (list_sort (_filter r (dircmp.hide self ++ dircmp.ignore self)))
                (logged w [IoListdir (dircmp.left self);
                           IoListdir (dircmp.right self)]))
      as (c & lo & ro & Hp1 & _).
    rewrite (classify_run _ _ _ _ l r c lo ro El Er Hp1).
    rewrite (obj_phase3_run _ _ _ l r El Er c lo ro) by done.
    cbv zeta.
    destruct (compare_many_spec _ _ _ _ _ _ _) as [[[sf df] ff] w3].
    cbn [fst snd].
    erewrite getattr_present by (cbn; by simplify_map_eq).
    cbn [fst snd obj_world obj_dict same_files]. split; [done|].
    split; [done|]. unfold dict_of_attrs. cbn. dict_eq.
  - rewrite (classify_fail _ _ _ _ Hfail).
    rewrite (obj_phase3_fail _ _ _ Hfail) by done.
    cbn [fst snd]. split; [|done].
    unfold after_failed_listing.
    by destruct (fs_listdir fs (dircmp.left self)).
Qed.

(** X27.  A value that an attribute read returns is stored in the object:
    reading the same attribute again returns the same value, runs no phase
    and changes nothing, whatever the recursion depth left. *)
Theorem getattr_result_is_stored fs os_path self depth attr s v s' :
  getattr fs os_path self depth attr s = (inl v, s') →
  obj_dict s' !! attr = Some v ∧
  ∀ depth', getattr fs os_path self depth' attr s' = (inl v, s').
Proof.
  intros Hrun.
  assert (obj_dict s' !! attr = Some v) as Hin.
  { revert s Hrun. induction depth as [|depth IH]; intros s; cbn [getattr].
    - destruct (obj_dict s !! attr) as [v0|] eqn:Hl; [|done].
      by intros [= <- <-].
    - destruct (obj_dict s !! attr) as [v0|] eqn:Hl; [by intros [= <- <-]|].
      destruct (assoc methodmap attr) as [ph|]; [|done].
      unfold obind.
      destruct (run_phase _ _ _ _ _ s) as [[u|e] s1]; [|done].
      apply IH. }
  split; [done|]. intros depth'. by apply getattr_present.
Qed.

Lemma getattr_result_is_stored_witness :
  getattr fs_mixed posix (dircmp_init "A" "B" None None) 0 "left_list"
    (getattr fs_mixed posix (dircmp_init "A" "B" None None) 1 "left_list"
       (new_object initial_world)).2
  = (inl (VList ["d"; "f"; "gone"; "n"; "only_a"]),
     (getattr fs_mixed posix (dircmp_init "A" "B" None None) 1 "left_list"
        (new_object initial_world)).2).
Proof.
  assert (getattr fs_mixed posix (dircmp_init "A" "B" None None) 1 "left_list"
            (new_object initial_world)
          = (inl (VList ["d"; "f"; "gone"; "n"; "only_a"]),
             (getattr fs_mixed posix (dircmp_init "A" "B" None None) 1
                "left_list" (new_object initial_world)).2)) as Hrun.
  { apply pair_eq_snd. vm_compute. reflexivity. }
  exact (proj2 (getattr_result_is_stored fs_mixed posix _ 1 "left_list"
                  _ _ _ Hrun) 0%nat).
Defined.

(** X28.  When a directory cannot be listed, the first read of
    [common_dirs], [common_files], [common_funny] or [subdirs] raises
    [OSError], but [phase2] and [phase4] had already stored their empty
    initial values: every later read returns an empty list (an empty dict
    for [subdirs]) and raises nothing. *)
Theorem failed_listing_leaves_empty_attributes fs os_path self depth w :
  fs_listdir fs (dircmp.left self) = None ∨
  fs_listdir fs (dircmp.right self) = None →
  (∀ attr, attr ∈ ["common_dirs"; "common_files"; "common_funny"]%string →
     ∃ s', getattr fs os_path self (3 + depth) attr (new_object w)
           = (inr (PhaseError OSError), s') ∧
           ∀ depth', getattr fs os_path self depth' attr s'
                     = (inl (VList []), s')) ∧
  (∃ s', getattr fs os_path self (4 + depth) "subdirs" (new_object w)
         = (inr (PhaseError OSError), s') ∧
         ∀ depth', getattr fs os_path self depth' "subdirs" s'
                   = (inl (VSubdirs []), s')).
Proof.
  intros Hfail. unfold new_object. split.
  - intros attr Hattr. eexists. split.
    + change (3 + depth)%nat with (S (S (S depth))).
      apply (get_phase2_attr_fail _ _ _ Hfail); try done.
      set_unfold. by destruct Hattr as [-> | [-> | [-> | []]]].
    + intros depth'. apply getattr_present.
      rewrite (failed_lookup _ _ Hfail).
      * set_unfold. destruct Hattr as [-> | [-> | [-> | []]]];
          by simplify_map_eq.
      * set_unfold. by destruct Hattr as [-> | [-> | [-> | []]]].
  - eexists. split.
    + change (4 + depth)%nat with (S (S (S (S depth)))).
      rewrite (getattr_missing _ _ _ _ _ Phase4) by done.
      unfold obind, run_phase.
      by rewrite (obj_phase4_fail _ _ _ Hfail) by done.
    + intros depth'. apply getattr_present.
      rewrite (failed_lookup _ _ Hfail) by done. by simplify_map_eq.
Qed.

Lemma failed_listing_leaves_empty_attributes_witness :
  ∃ s', getattr fs_mixed posix no_left_side 4 "subdirs"
          (new_object initial_world)
        = (inr (PhaseError OSError), s') ∧
        ∀ depth', getattr fs_mixed posix no_left_side depth' "subdirs" s'
                  = (inl (VSubdirs []), s').
Proof.
  apply (failed_listing_leaves_empty_attributes fs_mixed posix no_left_side 0
           initial_world).
  left. vm_compute. reflexivity.
Defined.

(** X29.  When the left directory can be listed and the right one cannot,
    [phase0] raises after it has stored the left listing: [left_list] then
    holds the filtered listing in the order [os.listdir] gave it, not
    sorted, and later reads return it without raising. *)
Theorem failed_right_listing_leaves_unsorted_left_list
    fs os_path self depth w l :
  fs_listdir fs (dircmp.left self) = Some l →
  fs_listdir fs (dircmp.right self) = None →
  ∃ s', getattr fs os_path self (1 + depth) "left_list" (new_object w)
        = (inr (PhaseError OSError), s') ∧
        ∀ depth', getattr fs os_path self depth' "left_list" s'
                  = (inl (VList (_filter l
                                   (dircmp.hide self ++ dircmp.ignore self))),
                     s').
Proof.
  intros El Er. unfold new_object. eexists. split.
  - change (1 + depth)%nat with (S depth).
    apply get_left_list_fail; [by right|done].
  - intros depth'. apply getattr_present.
    unfold after_failed_listing. rewrite El. cbn. by simplify_map_eq.
Qed.

Lemma failed_right_listing_leaves_unsorted_left_list_witness :
  ∃ s', getattr fs_mixed posix no_right_side 1 "left_list"
          (new_object initial_world)
        = (inr (PhaseError OSError), s') ∧
        ∀ depth', getattr fs_mixed posix no_right_side depth' "left_list" s'
                  = (inl (VList ["n"; "gone"; "f"; "d"; "only_a"]), s').
Proof.
  apply (failed_right_listing_leaves_unsorted_left_list fs_mixed posix
           no_right_side 0 initial_world
           ["n"; "gone"; "f"; "d"; "only_a"; "__pycache__"]%string).
  - vm_compute. reflexivity.
  - vm_compute. reflexivity.
Defined.

(** X30.  Reading [subdirs] on a new object, when both directories can be
    listed, gives the dict that [phase4] builds from the [common_dirs] of
    the classifier; it lists the two directories and stats the common
    names, compares no file, leaves the cache as it was and does not
    compute [same_files]. *)
Theorem getattr_subdirs_compares_no_files fs os_path self depth w at' w' :
  classify fs os_path self w = (Ok at', w') →
  ∃ s', getattr fs os_path self (4 + depth) "subdirs" (new_object w)
        = (inl (VSubdirs (phase4 os_path self (common_dirs at'))), s') ∧
        _cache (obj_world s') = _cache w ∧
        io_log (obj_world s')
        = io_log w
          ++ [IoListdir (dircmp.left self); IoListdir (dircmp.right self)]
          ++ phase2_log os_path self (common at') ∧
        obj_dict s' !! "same_files"%string = None.
Proof.
  intros Hrun.
  destruct (listing_cases fs self) as [(l & r & El & Er)|Hfail];
    [|by rewrite (classify_fail _ _ _ _ Hfail) in Hrun].
  destruct (phase1_spec os_path
              (list_sort (_filter l (dircmp.hide self ++ dircmp.ignore self)))
              (list_sort (_filter r (dircmp.hide self ++ dircmp.ignore self)))
              (logged w [IoListdir (dircmp.left self);
                         IoListdir (dircmp.right self)]))
    as (c & lo & ro & Hp1 & _).
  rewrite (classify_run _ _ _ _ l r c lo ro El Er Hp1) in Hrun.
  cbv zeta in Hrun. injection Hrun as <- _.
  cbn [common_dirs common]. unfold new_object.
  change (4 + depth)%nat with (S (S (S (S depth)))).
  rewrite (getattr_missing _ _ _ _ _ Phase4) by done.
  unfold obind, run_phase.
  rewrite (obj_phase4_run _ _ _ l r El Er c lo ro) by done.
  eexists. split; [apply getattr_present; cbn; by simplify_map_eq|].
  cbn [obj_world obj_dict]. unfold logged. cbn [_cache io_log].
  split; [done|]. split; [by rewrite <-app_assoc|]. by simplify_map_eq.
Qed.

Lemma getattr_subdirs_compares_no_files_witness :
  ∃ s', getattr fs_mixed posix (dircmp_init "A" "B" None None) 4 "subdirs"
          (new_object initial_world)
        = (inl (VSubdirs
                  (phase4 posix (dircmp_init "A" "B" None None) ["d"])), s') ∧
        _cache (obj_world s') = _cache initial_world.
Proof.
  assert (classify fs_mixed posix (dircmp_init "A" "B" None None)
            initial_world
          = (Ok attrs_mixed,
             (classify fs_mixed posix (dircmp_init "A" "B" None None)
                initial_world).2)) as Hrun
    by (apply run_eq; vm_compute; reflexivity).
  destruct (getattr_subdirs_compares_no_files fs_mixed posix _ 0 _ _ _ Hrun)
    as (s' & Hget & Hcache & _).
  exists s'. split; [exact Hget|exact Hcache].
Defined.
